(** * Java serialization stream decoder of yukari-bookmark-extractor

    A shallow embedding of the [ByteStream] cursor ([lib/bytestream.ts])
    and of the decoder ([lib/serializable.ts]: the [Decoder] class,
    [allFieldsFromClassDesc] and [simplifyReference]), followed by the
    properties of the decoder.

    Conventions of the embedding.
    - A JavaScript number that holds an integer is a [Z]; all the arithmetic
      of the decoder (cursor positions, handles, sizes) stays far below
      2^53, where JavaScript numbers are exact.
    - A [bigint] is a [Z].
    - A 32-bit or 64-bit float read from the stream is kept as its bit
      pattern: the decoder never computes with it.
    - A JavaScript string is the list of its Unicode code points.
    - An exception is an outcome [Throw]; the decoder never catches one.
    - The recursive functions of the decoder take a [fuel] argument: the
      TypeScript functions may run forever (see [decode_may_loop]), so the
      embedding cannot be structurally recursive.  [OutOfFuel] is not a
      JavaScript result; it only says that the fuel given was too small.
    - [console.log] calls are not modelled. *)

From Stdlib Require Import ZArith List Lia Ascii String.
From Stdlib.Strings Require Import Byte.
From stdpp Require Import base option list gmap.
Import ListNotations.
Local Open Scope Z_scope.

(** ** Strings *)

(** A JavaScript string: its code points. *)
Definition jsstring : Type := list Z.

Definition jsstring_of_ascii (s : string) : jsstring :=
  List.map (fun a => Z.of_N (N_of_ascii a)) (list_ascii_of_string s).

Definition jsstring_eqb (a b : jsstring) : bool := bool_decide (a = b).

(** *** [new TextDecoder().decode(bytes)]

    The UTF-8 decoder of the Encoding standard, with the default options
    ([fatal] false: a malformed sequence gives U+FFFD; [ignoreBOM] false: a
    leading byte order mark is dropped). *)

Definition byte_val (b : byte) : Z := Z.of_N (Byte.to_N b).

Record utf8_state : Type := mk_utf8_state {
  utf8_code_point : Z;
  utf8_bytes_seen : Z;
  utf8_bytes_needed : Z;
  utf8_lower : Z;
  utf8_upper : Z
}.

Definition utf8_init : utf8_state := mk_utf8_state 0 0 0 0x80 0xBF.

(** The decoder's step on a byte when no sequence is open. *)
Definition utf8_lead (b : Z) : utf8_state * list Z :=
  if b <=? 0x7F then (utf8_init, [b])
  else if (0xC2 <=? b) && (b <=? 0xDF) then
    (mk_utf8_state (Z.land b 0x1F) 0 1 0x80 0xBF, [])
  else if (0xE0 <=? b) && (b <=? 0xEF) then
    (mk_utf8_state (Z.land b 0xF) 0 2
       (if b =? 0xE0 then 0xA0 else 0x80) (if b =? 0xED then 0x9F else 0xBF), [])
  else if (0xF0 <=? b) && (b <=? 0xF4) then
    (mk_utf8_state (Z.land b 0x7) 0 3
       (if b =? 0xF0 then 0x90 else 0x80) (if b =? 0xF4 then 0x8F else 0xBF), [])
  else (utf8_init, [0xFFFD]).

Definition utf8_step (st : utf8_state) (b : Z) : utf8_state * list Z :=
  if utf8_bytes_needed st =? 0 then utf8_lead b
  else if (b <? utf8_lower st) || (utf8_upper st <? b) then
    (* error, and the byte is processed again with the state reset *)
    let '(st', out) := utf8_lead b in (st', 0xFFFD :: out)
  else
    let cp := Z.lor (Z.shiftl (utf8_code_point st) 6) (Z.land b 0x3F) in
    let seen := utf8_bytes_seen st + 1 in
    if seen =? utf8_bytes_needed st then (utf8_init, [cp])
    else (mk_utf8_state cp seen (utf8_bytes_needed st) 0x80 0xBF, []).

Fixpoint utf8_run (st : utf8_state) (bs : list byte) : list Z :=
  match bs with
  | [] => if utf8_bytes_needed st =? 0 then [] else [0xFFFD]
  | b :: bs' =>
      let '(st', out) := utf8_step st (byte_val b) in
      out ++ utf8_run st' bs'
  end.

Definition TextDecoder_decode (bs : list byte) : jsstring :=
  match bs with
  | xef :: xbb :: xbf :: bs' => utf8_run utf8_init bs'
  | _ => utf8_run utf8_init bs
  end.

(** ** bytestream.ts *)

Record ByteStream : Type := mkByteStream {
  bytes : list byte;
  position : Z
}.

Definition ByteStream_length (s : ByteStream) : Z := Z.of_nat (length (bytes s)).

Definition eof (s : ByteStream) : bool := ByteStream_length s <=? position s.

(** Big-endian unsigned value of a run of bytes. *)
Definition be_unsigned (bs : list byte) : Z :=
  fold_left (fun acc b => acc * 256 + byte_val b) bs 0.

(** Two's complement reading of a [w]-bit unsigned value. *)
Definition to_signed (w : Z) (u : Z) : Z :=
  if 2 ^ (w - 1) <=? u then u - 2 ^ w else u.

(** [DataView.prototype.getUintN]: a [RangeError] ([None]) unless the [n]
    bytes at [pos] lie inside the buffer. *)
Definition getUint (n : nat) (buf : list byte) (pos : Z) : option Z :=
  if (pos <? 0) || (Z.of_nat (length buf) <? pos + Z.of_nat n) then None
  else Some (be_unsigned (take n (drop (Z.to_nat pos) buf))).

Definition getInt (n : nat) (buf : list byte) (pos : Z) : option Z :=
  to_signed (8 * Z.of_nat n) <$> getUint n buf pos.

(** [ArrayBuffer.prototype.slice(begin, end)]: negative indices count from
    the end, both are clamped to the buffer, an empty range gives an empty
    buffer.  It never throws. *)
Definition ArrayBuffer_slice (buf : list byte) (begin end_ : Z) : list byte :=
  let len := Z.of_nat (length buf) in
  let first := if begin <? 0 then Z.max (len + begin) 0 else Z.min begin len in
  let final := if end_ <? 0 then Z.max (len + end_) 0 else Z.min end_ len in
  take (Z.to_nat (Z.max (final - first) 0)) (drop (Z.to_nat first) buf).

(** Each reader gives the value read, or [None] for the [RangeError] of the
    [DataView], and the stream after the call. *)
Definition advance (s : ByteStream) (n : Z) : ByteStream :=
  mkByteStream (bytes s) (position s + n).

Definition peekByte (s : ByteStream) : option Z * ByteStream :=
  (getUint 1 (bytes s) (position s), s).

(** [getUint8(this.position++)]: the cursor moves before the read. *)
Definition readByte (s : ByteStream) : option Z * ByteStream :=
  (getUint 1 (bytes s) (position s), advance s 1).

(** The other readers move the cursor after a successful read. *)
Definition read_then_advance {A} (r : option A) (s : ByteStream) (n : Z)
  : option A * ByteStream :=
  match r with
  | Some v => (Some v, advance s n)
  | None => (None, s)
  end.

Definition readBytes (len : Z) (s : ByteStream) : option (list byte) * ByteStream :=
  (Some (ArrayBuffer_slice (bytes s) (position s) (position s + len)), advance s len).

Definition readShort (s : ByteStream) : option Z * ByteStream :=
  read_then_advance (getInt 2 (bytes s) (position s)) s 2.

Definition readUShort (s : ByteStream) : option Z * ByteStream :=
  read_then_advance (getUint 2 (bytes s) (position s)) s 2.

Definition readInt (s : ByteStream) : option Z * ByteStream :=
  read_then_advance (getInt 4 (bytes s) (position s)) s 4.

Definition readUInt (s : ByteStream) : option Z * ByteStream :=
  read_then_advance (getUint 4 (bytes s) (position s)) s 4.

Definition readLong (s : ByteStream) : option Z * ByteStream :=
  read_then_advance (getInt 8 (bytes s) (position s)) s 8.

Definition readULong (s : ByteStream) : option Z * ByteStream :=
  read_then_advance (getUint 8 (bytes s) (position s)) s 8.

(** The bit pattern of the float read. *)
Definition readFloat (s : ByteStream) : option Z * ByteStream :=
  read_then_advance (getUint 4 (bytes s) (position s)) s 4.

Definition readDouble (s : ByteStream) : option Z * ByteStream :=
  read_then_advance (getUint 8 (bytes s) (position s)) s 8.

Definition readUTF (s : ByteStream) : option jsstring * ByteStream :=
  match readUShort s with
  | (Some len, s1) =>
      (Some (TextDecoder_decode
               (ArrayBuffer_slice (bytes s1) (position s1) (position s1 + len))),
       advance s1 len)
  | (None, s1) => (None, s1)
  end.

(** ** serializable.ts: constants *)

Definition STREAM_MAGIC : Z := 0xaced.
Definition STREAM_VERSION : Z := 5.
Definition TC_NULL : Z := 0x70.
Definition TC_REFERENCE : Z := 0x71.
Definition TC_CLASSDESC : Z := 0x72.
Definition TC_OBJECT : Z := 0x73.
Definition TC_STRING : Z := 0x74.
Definition TC_ARRAY : Z := 0x75.
Definition TC_CLASS : Z := 0x76.
Definition TC_BLOCKDATA : Z := 0x77.
Definition TC_ENDBLOCKDATA : Z := 0x78.
Definition TC_RESET : Z := 0x79.
Definition TC_BLOCKDATALONG : Z := 0x7A.
Definition TC_EXCEPTION : Z := 0x7B.
Definition TC_LONGSTRING : Z := 0x7C.
Definition TC_PROXYCLASSDESC : Z := 0x7D.
Definition TC_ENUM : Z := 0x7E.
Definition baseWireHandle : Z := 0x7E0000.
Definition SC_WRITE_METHOD : Z := 0x01.
Definition SC_BLOCK_DATA : Z := 0x08.
Definition SC_SERIALIZABLE : Z := 0x02.
Definition SC_EXTERNALIZABLE : Z := 0x04.
Definition SC_ENUM : Z := 0x10.

Definition TYPECODE_BYTE : Z := 66.     (* "B" *)
Definition TYPECODE_CHAR : Z := 67.     (* "C" *)
Definition TYPECODE_DOUBLE : Z := 68.   (* "D" *)
Definition TYPECODE_FLOAT : Z := 70.    (* "F" *)
Definition TYPECODE_INTEGER : Z := 73.  (* "I" *)
Definition TYPECODE_LONG : Z := 74.     (* "J" *)
Definition TYPECODE_SHORT : Z := 83.    (* "S" *)
Definition TYPECODE_BOOLEAN : Z := 90.  (* "Z" *)
Definition TYPECODE_ARRAY : Z := 91.    (* "[" *)
Definition TYPECODE_OBJECT : Z := 76.   (* "L" *)

Definition java_util_Date : jsstring := jsstring_of_ascii "java.util.Date".

(** ** serializable.ts: data model

    [value] is what the decoder exports and what it stores in field maps
    (TypeScript's [unknown] there); [Ref] is [Reference | null], together
    with the [undefined] that a failed registry lookup gives at run time;
    [Content] is what [decodeContent] returns, a block of raw bytes or a
    [Ref].  A JavaScript object used as a field map is an association list
    in insertion order. *)

#[local] Unset Elimination Schemes.

Inductive value : Type :=
| VUndefined
| VNull
| VBool (b : bool)
| VNumber (n : Z)
| VFloat32 (bits : Z)
| VFloat64 (bits : Z)
| VBigInt (n : Z)
| VString (s : jsstring)
| VArrayBuffer (buf : list byte)
| VArray (items : list value)
| VRecord (props : list (jsstring * value))
| VClassDescReference (handle : Z) (classDesc : ClassDesc)
with Ref : Type :=
| RUndefined
| RNull
| StringReference (handle : Z) (string : jsstring)
| ClassDescReference (handle : Z) (classDesc : ClassDesc)
| ObjectReference (handle : Z) (classDesc : ClassDesc)
    (object : list (jsstring * value)) (objectAnnotation : list Content)
| ArrayReference (handle : Z) (classDesc : option ClassDesc) (array : list Ref)
with Content : Type :=
| CBlock (buf : list byte)
| CRef (ref : Ref)
with ClassDesc : Type :=
| mkClassDesc (className : jsstring) (serialVersionUID : Z)
    (classDescInfo : ClassDescInfo)
with ClassDescInfo : Type :=
| mkClassDescInfo (classDescFlags : Z) (fields : list FieldDesc)
    (classAnnotation : list Content) (superClassDesc : Ref)
with FieldDesc : Type :=
| PrimitiveFieldDesc (typecode : Z) (fieldName : jsstring)
| ArrayFieldDesc (fieldName : jsstring) (className1 : Ref)
| ObjectFieldDesc (fieldName : jsstring) (className1 : Ref).

#[local] Set Elimination Schemes.

Definition className (cd : ClassDesc) : jsstring :=
  let 'mkClassDesc n _ _ := cd in n.
Definition serialVersionUID (cd : ClassDesc) : Z :=
  let 'mkClassDesc _ u _ := cd in u.
Definition classDescInfo (cd : ClassDesc) : ClassDescInfo :=
  let 'mkClassDesc _ _ i := cd in i.
Definition classDescFlags (i : ClassDescInfo) : Z :=
  let 'mkClassDescInfo f _ _ _ := i in f.
Definition fields (i : ClassDescInfo) : list FieldDesc :=
  let 'mkClassDescInfo _ fs _ _ := i in fs.
Definition classAnnotation (i : ClassDescInfo) : list Content :=
  let 'mkClassDescInfo _ _ a _ := i in a.
Definition superClassDesc (i : ClassDescInfo) : Ref :=
  let 'mkClassDescInfo _ _ _ s := i in s.

Definition fieldName (f : FieldDesc) : jsstring :=
  match f with
  | PrimitiveFieldDesc _ n => n
  | ArrayFieldDesc n _ => n
  | ObjectFieldDesc n _ => n
  end.

(** *** Exceptions *)

Inductive exn : Type :=
| RangeError                            (* a read outside the buffer *)
| TypeError                             (* a property of undefined or null, a bad DataView *)
| MagicMismatch                         (* "magic !== STREAM_MAGIC" *)
| UnknownTcAt (position : Z) (tc : Z)   (* decodeObject: "<position>: unknown tc: 0x.." *)
| UnknownTc (tc : Z)                    (* decodeClassDesc: "unknown tc: 0x.." *)
| NotImplementedLongString              (* "decodeNewString: not implemented TC_LONGSTRING" *)
| UnsupportExternalizable               (* "unsupport Externalizable" *)
| NotImplemented                        (* "not implemented" (TC_PROXYCLASSDESC) *)
| UnknownTypecode (typecode : Z)        (* "unknown typecode: .." *)
| InvalidFieldDesc.                     (* "invalid FieldDesc" *)

(** *** Property access *)

(** [ref.classDesc]: a [TypeError] on [undefined] and [null], [undefined]
    ([None]) on a record without the property. *)
Definition get_classDesc (r : Ref) : exn + option ClassDesc :=
  match r with
  | RUndefined | RNull => inl TypeError
  | StringReference _ _ => inr None
  | ClassDescReference _ cd => inr (Some cd)
  | ObjectReference _ cd _ _ => inr (Some cd)
  | ArrayReference _ ocd _ => inr ocd
  end.

(** [obj[key]] on a field map. *)
Fixpoint get_prop (key : jsstring) (obj : list (jsstring * value)) : value :=
  match obj with
  | [] => VUndefined
  | (k, v) :: rest => if jsstring_eqb k key then v else get_prop key rest
  end.

(** [obj[key] = v] on a field map that has no property [key] yet adds it
    at the end; an existing property keeps its place. *)
Fixpoint assign_prop (key : jsstring) (v : value) (obj : list (jsstring * value))
  : list (jsstring * value) :=
  match obj with
  | [] => [(key, v)]
  | (k, w) :: rest =>
      if jsstring_eqb k key then (k, v) :: rest
      else (k, w) :: assign_prop key v rest
  end.

(** [obj[key] = v] on a field map created by [{}].  The key [__proto__]
    names the accessor of [Object.prototype]: the assignment creates no
    property.  (The list keeps the order of insertion; JavaScript lists the
    keys that are array indices first, which shows only when the map is
    printed.) *)
Definition set_prop (key : jsstring) (v : value) (obj : list (jsstring * value))
  : list (jsstring * value) :=
  if jsstring_eqb key (jsstring_of_ascii "__proto__") then obj
  else assign_prop key v obj.

(** ** serializable.ts: the functions outside the class *)

(** [allFieldsFromClassDesc].  The test [if (superClassDesc)] is on
    truthiness: [null] and [undefined] end the chain, any record goes on
    with its [classDesc] property, and [undefined.classDescInfo] is a
    [TypeError]. *)
Fixpoint allFieldsFromClassDesc (classDesc : ClassDesc) : exn + list FieldDesc :=
  let 'mkClassDesc _ _ (mkClassDescInfo _ own _ super) := classDesc in
  let continue (parent : ClassDesc) :=
    match allFieldsFromClassDesc parent with
    | inr inherited => inr (inherited ++ own)
    | inl e => inl e
    end in
  match super with
  | RUndefined | RNull => inr own
  | StringReference _ _ => inl TypeError
  | ClassDescReference _ parent => continue parent
  | ObjectReference _ parent _ _ => continue parent
  | ArrayReference _ (Some parent) _ => continue parent
  | ArrayReference _ None _ => inl TypeError
  end.

(** [simplifyReference]. *)
Fixpoint simplifyReference (ref : Ref) : value :=
  match ref with
  | RUndefined => VUndefined
  | RNull => VNull
  | StringReference _ s => VString s
  | ArrayReference _ _ arr => VArray (List.map simplifyReference arr)
  | ObjectReference _ cd obj _ =>
      if jsstring_eqb (className cd) java_util_Date
      then get_prop (jsstring_of_ascii "date") obj
      else VRecord obj
  | ClassDescReference h cd => VClassDescReference h cd
  end.

(** *** [new Date(Number(msec)).toJSON()]

    [Number(msec)] rounds a bigint to the nearest double; every integer up
    to the largest time value of a [Date], 8.64e15, is below 2^53 and so is
    kept as it is, and a larger one does not round down to it or below, so
    the test against the time range can be made on the integer.  Outside
    the range the date is invalid and [toJSON] gives [null]; inside,
    [toISOString]. *)

Fixpoint pad_digits (width : nat) (n : Z) : jsstring :=
  match width with
  | O => []
  | S w => pad_digits w (n / 10) ++ [48 + n mod 10]
  end.

(** The civil date (year, month, day) of a number of days since
    1970-01-01, in the proleptic Gregorian calendar. *)
Definition civil_from_days (days : Z) : Z * Z * Z :=
  let z := days + 719468 in
  let era := z / 146097 in
  let doe := z - era * 146097 in
  let yoe := (doe - doe / 1460 + doe / 36524 - doe / 146096) / 365 in
  let doy := doe - (365 * yoe + yoe / 4 - yoe / 100) in
  let mp := (5 * doy + 2) / 153 in
  let d := doy - (153 * mp + 2) / 5 + 1 in
  let m := if mp <? 10 then mp + 3 else mp - 9 in
  let y := yoe + era * 400 + (if m <=? 2 then 1 else 0) in
  (y, m, d).

Definition Date_toISOString (t : Z) : jsstring :=
  let '(y, m, d) := civil_from_days (t / 86400000) in
  let ms := t mod 86400000 in
  let year :=
    if (0 <=? y) && (y <=? 9999) then pad_digits 4 y
    else (if y <? 0 then jsstring_of_ascii "-" else jsstring_of_ascii "+")
           ++ pad_digits 6 (Z.abs y) in
  year ++ jsstring_of_ascii "-" ++ pad_digits 2 m
       ++ jsstring_of_ascii "-" ++ pad_digits 2 d
       ++ jsstring_of_ascii "T" ++ pad_digits 2 (ms / 3600000)
       ++ jsstring_of_ascii ":" ++ pad_digits 2 (ms / 60000 mod 60)
       ++ jsstring_of_ascii ":" ++ pad_digits 2 (ms / 1000 mod 60)
       ++ jsstring_of_ascii "." ++ pad_digits 3 (ms mod 1000)
       ++ jsstring_of_ascii "Z".

Definition max_time_value : Z := 8640000000000000.

Definition Date_toJSON (msec : Z) : value :=
  if max_time_value <? Z.abs msec then VNull
  else VString (Date_toISOString msec).

(** ** serializable.ts: the [Decoder] class *)

Record Decoder : Type := mkDecoder {
  input : ByteStream;
  handle : Z;
  objectRegistry : gmap Z Ref
}.

(** The constructor. *)
Definition new_Decoder (input : ByteStream) : Decoder :=
  mkDecoder input baseWireHandle ∅.

(** The decoder after [this.input] moved to [s], after [this.handle++],
    and after [this.objectRegistry[h] = ref]. *)
Definition with_input (d : Decoder) (s : ByteStream) : Decoder :=
  mkDecoder s (handle d) (objectRegistry d).

Definition allocated (d : Decoder) : Decoder :=
  mkDecoder (input d) (handle d + 1) (objectRegistry d).

Definition stored (h : Z) (ref : Ref) (d : Decoder) : Decoder :=
  mkDecoder (input d) (handle d) (<[h := ref]> (objectRegistry d)).

Inductive outcome (A : Type) : Type :=
| Ok (a : A) (d : Decoder)       (* the call returns [a] *)
| Throw (e : exn) (d : Decoder)  (* the call throws [e] *)
| OutOfFuel.
Arguments Ok {A} a d.
Arguments Throw {A} e d.
Arguments OutOfFuel {A}.

(** A method of the decoder. *)
Definition M (A : Type) : Type := Decoder -> outcome A.

Definition ret {A} (a : A) : M A := fun d => Ok a d.

Definition throw {A} (e : exn) : M A := fun d => Throw e d.

Definition bind {A B} (m : M A) (k : A -> M B) : M B :=
  fun d =>
    match m d with
    | Ok a d' => k a d'
    | Throw e d' => Throw e d'
    | OutOfFuel => OutOfFuel
    end.

Notation "'let*' x := m 'in' k" := (bind m (fun x => k))
  (at level 10, x name, m at level 100, k at level 200, only parsing).
Notation "'run' m 'in' k" := (bind m (fun _ => k))
  (at level 10, m at level 100, k at level 200, only parsing).

(** A call on [this.input]. *)
Definition on_input {A} (f : ByteStream -> option A * ByteStream) : M A :=
  fun d =>
    let '(r, s) := f (input d) in
    let d' := with_input d s in
    match r with
    | Some a => Ok a d'
    | None => Throw RangeError d'
    end.

Definition get_position : M Z := fun d => Ok (position (input d)) d.

Definition get_eof : M bool := fun d => Ok (eof (input d)) d.

(** [this.objectRegistry[handle] = ref]; the assignment's value is [ref]. *)
Definition store (h : Z) (ref : Ref) : M Ref :=
  fun d => Ok ref (stored h ref d).

(** [this.objectRegistry[handle]]: [undefined] when nothing is stored. *)
Definition lookup_registry (h : Z) : M Ref :=
  fun d => Ok (default RUndefined (objectRegistry d !! h)) d.

(** A result or an exception of a function outside the class. *)
Definition lift_exn {A} (r : exn + A) : M A :=
  match r with
  | inr a => ret a
  | inl e => throw e
  end.

(** [nextHandle]: [return this.handle++]. *)
Definition nextHandle : M Z :=
  fun d => Ok (handle d) (allocated d).

(** [decodeReference]. *)
Definition decodeReference : M Ref :=
  let* h := on_input readInt in
  lookup_registry h.

(** [decodeNewString]. *)
Definition decodeNewString (longString : bool) : M Ref :=
  let* h := nextHandle in
  if longString then throw NotImplementedLongString
  else
    let* s := on_input readUTF in
    store h (StringReference h s).

(** [decodePrimitiveValue]. *)
Definition decodePrimitiveValue (typecode : Z) : M value :=
  if typecode =? TYPECODE_BYTE then let* v := on_input readByte in ret (VNumber v)
  else if typecode =? TYPECODE_CHAR then let* v := on_input readUShort in ret (VNumber v)
  else if typecode =? TYPECODE_DOUBLE then let* v := on_input readDouble in ret (VFloat64 v)
  else if typecode =? TYPECODE_FLOAT then let* v := on_input readFloat in ret (VFloat32 v)
  else if typecode =? TYPECODE_INTEGER then let* v := on_input readInt in ret (VNumber v)
  else if typecode =? TYPECODE_LONG then let* v := on_input readLong in ret (VBigInt v)
  else if typecode =? TYPECODE_SHORT then let* v := on_input readShort in ret (VNumber v)
  else if typecode =? TYPECODE_BOOLEAN then let* v := on_input readByte in ret (VBool (v =? 1))
  else throw (UnknownTypecode typecode).

(** The three kinds of field descriptor that [decodeClassDescInfo] tells
    apart by the type code read. *)
Definition is_primitive_typecode (typecode : Z) : bool :=
  (typecode =? TYPECODE_BYTE) || (typecode =? TYPECODE_CHAR)
  || (typecode =? TYPECODE_DOUBLE) || (typecode =? TYPECODE_FLOAT)
  || (typecode =? TYPECODE_INTEGER) || (typecode =? TYPECODE_LONG)
  || (typecode =? TYPECODE_SHORT) || (typecode =? TYPECODE_BOOLEAN).

(** [n] calls of [m] in a row, the results in order: the [for] loops. *)
Fixpoint times {A} (n : nat) (m : M A) : M (list A) :=
  match n with
  | O => ret []
  | S n' => let* a := m in let* rest := times n' m in ret (a :: rest)
  end.

(** [fields.forEach((field) => { classData[field.fieldName] =
    this.decodeValues(field); })]. *)
Fixpoint forEach_field (decodeValues : FieldDesc -> M value)
    (fs : list FieldDesc) (classData : list (jsstring * value))
  : M (list (jsstring * value)) :=
  match fs with
  | [] => ret classData
  | field :: rest =>
      let* v := decodeValues field in
      forEach_field decodeValues rest (set_prop (fieldName field) v classData)
  end.

(** The end of [decodeNewObject], from the test on the class name on:
    the record registered and returned. *)
Definition finishNewObject (h : Z) (classDesc : ClassDesc)
    (classData : list (jsstring * value)) (objectAnnotation : list Content)
  : M Ref :=
  if jsstring_eqb (className classDesc) java_util_Date then
    match objectAnnotation with
    | CBlock timestamp :: _ =>
        match getUint 8 timestamp 0 with
        | Some msec =>
            store h (ObjectReference h classDesc
                       [(jsstring_of_ascii "date", Date_toJSON msec)]
                       objectAnnotation)
        | None => throw RangeError
        end
    | _ => throw TypeError   (* new DataView(x), x not an ArrayBuffer *)
    end
  else store h (ObjectReference h classDesc classData objectAnnotation).

(** The body of the loop over the field descriptors in
    [decodeClassDescInfo]: one field descriptor. *)
Definition decodeFieldDesc (decodeObject : M Ref) : M FieldDesc :=
  let* typecode := on_input readByte in
  if is_primitive_typecode typecode then
    let* fieldName := on_input readUTF in
    ret (PrimitiveFieldDesc typecode fieldName)
  else if typecode =? TYPECODE_ARRAY then
    let* fieldName := on_input readUTF in
    let* className1 := decodeObject in
    ret (ArrayFieldDesc fieldName className1)
  else if typecode =? TYPECODE_OBJECT then
    let* fieldName := on_input readUTF in
    let* className1 := decodeObject in
    ret (ObjectFieldDesc fieldName className1)
  else throw (UnknownTypecode typecode).

(** The [classdata] part of [decodeNewObject]: the field map and the
    annotation read for the flags of the class descriptor. *)
Definition decodeClassData (decodeValues : FieldDesc -> M value)
    (decodeAnnotation : M (list Content))
    (classDescFlags : Z) (fields : list FieldDesc)
  : M (list (jsstring * value) * list Content) :=
  if negb (Z.land classDescFlags SC_SERIALIZABLE =? 0) then
    if negb (Z.land classDescFlags SC_WRITE_METHOD =? 0) then
      let* classData := forEach_field decodeValues fields [] in
      let* objectAnnotation := decodeAnnotation in
      ret (classData, objectAnnotation)
    else
      let* classData := forEach_field decodeValues fields [] in
      ret (classData, [])
  else if negb (Z.land classDescFlags SC_EXTERNALIZABLE =? 0) then
    throw UnsupportExternalizable
  else ret ([], []).

(** The methods of the class that call one another.  [decodeAnnotation] is
    the loop [while (this.input.peekByte() !== TC_ENDBLOCKDATA)] that
    [decodeNewObject] and [decodeClassDescInfo] both have, with the
    [readByte] that drops the end marker; [acc] is the list pushed to.
    The parameter [tc] of [decodeClassDesc] is [None] where the caller
    leaves it to its default, [this.input.readByte()]. *)
Fixpoint decodeContent (fuel : nat) : M Content :=
  match fuel with
  | O => fun _ => OutOfFuel
  | S fuel =>
      let* tc := on_input peekByte in
      if tc =? TC_BLOCKDATA then
        run on_input readByte in
        let* size := on_input readByte in
        let* block := on_input (readBytes size) in
        ret (CBlock block)
      else if tc =? TC_BLOCKDATALONG then
        run on_input readByte in
        let* size := on_input readInt in
        let* block := on_input (readBytes size) in
        ret (CBlock block)
      else
        let* ref := decodeObject fuel in
        ret (CRef ref)
  end

with decodeObject (fuel : nat) : M Ref :=
  match fuel with
  | O => fun _ => OutOfFuel
  | S fuel =>
      let* tc := on_input readByte in
      if tc =? TC_NULL then ret RNull
      else if tc =? TC_REFERENCE then decodeReference
      else if tc =? TC_CLASSDESC then decodeClassDesc fuel (Some tc)
      else if tc =? TC_OBJECT then decodeNewObject fuel
      else if tc =? TC_STRING then decodeNewString false
      else if tc =? TC_LONGSTRING then decodeNewString true
      else if tc =? TC_ARRAY then decodeNewArray fuel
      else if tc =? TC_PROXYCLASSDESC then decodeClassDesc fuel (Some tc)
      else
        (* TC_CLASS, TC_EXCEPTION, TC_ENUM and TC_RESET break out of the
           switch and reach the throw that every other byte reaches *)
        let* pos := get_position in
        throw (UnknownTcAt pos tc)
  end

with decodeNewObject (fuel : nat) : M Ref :=
  match fuel with
  | O => fun _ => OutOfFuel
  | S fuel =>
      let* ref := decodeClassDesc fuel None in
      let* classDesc := lift_exn (get_classDesc ref) in
      let* h := nextHandle in
      match classDesc with
      | None => throw TypeError   (* classDesc.classDescInfo *)
      | Some classDesc =>
          let flags := classDescFlags (classDescInfo classDesc) in
          let* fields := lift_exn (allFieldsFromClassDesc classDesc) in
          let* data :=
            decodeClassData (decodeValues fuel) (decodeAnnotation fuel [])
              flags fields in
          finishNewObject h classDesc (fst data) (snd data)
      end
  end

with decodeNewArray (fuel : nat) : M Ref :=
  match fuel with
  | O => fun _ => OutOfFuel
  | S fuel =>
      let* ref := decodeClassDesc fuel None in
      let* classDesc := lift_exn (get_classDesc ref) in
      let* h := nextHandle in
      let* size := on_input readInt in
      let* values := times (Z.to_nat size) (decodeObject fuel) in
      store h (ArrayReference h classDesc values)
  end

with decodeValues (fuel : nat) (field : FieldDesc) : M value :=
  match fuel with
  | O => fun _ => OutOfFuel
  | S fuel =>
      match field with
      | PrimitiveFieldDesc typecode _ => decodePrimitiveValue typecode
      | ArrayFieldDesc _ _ =>
          let* ref := decodeObject fuel in ret (simplifyReference ref)
      | ObjectFieldDesc _ _ =>
          let* ref := decodeObject fuel in ret (simplifyReference ref)
      end
  end

with decodeClassDesc (fuel : nat) (tc : option Z) : M Ref :=
  match fuel with
  | O => fun _ => OutOfFuel
  | S fuel =>
      let* tc := match tc with
                 | Some tc => ret tc
                 | None => on_input readByte
                 end in
      if tc =? TC_CLASSDESC then
        let* className := on_input readUTF in
        let* serialVersionUID := on_input readULong in
        let* h := nextHandle in
        let* classDescInfo := decodeClassDescInfo fuel in
        store h (ClassDescReference h
                   (mkClassDesc className serialVersionUID classDescInfo))
      else if tc =? TC_PROXYCLASSDESC then throw NotImplemented
      else if tc =? TC_NULL then ret RNull
      else if tc =? TC_REFERENCE then decodeReference
      else throw (UnknownTc tc)
  end

with decodeClassDescInfo (fuel : nat) : M ClassDescInfo :=
  match fuel with
  | O => fun _ => OutOfFuel
  | S fuel =>
      let* classDescFlags := on_input readByte in
      let* fieldsCount := on_input readUShort in
      let* fields :=
        times (Z.to_nat fieldsCount) (decodeFieldDesc (decodeObject fuel)) in
      let* classAnnotation := decodeAnnotation fuel [] in
      let* superClassDesc := decodeClassDesc fuel None in
      ret (mkClassDescInfo classDescFlags fields classAnnotation superClassDesc)
  end

with decodeAnnotation (fuel : nat) (acc : list Content) : M (list Content) :=
  match fuel with
  | O => fun _ => OutOfFuel
  | S fuel =>
      let* tc := on_input peekByte in
      if negb (tc =? TC_ENDBLOCKDATA) then
        let* content := decodeContent fuel in
        decodeAnnotation fuel (acc ++ [content])
      else
        run on_input readByte in
        ret acc
  end.

(** The loop [while (!this.input.eof)] of [decode]. *)
Fixpoint decodeContents (fuel : nat) (contents : list value) : M (list value) :=
  match fuel with
  | O => fun _ => OutOfFuel
  | S fuel =>
      let* at_end := get_eof in
      if negb at_end then
        let* content := decodeContent fuel in
        match content with
        | CBlock block => decodeContents fuel (contents ++ [VArrayBuffer block])
        | CRef ref => decodeContents fuel (contents ++ [simplifyReference ref])
        end
      else ret contents
  end.

(** [Decoder.decode]. *)
Definition Decoder_decode (fuel : nat) : M (list value) :=
  let* magic := on_input readUShort in
  if negb (magic =? STREAM_MAGIC) then throw MagicMismatch
  else
    let* _version := on_input readUShort in
    decodeContents fuel [].

(** The exported [decode]: [new Decoder(input).decode()]. *)
Definition decode (fuel : nat) (input : ByteStream) : outcome (list value) :=
  Decoder_decode fuel (new_Decoder input).

(** The stream over a fresh buffer: [new ByteStream(bytes)]. *)
Definition new_ByteStream (bytes : list byte) : ByteStream := mkByteStream bytes 0.

Definition result_of {A} (o : outcome A) : option (exn + A) :=
  match o with
  | Ok a _ => Some (inr a)
  | Throw e _ => Some (inl e)
  | OutOfFuel => None
  end.

Definition fails {A} (o : outcome A) : Prop := exists e d, o = Throw e d.

(** The header: the magic number and a version field. *)
Definition header (v0 v1 : byte) : list byte := [xac; xed; v0; v1].

(** *** Writing an integer back

    The big-endian bytes of an unsigned value: what a writer would emit for
    it.  They serve to state that a read loses nothing. *)
Definition byte_of_Z (z : Z) : byte := default x00 (Byte.of_N (Z.to_N z)).

Fixpoint be_bytes (n : nat) (v : Z) : list byte :=
  match n with
  | O => []
  | S n' => be_bytes n' (v / 256) ++ [byte_of_Z (v mod 256)]
  end.

(** The [n] bytes under the cursor. *)
Definition bytes_at (s : ByteStream) (n : nat) : list byte :=
  take n (drop (Z.to_nat (position s)) (bytes s)).

(** [n] bytes can be read at the cursor. *)
Definition available (s : ByteStream) (n : nat) : Prop :=
  0 <= position s /\ position s + Z.of_nat n <= ByteStream_length s.

(** The tags of the records that the decoder names and does not decode. *)
Definition unsupported_tc : list Z :=
  [TC_CLASS; TC_EXCEPTION; TC_ENUM; TC_RESET; TC_LONGSTRING; TC_PROXYCLASSDESC].

(** The tag under the cursor is [tc]. *)
Definition tag_at (s : ByteStream) (tc : Z) : Prop :=
  available s 1 /\ be_unsigned (bytes_at s 1) = tc.

(** A timestamp as exported: the ISO 8601 text of a time value. *)
Definition is_timestamp (v : value) : Prop :=
  exists msec, v = VString (Date_toISOString msec).

Definition is_field_mapping (v : value) : Prop :=
  exists props, v = VRecord props.

(** The stream of one object of the class [java.util.Date] as Java writes
    it (serialVersionUID 0x686A81014B597419, flags serializable with a
    write method, no field, no superclass), its annotation being one block
    of the eight bytes [msec]. *)
Definition date_stream (msec : list byte) : list byte :=
  header x00 x05
  ++ [x73; x72; x00; x0e;
      x6a; x61; x76; x61; x2e; x75; x74; x69; x6c; x2e; x44; x61; x74; x65;
      x68; x6a; x81; x01; x4b; x59; x74; x19;
      x03; x00; x00; x78; x70;
      x77; x08]
  ++ msec ++ [x78].

(** The class descriptors of a superclass chain, the most distant ancestor
    first and the descriptor itself last: the chain ends at the descriptor
    whose superclass descriptor is [null], and each other one has a
    class-descriptor reference to its parent. *)
Inductive Lineage : ClassDesc -> list ClassDesc -> Prop :=
| Lineage_root cd :
    superClassDesc (classDescInfo cd) = RNull ->
    Lineage cd [cd]
| Lineage_child cd h parent ancestors :
    superClassDesc (classDescInfo cd) = ClassDescReference h parent ->
    Lineage parent ancestors ->
    Lineage cd (ancestors ++ [cd]).

(** The fields that a class descriptor declares itself. *)
Definition own_fields (cd : ClassDesc) : list FieldDesc :=
  fields (classDescInfo cd).

(** *** The discipline of the registry

    [ref_handle] is the handle that a record carries.
    [grows_storing complete None d d'] relates the decoder before and after
    a call: the counter only moves up; an entry of the registry is either
    as it was, or it lies at one of the handles allocated in between and
    holds a record that carries this very handle; when the call returned
    ([complete]), every handle allocated in between has its entry.
    [grows_storing complete (Some h) d d'] is the same for the rest of a
    method that has allocated the handle [h] and is still to store a record
    under it. *)
Definition ref_handle (r : Ref) : option Z :=
  match r with
  | RUndefined | RNull => None
  | StringReference h _ => Some h
  | ClassDescReference h _ => Some h
  | ObjectReference h _ _ _ => Some h
  | ArrayReference h _ _ => Some h
  end.

Definition allocated_between (d d' : Decoder) (k : Z) : Prop :=
  handle d <= k < handle d'.

Definition holds_own_handle (d : Decoder) (k : Z) : Prop :=
  exists r, objectRegistry d !! k = Some r /\ ref_handle r = Some k.

Definition grows_storing (complete : bool) (pending : option Z)
    (d d' : Decoder) : Prop :=
  handle d <= handle d'
  /\ forall k,
      (objectRegistry d' !! k = objectRegistry d !! k
       /\ (complete = true ->
           ~ allocated_between d d' k /\ pending <> Some k))
      \/ ((allocated_between d d' k \/ pending = Some k)
          /\ holds_own_handle d' k).

(** A method keeps the discipline, whatever it returns or throws. *)
Definition keeps_storing {A} (pending : option Z) (m : M A) : Prop :=
  forall d,
    match m d with
    | Ok _ d' => grows_storing true pending d d'
    | Throw _ d' => grows_storing false pending d d'
    | OutOfFuel => True
    end.

Definition keeps {A} (m : M A) : Prop := keeps_storing None m.

(** *** Fuel

    [refines m1 m2]: where [m1] has fuel enough to give an outcome, [m2]
    gives the same. *)
Definition refines {A} (m1 m2 : M A) : Prop :=
  forall d, m1 d = OutOfFuel \/ m2 d = m1 d.

(** The handles of [n] allocations in a row from the base, in order. *)
Definition handles_from_base (n : nat) : list Z :=
  List.map (fun i => baseWireHandle + Z.of_nat i) (seq 0 n).

(** The handle that a back-reference at the cursor names. *)
Definition handle_at (s : ByteStream) : Z :=
  to_signed 32 (be_unsigned (bytes_at s 4)).

(** *** Notions of the further properties *)

(** The readers of a number of fixed width other than [readByte], each
    with the number of bytes it reads. *)
Definition fixed_width_readers
  : list ((ByteStream -> option Z * ByteStream) * nat) :=
  [(readShort, 2%nat); (readUShort, 2%nat); (readInt, 4%nat);
   (readUInt, 4%nat); (readLong, 8%nat); (readULong, 8%nat);
   (readFloat, 4%nat); (readDouble, 8%nat)].

(** The cursor is inside the buffer or at its end. *)
Definition in_buffer (s : ByteStream) : Prop :=
  0 <= position s <= ByteStream_length s.

(** The bytes from the cursor to the end of the buffer. *)
Definition remaining (s : ByteStream) : list byte :=
  drop (Z.to_nat (position s)) (bytes s).

(** The stream at the cursor starts with the bytes [l]. *)
Definition starts_with (s : ByteStream) (l : list byte) : Prop :=
  in_buffer s /\ take (length l) (remaining s) = l.

(** Text of the ASCII range. *)
Definition is_ascii (text : list byte) : Prop :=
  Forall (fun b => byte_val b < 128) text.

(** The wire form of a block of raw bytes, with the one-byte size of
    TC_BLOCKDATA and with the four-byte size of TC_BLOCKDATALONG, and of a
    short string. *)
Definition short_block (block : list byte) : list byte :=
  [x77] ++ be_bytes 1 (Z.of_nat (length block)) ++ block.

Definition long_block (block : list byte) : list byte :=
  [x7a] ++ be_bytes 4 (Z.of_nat (length block)) ++ block.

Definition string_record (text : list byte) : list byte :=
  [x74] ++ be_bytes 2 (Z.of_nat (length text)) ++ text.

(** A back-reference record to the handle [h]. *)
Definition reference_record (h : Z) : list byte := [x71] ++ be_bytes 4 h.

(** Every entry of the registry lies below the counter. *)
Definition keys_below_counter (d : Decoder) : Prop :=
  forall k, is_Some (objectRegistry d !! k) -> k < handle d.



(** The tags that [decodeObject] decodes. *)
Definition decodeObject_tc : list Z :=
  [TC_NULL; TC_REFERENCE; TC_CLASSDESC; TC_OBJECT; TC_STRING; TC_LONGSTRING;
   TC_ARRAY; TC_PROXYCLASSDESC].

(** The tags that [decodeClassDesc] decodes. *)
Definition decodeClassDesc_tc : list Z :=
  [TC_CLASSDESC; TC_PROXYCLASSDESC; TC_NULL; TC_REFERENCE].

(** The decoder as a call leaves it, when the call returns or throws. *)
Definition final_state {A} (o : outcome A) : option Decoder :=
  match o with
  | Ok _ d => Some d
  | Throw _ d => Some d
  | OutOfFuel => None
  end.

(** The 32-bit signed integer under the cursor. *)
Definition int32_at (s : ByteStream) : Z :=
  to_signed 32 (be_unsigned (bytes_at s 4)).

(** The name of the accessor of [Object.prototype]. *)
Definition proto_key : jsstring := jsstring_of_ascii "__proto__".

(** ** jsonize.ts: one record

    [entity.Blob] holds each byte of the stream as a signed 8-bit integer;
    [new Uint8Array(entity.Blob)] takes each integer modulo 256 (the
    elements are integers here; the file does not say what a blob with
    another number in it means).  The record kept for an entity is the
    first content that [decode] returns, [undefined] when there is none:
    [const [object] = decode(new ByteStream(blob))]. *)
Definition Uint8Array_of (blob : list Z) : list byte :=
  List.map (fun z => byte_of_Z (z mod 256)) blob.

Definition first_content (contents : list value) : value :=
  match contents with
  | [] => VUndefined
  | object :: _ => object
  end.

Definition record_of_entity (fuel : nat) (blob : list Z) : outcome value :=
  match decode fuel (new_ByteStream (Uint8Array_of blob)) with
  | Ok contents d => Ok (first_content contents) d
  | Throw e d => Throw e d
  | OutOfFuel => OutOfFuel
  end.

(** A byte as the signed 8-bit integer that Java and the blob have for
    it. *)
Definition signed_byte (b : byte) : Z := to_signed 8 (byte_val b).

(** The wire form of a length-prefixed text, of the descriptor of a
    primitive field, and of the descriptor of a class that has primitive
    fields only, no annotation and no superclass. *)
Definition utf_record (text : list byte) : list byte :=
  be_bytes 2 (Z.of_nat (length text)) ++ text.

Definition primitive_field_record (field : byte * list byte) : list byte :=
  [fst field] ++ utf_record (snd field).

Definition class_descriptor_record (name : list byte) (uid : Z) (flags : byte)
    (fields : list (byte * list byte)) : list byte :=
  [x72] ++ utf_record name ++ be_bytes 8 uid ++ [flags]
  ++ be_bytes 2 (Z.of_nat (length fields))
  ++ concat (List.map primitive_field_record fields) ++ [x78; x70].

(** The field descriptor that such a record describes. *)
Definition described_field (field : byte * list byte) : FieldDesc :=
  PrimitiveFieldDesc (byte_val (fst field)) (TextDecoder_decode (snd field)).

Definition primitive_field (field : byte * list byte) : Prop :=
  is_primitive_typecode (byte_val (fst field)) = true
  /\ Z.of_nat (length (snd field)) < 65536.

(** The bytes of an annotation: blocks of at most 255 bytes, one after the
    other, then the end marker. *)
Definition annotation_record (blocks : list (list byte)) : list byte :=
  concat (map short_block blocks) ++ [x78].







(** * Properties *)

(** ** Unfolding the methods *)

Lemma decodeObject_S fuel :
  decodeObject (S fuel) =
  (let* tc := on_input readByte in
   if tc =? TC_NULL then ret RNull
   else if tc =? TC_REFERENCE then decodeReference
   else if tc =? TC_CLASSDESC then decodeClassDesc fuel (Some tc)
   else if tc =? TC_OBJECT then decodeNewObject fuel
   else if tc =? TC_STRING then decodeNewString false
   else if tc =? TC_LONGSTRING then decodeNewString true
   else if tc =? TC_ARRAY then decodeNewArray fuel
   else if tc =? TC_PROXYCLASSDESC then decodeClassDesc fuel (Some tc)
   else let* pos := get_position in throw (UnknownTcAt pos tc)).
Proof. reflexivity. Qed.

Lemma decodeContent_S fuel :
  decodeContent (S fuel) =
  (let* tc := on_input peekByte in
   if tc =? TC_BLOCKDATA then
     run on_input readByte in
     let* size := on_input readByte in
     let* block := on_input (readBytes size) in
     ret (CBlock block)
   else if tc =? TC_BLOCKDATALONG then
     run on_input readByte in
     let* size := on_input readInt in
     let* block := on_input (readBytes size) in
     ret (CBlock block)
   else
     let* ref := decodeObject fuel in
     ret (CRef ref)).
Proof. reflexivity. Qed.

Lemma decodeClassDesc_S fuel tc :
  decodeClassDesc (S fuel) tc =
  (let* tc := match tc with
              | Some tc => ret tc
              | None => on_input readByte
              end in
   if tc =? TC_CLASSDESC then
     let* className := on_input readUTF in
     let* serialVersionUID := on_input readULong in
     let* h := nextHandle in
     let* classDescInfo := decodeClassDescInfo fuel in
     store h (ClassDescReference h
                (mkClassDesc className serialVersionUID classDescInfo))
   else if tc =? TC_PROXYCLASSDESC then throw NotImplemented
   else if tc =? TC_NULL then ret RNull
   else if tc =? TC_REFERENCE then decodeReference
   else throw (UnknownTc tc)).
Proof. reflexivity. Qed.

Lemma decodeNewObject_S fuel :
  decodeNewObject (S fuel) =
  (let* ref := decodeClassDesc fuel None in
   let* classDesc := lift_exn (get_classDesc ref) in
   let* h := nextHandle in
   match classDesc with
   | None => throw TypeError
   | Some classDesc =>
       let flags := classDescFlags (classDescInfo classDesc) in
       let* fields := lift_exn (allFieldsFromClassDesc classDesc) in
       let* data :=
         decodeClassData (decodeValues fuel) (decodeAnnotation fuel [])
           flags fields in
       finishNewObject h classDesc (fst data) (snd data)
   end).
Proof. reflexivity. Qed.

Lemma decodeNewArray_S fuel :
  decodeNewArray (S fuel) =
  (let* ref := decodeClassDesc fuel None in
   let* classDesc := lift_exn (get_classDesc ref) in
   let* h := nextHandle in
   let* size := on_input readInt in
   let* values := times (Z.to_nat size) (decodeObject fuel) in
   store h (ArrayReference h classDesc values)).
Proof. reflexivity. Qed.

Lemma decodeValues_S fuel field :
  decodeValues (S fuel) field =
  match field with
  | PrimitiveFieldDesc typecode _ => decodePrimitiveValue typecode
  | ArrayFieldDesc _ _ =>
      let* ref := decodeObject fuel in ret (simplifyReference ref)
  | ObjectFieldDesc _ _ =>
      let* ref := decodeObject fuel in ret (simplifyReference ref)
  end.
Proof. reflexivity. Qed.

Lemma decodeClassDescInfo_S fuel :
  decodeClassDescInfo (S fuel) =
  (let* classDescFlags := on_input readByte in
   let* fieldsCount := on_input readUShort in
   let* fields :=
     times (Z.to_nat fieldsCount) (decodeFieldDesc (decodeObject fuel)) in
   let* classAnnotation := decodeAnnotation fuel [] in
   let* superClassDesc := decodeClassDesc fuel None in
   ret (mkClassDescInfo classDescFlags fields classAnnotation superClassDesc)).
Proof. reflexivity. Qed.

Lemma decodeAnnotation_S fuel acc :
  decodeAnnotation (S fuel) acc =
  (let* tc := on_input peekByte in
   if negb (tc =? TC_ENDBLOCKDATA) then
     let* content := decodeContent fuel in
     decodeAnnotation fuel (acc ++ [content])
   else
     run on_input readByte in
     ret acc).
Proof. reflexivity. Qed.

Lemma decodeContents_S fuel contents :
  decodeContents (S fuel) contents =
  (let* at_end := get_eof in
   if negb at_end then
     let* content := decodeContent fuel in
     match content with
     | CBlock block => decodeContents fuel (contents ++ [VArrayBuffer block])
     | CRef ref => decodeContents fuel (contents ++ [simplifyReference ref])
     end
   else ret contents).
Proof. reflexivity. Qed.

(** ** Sample streams *)

(** A string, then a back-reference to it: the same text twice. *)
Example decode_hello_twice :
  result_of
    (decode 4
       (new_ByteStream
          (header x00 x05
           ++ [x74; x00; x05; x68; x65; x6c; x6c; x6f]
           ++ [x71; x00; x7e; x00; x00])))
  = Some (inr [VString (jsstring_of_ascii "hello");
               VString (jsstring_of_ascii "hello")]).
Proof. vm_compute. reflexivity. Qed.

(** The same block, short and long. *)
Example decode_block_short_and_long :
  result_of (decode 3 (new_ByteStream (header x00 x05 ++ [x77; x02; xaa; xbb])))
  = Some (inr [VArrayBuffer [xaa; xbb]])
  /\ result_of
       (decode 3
          (new_ByteStream
             (header x00 x05 ++ [x7a; x00; x00; x00; x02; xaa; xbb])))
     = Some (inr [VArrayBuffer [xaa; xbb]]).
Proof. split; vm_compute; reflexivity. Qed.

(** An object of a class "P" with one long field "id", whose value 2^53 + 1
    no double holds. *)
Example decode_object_with_long_field :
  result_of
    (decode 8
       (new_ByteStream
          (header x00 x05
           ++ [x73; x72; x00; x01; x50;
               x00; x00; x00; x00; x00; x00; x00; x01;
               x02; x00; x01; x4a; x00; x02; x69; x64; x78; x70]
           ++ [x00; x20; x00; x00; x00; x00; x00; x01])))
  = Some (inr [VRecord [(jsstring_of_ascii "id", VBigInt 9007199254740993)]]).
Proof. vm_compute. reflexivity. Qed.

(** An array of two elements, a string and null, of a class "[L" without
    fields. *)
Example decode_array :
  result_of
    (decode 8
       (new_ByteStream
          (header x00 x05
           ++ [x75; x72; x00; x02; x5b; x4c;
               x00; x00; x00; x00; x00; x00; x00; x02;
               x02; x00; x00; x78; x70]
           ++ [x00; x00; x00; x02; x74; x00; x01; x61; x70])))
  = Some (inr [VArray [VString (jsstring_of_ascii "a"); VNull]]).
Proof. vm_compute. reflexivity. Qed.

(** A truncated stream: the read past the end throws. *)
Example decode_truncated :
  result_of (decode 4 (new_ByteStream (header x00 x05 ++ [x74; x00])))
  = Some (inl RangeError).
Proof. vm_compute. reflexivity. Qed.

(** ** The null object (C9) *)

(** C9.  A buffer made of the header (the magic number and the version 5)
    and one null tag decodes, with any fuel from three on, to the sequence
    of exactly one element, the null value. *)
Theorem decode_header_null (fuel : nat) :
  result_of (decode (3 + fuel) (new_ByteStream (header x00 x05 ++ [x70])))
  = Some (inr [VNull]).
Proof. reflexivity. Qed.

(** ** Bytes and integers *)

Lemma byte_val_range b : 0 <= byte_val b < 256.
Proof.
  unfold byte_val. pose proof (Byte.to_N_bounded b) as H.
  split; [apply N2Z.is_nonneg | ].
  apply N2Z.inj_le in H. change (Z.of_N 255) with 255 in H. lia.
Qed.

Lemma byte_of_val b : byte_of_Z (byte_val b) = b.
Proof.
  unfold byte_of_Z, byte_val. rewrite N2Z.id, Byte.of_to_N. reflexivity.
Qed.

Lemma byte_val_inj a b : byte_val a = byte_val b -> a = b.
Proof.
  intros H. rewrite <- (byte_of_val a), <- (byte_of_val b), H. reflexivity.
Qed.

Lemma be_unsigned_snoc l b :
  be_unsigned (l ++ [b]) = be_unsigned l * 256 + byte_val b.
Proof. unfold be_unsigned. rewrite fold_left_app. reflexivity. Qed.

Lemma be_unsigned_range l : 0 <= be_unsigned l < 256 ^ Z.of_nat (length l).
Proof.
  induction l as [| b l IH] using rev_ind; [cbn; lia | ].
  rewrite be_unsigned_snoc, length_app, Nat2Z.inj_add, Z.pow_add_r by lia.
  cbn [length]. change (256 ^ Z.of_nat 1) with 256.
  pose proof (byte_val_range b). nia.
Qed.

(** Writing back what was read gives the bytes read: the unsigned value of
    a run of bytes determines the run. *)
Lemma be_bytes_unsigned l : be_bytes (length l) (be_unsigned l) = l.
Proof.
  induction l as [| b l IH] using rev_ind; [reflexivity | ].
  rewrite length_app, Nat.add_comm. cbn [length Nat.add be_bytes].
  rewrite be_unsigned_snoc.
  pose proof (byte_val_range b).
  replace ((be_unsigned l * 256 + byte_val b) / 256) with (be_unsigned l)
    by (apply Z.div_unique with (byte_val b); lia).
  replace ((be_unsigned l * 256 + byte_val b) mod 256) with (byte_val b)
    by (apply Z.mod_unique with (be_unsigned l); lia).
  rewrite IH, byte_of_val. reflexivity.
Qed.

Lemma be_unsigned_two b0 b1 :
  be_unsigned [b0; b1] = STREAM_MAGIC -> b0 = xac /\ b1 = xed.
Proof.
  unfold be_unsigned, STREAM_MAGIC. cbn [fold_left]. intros H.
  pose proof (byte_val_range b0). pose proof (byte_val_range b1).
  split; apply byte_val_inj.
  - change (byte_val xac) with 172. lia.
  - change (byte_val xed) with 237. lia.
Qed.

(** ** Reads that succeed *)

Lemma getUint_available s n :
  available s n -> getUint n (bytes s) (position s) = Some (be_unsigned (bytes_at s n)).
Proof.
  intros [H0 H1]. unfold getUint, ByteStream_length in *.
  replace (_ || _) with false; [reflexivity | ].
  symmetry. apply orb_false_iff. split; [apply Z.ltb_ge | apply Z.ltb_ge]; lia.
Qed.

Lemma getUint_Some n buf pos v :
  getUint n buf pos = Some v ->
  available (mkByteStream buf pos) n
  /\ v = be_unsigned (bytes_at (mkByteStream buf pos) n).
Proof.
  unfold getUint, available, ByteStream_length, bytes_at. cbn [bytes position].
  destruct (_ || _) eqn:E; [discriminate | ].
  apply orb_false_iff in E. destruct E as [E1 E2].
  apply Z.ltb_ge in E1, E2. intros [= <-]. auto.
Qed.

Lemma bytes_at_length s n : available s n -> length (bytes_at s n) = n.
Proof.
  intros [H0 H1]. unfold bytes_at, ByteStream_length in *.
  rewrite length_take, length_drop. lia.
Qed.

Lemma on_input_readUShort d :
  available (input d) 2 ->
  on_input readUShort d
  = Ok (be_unsigned (bytes_at (input d) 2)) (with_input d (advance (input d) 2)).
Proof.
  intros H. unfold on_input, readUShort. rewrite (getUint_available _ _ H).
  reflexivity.
Qed.

Lemma on_input_readByte d :
  available (input d) 1 ->
  on_input readByte d
  = Ok (be_unsigned (bytes_at (input d) 1)) (with_input d (advance (input d) 1)).
Proof.
  intros H. unfold on_input, readByte. rewrite (getUint_available _ _ H).
  reflexivity.
Qed.

Lemma on_input_peekByte d :
  available (input d) 1 ->
  on_input peekByte d
  = Ok (be_unsigned (bytes_at (input d) 1)) (with_input d (input d)).
Proof.
  intros H. unfold on_input, peekByte. rewrite (getUint_available _ _ H).
  reflexivity.
Qed.

Lemma on_input_readInt d :
  available (input d) 4 ->
  on_input readInt d
  = Ok (to_signed 32 (be_unsigned (bytes_at (input d) 4)))
       (with_input d (advance (input d) 4)).
Proof.
  intros H. unfold on_input, readInt, getInt. rewrite (getUint_available _ _ H).
  reflexivity.
Qed.

Lemma on_input_readLong d :
  available (input d) 8 ->
  on_input readLong d
  = Ok (to_signed 64 (be_unsigned (bytes_at (input d) 8)))
       (with_input d (advance (input d) 8)).
Proof.
  intros H. unfold on_input, readLong, getInt. rewrite (getUint_available _ _ H).
  reflexivity.
Qed.

Lemma on_input_readULong d :
  available (input d) 8 ->
  on_input readULong d
  = Ok (be_unsigned (bytes_at (input d) 8)) (with_input d (advance (input d) 8)).
Proof.
  intros H. unfold on_input, readULong. rewrite (getUint_available _ _ H).
  reflexivity.
Qed.

Lemma with_input_input d : with_input d (input d) = d.
Proof. destruct d; reflexivity. Qed.

Lemma bind_Ok {A B} (m : M A) (k : A -> M B) d a d' :
  m d = Ok a d' -> bind m k d = k a d'.
Proof. unfold bind. intros ->. reflexivity. Qed.

Lemma bind_Throw {A B} (m : M A) (k : A -> M B) d e d' :
  m d = Throw e d' -> bind m k d = Throw e d'.
Proof. unfold bind. intros ->. reflexivity. Qed.

Lemma bind_ret {A B} (a : A) (k : A -> M B) d : bind (ret a) k d = k a d.
Proof. reflexivity. Qed.

Lemma bind_throw {A B} (e : exn) (k : A -> M B) d :
  bind (throw e) k d = Throw e d.
Proof. reflexivity. Qed.

Lemma bind_nextHandle {B} (k : Z -> M B) d :
  bind nextHandle k d = k (handle d) (allocated d).
Proof. reflexivity. Qed.

(** Proof steps: [avail] proves that bytes are available at a cursor of
    which the position is known; [read_ok lem] rewrites the first read of
    the goal with the lemma [lem] of the reader. *)
Ltac avail :=
  unfold available, ByteStream_length;
  cbn [input bytes position new_Decoder new_ByteStream with_input advance
       header app length];
  lia.

Ltac read_ok lem :=
  erewrite bind_Ok; [ | apply lem; avail];
  cbn [input bytes position new_Decoder new_ByteStream with_input advance
       handle objectRegistry].

(** ** The header (C7) *)

Lemma Decoder_decode_header fuel v0 v1 rest :
  decode fuel (new_ByteStream (header v0 v1 ++ rest))
  = decodeContents fuel []
      (new_Decoder (mkByteStream (header v0 v1 ++ rest) 4)).
Proof.
  unfold decode, Decoder_decode.
  read_ok on_input_readUShort.
  change (negb (_ =? STREAM_MAGIC)) with false. cbv iota.
  read_ok on_input_readUShort.
  reflexivity.
Qed.

(** C7.  A buffer whose first two bytes are not the magic number makes
    [decode] throw the magic-number error, whatever the fuel, with the
    cursor just after these two bytes and nothing else changed.  The
    version field is read and compared to nothing: after the magic number
    and any two version bytes the decoder is at the contents, and with one
    null tag as contents the decode returns whatever the version is. *)
Theorem decode_magic_and_version :
  (forall fuel b0 b1 rest,
      (b0, b1) <> (xac, xed) ->
      decode fuel (new_ByteStream (b0 :: b1 :: rest))
      = Throw MagicMismatch (new_Decoder (mkByteStream (b0 :: b1 :: rest) 2)))
  /\ (forall fuel v0 v1 rest,
         decode fuel (new_ByteStream (header v0 v1 ++ rest))
         = decodeContents fuel []
             (new_Decoder (mkByteStream (header v0 v1 ++ rest) 4)))
  /\ (forall fuel v0 v1,
         result_of (decode (3 + fuel) (new_ByteStream (header v0 v1 ++ [x70])))
         = Some (inr [VNull])).
Proof.
  split; [ | split; [apply Decoder_decode_header | reflexivity]].
  intros fuel b0 b1 rest Hne.
  unfold decode, Decoder_decode.
  read_ok on_input_readUShort.
  change (bytes_at _ 2) with [b0; b1].
  destruct (be_unsigned [b0; b1] =? STREAM_MAGIC) eqn:E.
  - apply Z.eqb_eq, be_unsigned_two in E. destruct E; subst. congruence.
  - reflexivity.
Qed.

Lemma decode_magic_and_version_witness :
  decode 0 (new_ByteStream [xac; xee; x00; x05; x70])
  = Throw MagicMismatch (new_Decoder (mkByteStream [xac; xee; x00; x05; x70] 2)).
Proof.
  apply (proj1 decode_magic_and_version 0%nat xac xee [x00; x05; x70]).
  discriminate.
Defined.

Lemma decodeContents_more fuel contents d :
  eof (input d) = false ->
  decodeContents (S fuel) contents d
  = (let* content := decodeContent fuel in
     match content with
     | CBlock block => decodeContents fuel (contents ++ [VArrayBuffer block])
     | CRef ref => decodeContents fuel (contents ++ [simplifyReference ref])
     end) d.
Proof.
  intros H. rewrite decodeContents_S. unfold bind at 1, get_eof.
  rewrite H. reflexivity.
Qed.

Lemma decodeContents_eof fuel contents d :
  eof (input d) = true -> decodeContents (S fuel) contents d = Ok contents d.
Proof.
  intros H. rewrite decodeContents_S. unfold bind at 1, get_eof.
  rewrite H. reflexivity.
Qed.

(** ** Back-references (C1, C2) *)

Lemma advance_advance s n m : advance (advance s n) m = advance s (n + m).
Proof. unfold advance. cbn [bytes position]. f_equal. lia. Qed.

Lemma available_advance s n m :
  available s (n + m) -> available (advance s (Z.of_nat n)) m.
Proof. unfold available, ByteStream_length, advance. cbn [bytes position]. lia. Qed.

Lemma available_le s n m : (m <= n)%nat -> available s n -> available s m.
Proof. unfold available. lia. Qed.

Lemma decodeReference_available d :
  available (input d) 4 ->
  decodeReference d
  = Ok (default RUndefined (objectRegistry d !! handle_at (input d)))
       (with_input d (advance (input d) 4)).
Proof.
  intros H. unfold decodeReference.
  rewrite (bind_Ok _ _ _ _ _ (on_input_readInt d H)). reflexivity.
Qed.

Lemma decodeObject_reference fuel d :
  available (input d) 5 ->
  bytes_at (input d) 1 = [x71] ->
  decodeObject (S fuel) d
  = Ok (default RUndefined
          (objectRegistry d !! handle_at (advance (input d) 1)))
       (with_input d (advance (input d) 5)).
Proof.
  intros H Htag. rewrite decodeObject_S.
  rewrite (bind_Ok _ _ _ _ _
             (on_input_readByte d (available_le _ 5 1 ltac:(lia) H))).
  rewrite Htag. change (be_unsigned [x71]) with TC_REFERENCE. cbv beta.
  change (TC_REFERENCE =? TC_NULL) with false.
  change (TC_REFERENCE =? TC_REFERENCE) with true. cbv iota.
  rewrite decodeReference_available
    by (apply (available_advance _ 1 4); exact H).
  cbn [with_input input objectRegistry handle].
  rewrite advance_advance. reflexivity.
Qed.

(** C1, as the code has it.  There is no dangling-reference error: a
    back-reference whose handle has no entry in the registry makes
    [decodeObject] return [undefined], with the five bytes of the record
    consumed and nothing else changed; and a stream whose first record
    is a back-reference, whatever its handle, decodes to the one-element
    sequence holding [undefined]. *)
Theorem dangling_reference_is_undefined :
  (forall fuel d,
      available (input d) 5 ->
      bytes_at (input d) 1 = [x71] ->
      objectRegistry d !! handle_at (advance (input d) 1) = None ->
      decodeObject (S fuel) d
      = Ok RUndefined (with_input d (advance (input d) 5)))
  /\ (forall fuel b0 b1 b2 b3,
         result_of (decode (3 + fuel)
                      (new_ByteStream (header x00 x05 ++ [x71; b0; b1; b2; b3])))
         = Some (inr [VUndefined])).
Proof.
  split.
  - intros fuel d H Htag Hnone.
    rewrite (decodeObject_reference fuel d H Htag), Hnone. reflexivity.
  - intros fuel b0 b1 b2 b3. reflexivity.
Qed.

Lemma dangling_reference_is_undefined_witness :
  decodeObject 1 (new_Decoder (mkByteStream [x71; x00; x7e; x00; x00] 0))
  = Ok RUndefined (new_Decoder (mkByteStream [x71; x00; x7e; x00; x00] 5)).
Proof.
  apply (proj1 dangling_reference_is_undefined 0%nat
           (new_Decoder (mkByteStream [x71; x00; x7e; x00; x00] 0))).
  - unfold available, ByteStream_length. cbn. lia.
  - reflexivity.
  - reflexivity.
Defined.

(** The claim C1 fails on the stream that holds a header and a
    back-reference to the first handle: nothing was stored under it, and
    the decode returns (with [undefined] as its only element); no fuel
    makes it throw. *)
Lemma dangling_reference_does_not_fail :
  let input := new_ByteStream (header x00 x05 ++ [x71; x00; x7e; x00; x00]) in
  objectRegistry (new_Decoder input) !! 0x7E0000 = None
  /\ result_of (decode 3 input) = Some (inr [VUndefined])
  /\ forall fuel, ~ fails (decode fuel input).
Proof.
  cbv zeta. split; [reflexivity | split; [reflexivity | ]].
  intros fuel (e & d & H).
  destruct fuel as [| [| [| fuel]]]; discriminate H.
Qed.

Lemma decodeClassDesc_reference fuel d :
  available (input d) 5 ->
  bytes_at (input d) 1 = [x71] ->
  decodeClassDesc (S fuel) None d
  = Ok (default RUndefined
          (objectRegistry d !! handle_at (advance (input d) 1)))
       (with_input d (advance (input d) 5)).
Proof.
  intros H Htag. rewrite decodeClassDesc_S.
  rewrite (bind_Ok _ _ _ _ _
             (on_input_readByte d (available_le _ 5 1 ltac:(lia) H))).
  rewrite Htag. change (be_unsigned [x71]) with TC_REFERENCE. cbv beta.
  change (TC_REFERENCE =? TC_CLASSDESC) with false.
  change (TC_REFERENCE =? TC_PROXYCLASSDESC) with false.
  change (TC_REFERENCE =? TC_NULL) with false.
  change (TC_REFERENCE =? TC_REFERENCE) with true. cbv iota.
  rewrite decodeReference_available
    by (apply (available_advance _ 1 4); exact H).
  cbn [with_input input objectRegistry handle].
  rewrite advance_advance. reflexivity.
Qed.

(** C2, as the code has it.  In a class-descriptor position a
    back-reference makes [decodeClassDesc] return the record that the
    registry holds for the handle, of whatever kind: the cast to a
    class-descriptor reference checks nothing. *)
Theorem decodeClassDesc_reference_unchecked fuel d (ref : Ref) :
  available (input d) 5 ->
  bytes_at (input d) 1 = [x71] ->
  objectRegistry d !! handle_at (advance (input d) 1) = Some ref ->
  decodeClassDesc (S fuel) None d
  = Ok ref (with_input d (advance (input d) 5)).
Proof.
  intros H Htag Hsome.
  rewrite (decodeClassDesc_reference fuel d H Htag), Hsome. reflexivity.
Qed.

Lemma decodeClassDesc_reference_unchecked_witness :
  let registry : gmap Z Ref := {[ 0x7E0000 := StringReference 0x7E0000 [97] ]} in
  decodeClassDesc 1 None
    (mkDecoder (mkByteStream [x71; x00; x7e; x00; x00] 0) 0x7E0001 registry)
  = Ok (StringReference 0x7E0000 [97])
       (mkDecoder (mkByteStream [x71; x00; x7e; x00; x00] 5) 0x7E0001 registry).
Proof.
  cbv zeta.
  refine (decodeClassDesc_reference_unchecked 0%nat
            (mkDecoder (mkByteStream [x71; x00; x7e; x00; x00] 0) 0x7E0001
               {[ 0x7E0000 := StringReference 0x7E0000 [97] ]})
            (StringReference 0x7E0000 [97]) _ _ _).
  - unfold available, ByteStream_length. cbn. lia.
  - reflexivity.
  - reflexivity.
Defined.

(** The claim C2 fails on the stream that holds the string "a" and then a
    class descriptor "C" whose superclass is a back-reference to that
    string: the decode returns, and the string record sits in the
    descriptor as its superclass descriptor.  The call of [decodeClassDesc]
    that read the back-reference returned the string record. *)
Lemma decodeClassDesc_returns_string_reference :
  let str := StringReference 0x7E0000 [97] in
  let registry : gmap Z Ref := {[ 0x7E0000 := str ]} in
  let super := mkByteStream [x71; x00; x7e; x00; x00] 0 in
  result_of
    (decode 7
       (new_ByteStream
          (header x00 x05
           ++ [x74; x00; x01; x61]
           ++ [x72; x00; x01; x43;
               x00; x00; x00; x00; x00; x00; x00; x00;
               x02; x00; x00; x78;
               x71; x00; x7e; x00; x00])))
  = Some (inr [VString [97];
               VClassDescReference 0x7E0001
                 (mkClassDesc [67] 0 (mkClassDescInfo 2 [] [] str))])
  /\ result_of (decodeClassDesc 1 None (mkDecoder super 0x7E0001 registry))
     = Some (inr str)
  /\ ~ fails (decodeClassDesc 1 None (mkDecoder super 0x7E0001 registry)).
Proof.
  cbv zeta. split; [vm_compute; reflexivity | split; [reflexivity | ]].
  intros (e & d & H). discriminate H.
Qed.

(** ** Unsupported records (C8) *)

Lemma fails_Throw {A} (e : exn) d : fails (@Throw A e d).
Proof. exists e, d. reflexivity. Qed.

Lemma fails_bind {A B} (m : M A) (k : A -> M B) d :
  fails (m d) -> fails (bind m k d).
Proof. intros (e & d' & H). unfold bind. rewrite H. apply fails_Throw. Qed.

Lemma tag_at_eof s tc : tag_at s tc -> eof s = false.
Proof. intros [[H0 H1] _]. unfold eof. apply Z.leb_gt. lia. Qed.

(** The four tags that [decodeObject] only logs. *)
Lemma decodeObject_logged_tag fuel d tc :
  tag_at (input d) tc ->
  In tc [TC_CLASS; TC_EXCEPTION; TC_ENUM; TC_RESET] ->
  decodeObject (S fuel) d
  = Throw (UnknownTcAt (position (input d) + 1) tc)
      (with_input d (advance (input d) 1)).
Proof.
  intros [H Htc] Hin. rewrite decodeObject_S.
  rewrite (bind_Ok _ _ _ _ _ (on_input_readByte d H)), Htc.
  cbn [In] in Hin. destruct Hin as [<- | [<- | [<- | [<- | []]]]]; reflexivity.
Qed.

Lemma decodeObject_long_string fuel d :
  tag_at (input d) TC_LONGSTRING ->
  decodeObject (S fuel) d
  = Throw NotImplementedLongString
      (mkDecoder (advance (input d) 1) (handle d + 1) (objectRegistry d)).
Proof.
  intros [H Htc]. rewrite decodeObject_S.
  rewrite (bind_Ok _ _ _ _ _ (on_input_readByte d H)), Htc. reflexivity.
Qed.

Lemma decodeObject_proxy fuel d :
  tag_at (input d) TC_PROXYCLASSDESC ->
  decodeObject (S (S fuel)) d
  = Throw NotImplemented (with_input d (advance (input d) 1)).
Proof.
  intros [H Htc]. rewrite decodeObject_S.
  rewrite (bind_Ok _ _ _ _ _ (on_input_readByte d H)), Htc. reflexivity.
Qed.

Lemma decodeClassDesc_proxy fuel d :
  tag_at (input d) TC_PROXYCLASSDESC ->
  decodeClassDesc (S fuel) None d
  = Throw NotImplemented (with_input d (advance (input d) 1)).
Proof.
  intros [H Htc]. rewrite decodeClassDesc_S.
  rewrite (bind_Ok _ _ _ _ _ (on_input_readByte d H)), Htc. reflexivity.
Qed.

Lemma decodeClassDesc_unsupported fuel d tc :
  tag_at (input d) tc -> In tc unsupported_tc ->
  fails (decodeClassDesc (1 + fuel) None d).
Proof.
  intros [H Htc] Hin. change (1 + fuel)%nat with (S fuel).
  rewrite decodeClassDesc_S.
  rewrite (bind_Ok _ _ _ _ _ (on_input_readByte d H)), Htc.
  unfold unsupported_tc in Hin. cbn [In] in Hin.
  destruct Hin as [<- | [<- | [<- | [<- | [<- | [<- | []]]]]]];
    apply fails_Throw.
Qed.

Lemma decodeObject_unsupported fuel d tc :
  tag_at (input d) tc -> In tc unsupported_tc ->
  fails (decodeObject (2 + fuel) d).
Proof.
  intros H Hin. change (2 + fuel)%nat with (S (S fuel)).
  unfold unsupported_tc in Hin. cbn [In] in Hin.
  destruct Hin as [<- | [<- | [<- | [<- | [<- | [<- | []]]]]]].
  1-4: rewrite (decodeObject_logged_tag _ d _ H) by (cbn; tauto);
       apply fails_Throw.
  - rewrite (decodeObject_long_string _ d H). apply fails_Throw.
  - rewrite (decodeObject_proxy _ d H). apply fails_Throw.
Qed.

Lemma decodeContent_unsupported fuel d tc :
  tag_at (input d) tc -> In tc unsupported_tc ->
  fails (decodeContent (3 + fuel) d).
Proof.
  intros H Hin. change (3 + fuel)%nat with (S (2 + fuel)).
  rewrite decodeContent_S.
  rewrite (bind_Ok _ _ _ _ _ (on_input_peekByte d (proj1 H))), (proj2 H).
  rewrite with_input_input.
  assert (Hobj : fails (decodeObject (2 + fuel) d))
    by (eapply decodeObject_unsupported; eauto).
  unfold unsupported_tc in Hin. cbn [In] in Hin.
  destruct Hin as [<- | [<- | [<- | [<- | [<- | [<- | []]]]]]];
    apply fails_bind, Hobj.
Qed.

Lemma decodeContents_unsupported fuel contents d tc :
  tag_at (input d) tc -> In tc unsupported_tc ->
  fails (decodeContents (4 + fuel) contents d).
Proof.
  intros H Hin. change (4 + fuel)%nat with (S (3 + fuel)).
  rewrite decodeContents_more by (eapply tag_at_eof; eauto).
  apply fails_bind. eapply decodeContent_unsupported; eauto.
Qed.

(** The object of a class whose descriptor has the externalizable flag and
    not the serializable one. *)
Lemma decodeNewObject_externalizable fuel d ref d1 cd :
  decodeClassDesc fuel None d = Ok ref d1 ->
  get_classDesc ref = inr (Some cd) ->
  Z.land (classDescFlags (classDescInfo cd)) SC_SERIALIZABLE = 0 ->
  Z.land (classDescFlags (classDescInfo cd)) SC_EXTERNALIZABLE <> 0 ->
  fails (decodeNewObject (S fuel) d)
  /\ (forall fs, allFieldsFromClassDesc cd = inr fs ->
        decodeNewObject (S fuel) d
        = Throw UnsupportExternalizable
            (mkDecoder (input d1) (handle d1 + 1) (objectRegistry d1))).
Proof.
  intros Hcd Hget Hser Hext. rewrite decodeNewObject_S.
  rewrite (bind_Ok _ _ _ _ _ Hcd), Hget.
  cbn [lift_exn]. rewrite bind_ret, bind_nextHandle.
  assert (Hdata : forall fs dv da d',
             decodeClassData dv da (classDescFlags (classDescInfo cd)) fs d'
             = Throw UnsupportExternalizable d').
  { intros. unfold decodeClassData. rewrite Hser.
    apply Z.eqb_neq in Hext. rewrite Hext. reflexivity. }
  destruct (allFieldsFromClassDesc cd) as [e | fs] eqn:Hall.
  - split; [ | discriminate]. cbn [lift_exn]. apply fails_Throw.
  - cbn [lift_exn]. rewrite bind_ret.
    rewrite (bind_Throw _ _ _ _ _ (Hdata _ _ _ _)).
    split; [apply fails_Throw | ]. intros ? _. reflexivity.
Qed.

(** C8.  Each record that the decoder does not support makes the decode
    throw: a raw-class, exception, enum, stream-reset, long-string or proxy
    class-descriptor tag where an object is decoded, at any depth of the
    calls and so in the loop of [decode], with the contents decoded so far
    given up; any of these tags where a class descriptor is decoded; the
    data of an object whose class descriptor is externalizable (the
    externalizable flag set, the serializable flag clear); and so every
    stream whose first record starts with one of the six tags. *)
Theorem unsupported_records_throw :
  (forall fuel d tc,
      tag_at (input d) tc -> In tc unsupported_tc ->
      fails (decodeObject (2 + fuel) d)
      /\ fails (decodeContent (3 + fuel) d)
      /\ forall contents, fails (decodeContents (4 + fuel) contents d))
  /\ (forall fuel d tc,
         tag_at (input d) tc -> In tc unsupported_tc ->
         fails (decodeClassDesc (1 + fuel) None d))
  /\ (forall fuel d ref d1 cd,
         decodeClassDesc fuel None d = Ok ref d1 ->
         get_classDesc ref = inr (Some cd) ->
         Z.land (classDescFlags (classDescInfo cd)) SC_SERIALIZABLE = 0 ->
         Z.land (classDescFlags (classDescInfo cd)) SC_EXTERNALIZABLE <> 0 ->
         fails (decodeNewObject (S fuel) d))
  /\ (forall fuel b rest,
         In (byte_val b) unsupported_tc ->
         fails (decode (4 + fuel) (new_ByteStream (header x00 x05 ++ b :: rest)))).
Proof.
  split; [ | split; [ | split]].
  - intros fuel d tc H Hin. split; [ | split; [ | intros contents]].
    + eapply decodeObject_unsupported; eauto.
    + eapply decodeContent_unsupported; eauto.
    + eapply decodeContents_unsupported; eauto.
  - intros fuel d tc H Hin. eapply decodeClassDesc_unsupported; eauto.
  - intros fuel d ref d1 cd Hcd Hget Hser Hext.
    apply (decodeNewObject_externalizable fuel d ref d1 cd Hcd Hget Hser Hext).
  - intros fuel b rest Hin. rewrite Decoder_decode_header.
    eapply decodeContents_unsupported; [ | exact Hin].
    split; [avail | reflexivity].
Qed.

Lemma unsupported_records_throw_witness :
  fails (decodeObject 2 (new_Decoder (mkByteStream [x7c; x00] 0)))
  /\ fails (decodeClassDesc 1 None (new_Decoder (mkByteStream [x7d; x00] 0)))
  /\ fails (decode 4 (new_ByteStream (header x00 x05 ++ [x7e; x00])))
  /\ fails (decodeNewObject 4
              (new_Decoder
                 (mkByteStream
                    [x72; x00; x01; x43;
                     x00; x00; x00; x00; x00; x00; x00; x01;
                     x04; x00; x00; x78; x70] 0))).
Proof.
  assert (Htag : forall b rest,
             tag_at (input (new_Decoder (mkByteStream (b :: rest) 0)))
               (byte_val b)).
  { intros b rest. split; [ | apply Z.add_0_l].
    unfold available, ByteStream_length. cbn. lia. }
  split; [ | split; [ | split]].
  - apply (proj1 (proj1 unsupported_records_throw 0%nat _ TC_LONGSTRING
                    (Htag x7c [x00]) ltac:(cbn; tauto))).
  - apply (proj1 (proj2 unsupported_records_throw) 0%nat _ TC_PROXYCLASSDESC
             (Htag x7d [x00]) ltac:(cbn; tauto)).
  - apply (proj2 (proj2 (proj2 unsupported_records_throw)) 0%nat x7e [x00]).
    cbn. tauto.
  - refine (proj1 (proj2 (proj2 unsupported_records_throw)) 3%nat _
              (ClassDescReference 0x7E0000
                 (mkClassDesc [67] 1 (mkClassDescInfo 4 [] [] RNull)))
              _ _ _ _ _ _).
    + vm_compute. reflexivity.
    + reflexivity.
    + reflexivity.
    + discriminate.
Defined.

(** ** Objects without class data (C10) *)

Lemma decodeNewObject_classDesc fuel d ref d1 cd fs :
  decodeClassDesc fuel None d = Ok ref d1 ->
  get_classDesc ref = inr (Some cd) ->
  allFieldsFromClassDesc cd = inr fs ->
  decodeNewObject (S fuel) d
  = (let* data :=
       decodeClassData (decodeValues fuel) (decodeAnnotation fuel [])
         (classDescFlags (classDescInfo cd)) fs in
     finishNewObject (handle d1) cd (fst data) (snd data)) (allocated d1).
Proof.
  intros Hcd Hget Hall. rewrite decodeNewObject_S.
  rewrite (bind_Ok _ _ _ _ _ Hcd), Hget.
  cbn [lift_exn]. rewrite bind_ret, bind_nextHandle.
  rewrite Hall. cbn [lift_exn]. rewrite bind_ret. reflexivity.
Qed.

(** C10, as the code has it.  When the class descriptor of a new object
    has neither the serializable nor the externalizable flag, its
    superclass chain can be flattened and its class name is not
    [java.util.Date], [decodeNewObject] reads nothing after the class
    descriptor, and returns and registers, under the handle it allocates,
    an object record with an empty field map and an empty annotation
    list. *)
Theorem decodeNewObject_no_class_data fuel d ref d1 cd fs :
  decodeClassDesc fuel None d = Ok ref d1 ->
  get_classDesc ref = inr (Some cd) ->
  Z.land (classDescFlags (classDescInfo cd)) SC_SERIALIZABLE = 0 ->
  Z.land (classDescFlags (classDescInfo cd)) SC_EXTERNALIZABLE = 0 ->
  allFieldsFromClassDesc cd = inr fs ->
  className cd <> java_util_Date ->
  let obj := ObjectReference (handle d1) cd [] [] in
  decodeNewObject (S fuel) d = Ok obj (stored (handle d1) obj (allocated d1))
  /\ input (stored (handle d1) obj (allocated d1)) = input d1
  /\ objectRegistry (stored (handle d1) obj (allocated d1)) !! handle d1 = Some obj.
Proof.
  intros Hcd Hget Hser Hext Hall Hname obj.
  split; [ | split; [reflexivity | apply lookup_insert_eq]].
  rewrite (decodeNewObject_classDesc fuel d ref d1 cd fs Hcd Hget Hall).
  unfold decodeClassData. rewrite Hser, Hext. cbn [Z.eqb negb].
  rewrite bind_ret. cbn [fst snd]. unfold finishNewObject, jsstring_eqb.
  rewrite bool_decide_eq_false_2 by exact Hname. reflexivity.
Qed.

Lemma decodeNewObject_no_class_data_witness :
  let s := [x72; x00; x01; x43;
            x00; x00; x00; x00; x00; x00; x00; x01;
            x00; x00; x00; x78; x70] in
  let cd := mkClassDesc [67] 1 (mkClassDescInfo 0 [] [] RNull) in
  let d1 := stored 0x7E0000 (ClassDescReference 0x7E0000 cd)
              (allocated (new_Decoder (mkByteStream s 17))) in
  decodeNewObject 4 (new_Decoder (mkByteStream s 0))
  = Ok (ObjectReference 0x7E0001 cd [] [])
       (stored 0x7E0001 (ObjectReference 0x7E0001 cd [] []) (allocated d1)).
Proof.
  cbv zeta.
  refine (proj1 (decodeNewObject_no_class_data 3%nat _
                   (ClassDescReference 0x7E0000
                      (mkClassDesc [67] 1 (mkClassDescInfo 0 [] [] RNull)))
                   (stored 0x7E0000
                      (ClassDescReference 0x7E0000
                         (mkClassDesc [67] 1 (mkClassDescInfo 0 [] [] RNull)))
                      (allocated (new_Decoder (mkByteStream _ 17))))
                   (mkClassDesc [67] 1 (mkClassDescInfo 0 [] [] RNull))
                   [] _ _ _ _ _ _)).
  - vm_compute. reflexivity.
  - reflexivity.
  - reflexivity.
  - reflexivity.
  - reflexivity.
  - discriminate.
Defined.

(** The claim C10 fails on a new object of the class [java.util.Date]
    whose descriptor has the flags byte 0: [decodeNewObject] throws a
    [TypeError], for want of an annotation to read the time from.  It
    fails as well when the superclass of the descriptor is not a class
    descriptor (here a back-reference to a string). *)
Lemma decodeNewObject_without_flags_throws :
  let date_object :=
    [x73; x72; x00; x0e;
     x6a; x61; x76; x61; x2e; x75; x74; x69; x6c; x2e; x44; x61; x74; x65;
     x68; x6a; x81; x01; x4b; x59; x74; x19;
     x00; x00; x00; x78; x70] in
  let string_and_object :=
    [x74; x00; x01; x61;
     x73; x72; x00; x01; x43;
     x00; x00; x00; x00; x00; x00; x00; x00;
     x00; x00; x00; x78;
     x71; x00; x7e; x00; x00] in
  Z.land 0 SC_SERIALIZABLE = 0 /\ Z.land 0 SC_EXTERNALIZABLE = 0
  /\ result_of (decodeNewObject 4 (new_Decoder (mkByteStream date_object 1)))
     = Some (inl TypeError)
  /\ result_of (decode 7 (new_ByteStream (header x00 x05 ++ date_object)))
     = Some (inl TypeError)
  /\ result_of (decode 9 (new_ByteStream (header x00 x05 ++ string_and_object)))
     = Some (inl TypeError).
Proof.
  cbv zeta. repeat split; vm_compute; reflexivity.
Qed.

(** ** Dates (C5) *)

Lemma Date_toJSON_in_range msec :
  0 <= msec <= max_time_value ->
  Date_toJSON msec = VString (Date_toISOString msec).
Proof.
  intros H. unfold Date_toJSON.
  rewrite Z.abs_eq by lia.
  replace (max_time_value <? msec) with false
    by (symmetry; apply Z.ltb_ge; lia).
  reflexivity.
Qed.

Lemma getUint_nonneg n buf pos v : getUint n buf pos = Some v -> 0 <= v.
Proof.
  intros H. apply getUint_Some in H. destruct H as [_ ->].
  apply be_unsigned_range.
Qed.

Lemma simplifyReference_date h cd v ann :
  className cd = java_util_Date ->
  simplifyReference (ObjectReference h cd [(jsstring_of_ascii "date", v)] ann) = v.
Proof.
  intros Hname. cbn [simplifyReference]. unfold jsstring_eqb.
  rewrite bool_decide_eq_true_2 by exact Hname. reflexivity.
Qed.

Lemma date_stream_decodes fuel b0 b1 b2 b3 b4 b5 b6 b7 :
  result_of (decode (7 + fuel)
               (new_ByteStream (date_stream [b0; b1; b2; b3; b4; b5; b6; b7])))
  = Some (inr [Date_toJSON (be_unsigned [b0; b1; b2; b3; b4; b5; b6; b7])]).
Proof. reflexivity. Qed.

(** C5, as the code has it.  When the class of a new object is
    [java.util.Date] and its annotation starts with a block whose first
    eight bytes are, big-endian and unsigned, a number of milliseconds not
    above the largest time value of a date (8.64e15), [decodeNewObject]
    registers an object whose only property is the ISO 8601 text of that
    time, and the exported value is this text, a single timestamp and not a
    field mapping.  So does the stream of a date as Java writes it decode;
    and zero milliseconds give the start of the epoch. *)
Theorem date_object_exports_timestamp :
  (forall fuel d ref d1 cd fs classData timestamp rest d2 msec,
      decodeClassDesc fuel None d = Ok ref d1 ->
      get_classDesc ref = inr (Some cd) ->
      className cd = java_util_Date ->
      allFieldsFromClassDesc cd = inr fs ->
      decodeClassData (decodeValues fuel) (decodeAnnotation fuel [])
        (classDescFlags (classDescInfo cd)) fs (allocated d1)
      = Ok (classData, CBlock timestamp :: rest) d2 ->
      getUint 8 timestamp 0 = Some msec ->
      msec <= max_time_value ->
      let obj :=
        ObjectReference (handle d1) cd
          [(jsstring_of_ascii "date", VString (Date_toISOString msec))]
          (CBlock timestamp :: rest) in
      decodeNewObject (S fuel) d = Ok obj (stored (handle d1) obj d2)
      /\ simplifyReference obj = VString (Date_toISOString msec)
      /\ is_timestamp (simplifyReference obj)
      /\ ~ is_field_mapping (simplifyReference obj))
  /\ (forall fuel b0 b1 b2 b3 b4 b5 b6 b7,
         let msec := be_unsigned [b0; b1; b2; b3; b4; b5; b6; b7] in
         msec <= max_time_value ->
         result_of (decode (7 + fuel)
                      (new_ByteStream
                         (date_stream [b0; b1; b2; b3; b4; b5; b6; b7])))
         = Some (inr [VString (Date_toISOString msec)]))
  /\ Date_toISOString 0 = jsstring_of_ascii "1970-01-01T00:00:00.000Z".
Proof.
  split; [ | split; [ | reflexivity]].
  - intros fuel d ref d1 cd fs classData timestamp rest d2 msec
      Hcd Hget Hname Hall Hdata Hms Hmax obj.
    assert (Hsimp : simplifyReference obj = VString (Date_toISOString msec))
      by (apply simplifyReference_date; exact Hname).
    split; [ | split; [exact Hsimp | rewrite Hsimp; split]].
    + rewrite (decodeNewObject_classDesc fuel d ref d1 cd fs Hcd Hget Hall).
      rewrite (bind_Ok _ _ _ _ _ Hdata). cbn [fst snd].
      unfold finishNewObject, jsstring_eqb.
      rewrite bool_decide_eq_true_2 by exact Hname.
      rewrite Hms.
      rewrite Date_toJSON_in_range
        by (split; [eapply getUint_nonneg; eauto | exact Hmax]).
      reflexivity.
    + exists msec. reflexivity.
    + intros [props Hprops]. discriminate Hprops.
  - intros fuel b0 b1 b2 b3 b4 b5 b6 b7 msec Hmax.
    rewrite date_stream_decodes. fold msec.
    rewrite Date_toJSON_in_range; [reflexivity | ].
    split; [apply be_unsigned_range | exact Hmax].
Qed.

Lemma date_object_exports_timestamp_witness :
  let epoch := VString (jsstring_of_ascii "1970-01-01T00:00:00.000Z") in
  let zero := [x00; x00; x00; x00; x00; x00; x00; x00] in
  result_of (decode 7 (new_ByteStream (date_stream zero))) = Some (inr [epoch])
  /\ match decodeNewObject 5 (new_Decoder (mkByteStream (date_stream zero) 5))
     with
     | Ok obj _ => simplifyReference obj = epoch
     | _ => False
     end.
Proof.
  intros epoch zero. split.
  - refine (proj1 (proj2 date_object_exports_timestamp) 0%nat
              x00 x00 x00 x00 x00 x00 x00 x00 _).
    vm_compute. discriminate.
  - edestruct (proj1 date_object_exports_timestamp 4%nat
                 (new_Decoder (mkByteStream (date_stream zero) 5)))
      as (Hdec & Hsimp & _).
    + vm_compute. reflexivity.
    + reflexivity.
    + reflexivity.
    + reflexivity.
    + vm_compute. reflexivity.
    + reflexivity.
    + vm_compute. discriminate.
    + rewrite Hdec. rewrite Hsimp. reflexivity.
Defined.

(** The claim C5 fails on the date whose eight bytes are all 0xFF: the
    unsigned value is above the largest time value of a date, the date is
    invalid and the exported value is [null], which is no timestamp.  (It
    is how the decoder reads the time -1 of Java, one millisecond before
    the epoch.) *)
Lemma date_out_of_range_exports_null :
  result_of (decode 7
               (new_ByteStream
                  (date_stream [xff; xff; xff; xff; xff; xff; xff; xff])))
  = Some (inr [VNull])
  /\ ~ is_timestamp VNull.
Proof.
  split; [vm_compute; reflexivity | ].
  intros [msec H]. discriminate H.
Qed.

(** ** Flattening the fields of a superclass chain (C4) *)

Lemma allFieldsFromClassDesc_root cd :
  superClassDesc (classDescInfo cd) = RNull ->
  allFieldsFromClassDesc cd = inr (own_fields cd).
Proof.
  destruct cd as [name uid [flags own ann super]]. cbn. intros ->. reflexivity.
Qed.

Lemma allFieldsFromClassDesc_child cd h parent :
  superClassDesc (classDescInfo cd) = ClassDescReference h parent ->
  allFieldsFromClassDesc cd
  = match allFieldsFromClassDesc parent with
    | inr inherited => inr (inherited ++ own_fields cd)
    | inl e => inl e
    end.
Proof.
  destruct cd as [name uid [flags own ann super]]. cbn. intros ->. reflexivity.
Qed.

(** Three levels: the fields of the grandparent, then of the parent, then
    of the child. *)
Lemma allFieldsFromClassDesc_three_levels
    n1 u1 f1 fs1 a1 h2 n2 u2 f2 fs2 a2 h3 n3 u3 f3 fs3 a3 :
  let grandparent := mkClassDesc n1 u1 (mkClassDescInfo f1 fs1 a1 RNull) in
  let parent :=
    mkClassDesc n2 u2
      (mkClassDescInfo f2 fs2 a2 (ClassDescReference h2 grandparent)) in
  let child :=
    mkClassDesc n3 u3 (mkClassDescInfo f3 fs3 a3 (ClassDescReference h3 parent)) in
  allFieldsFromClassDesc child = inr ((fs1 ++ fs2) ++ fs3).
Proof. reflexivity. Qed.

(** C4.  The flattened field list of a class descriptor is the
    concatenation of the declared fields of the descriptors of its
    superclass chain, from the most distant ancestor down to the
    descriptor itself, each block as it was declared. *)
Theorem allFieldsFromClassDesc_lineage cd ancestors :
  Lineage cd ancestors ->
  allFieldsFromClassDesc cd = inr (concat (List.map own_fields ancestors)).
Proof.
  induction 1 as [cd Hroot | cd h parent ancestors Hsuper _ IH].
  - rewrite (allFieldsFromClassDesc_root cd Hroot). cbn.
    rewrite app_nil_r. reflexivity.
  - rewrite (allFieldsFromClassDesc_child cd h parent Hsuper), IH.
    rewrite List.map_app, concat_app. cbn. rewrite app_nil_r. reflexivity.
Qed.

Lemma allFieldsFromClassDesc_lineage_witness :
  let f (c : Z) := PrimitiveFieldDesc TYPECODE_INTEGER [c] in
  let grandparent := mkClassDesc [71] 1 (mkClassDescInfo 2 [f 97; f 98] [] RNull) in
  let parent :=
    mkClassDesc [80] 2
      (mkClassDescInfo 2 [f 99] [] (ClassDescReference 0x7E0001 grandparent)) in
  let child :=
    mkClassDesc [67] 3
      (mkClassDescInfo 2 [f 100; f 97] [] (ClassDescReference 0x7E0000 parent)) in
  Lineage child [grandparent; parent; child]
  /\ allFieldsFromClassDesc child = inr [f 97; f 98; f 99; f 100; f 97].
Proof.
  intros f grandparent parent child.
  assert (L : Lineage child [grandparent; parent; child]).
  { apply (Lineage_child child 0x7E0000 parent [grandparent; parent] eq_refl).
    apply (Lineage_child parent 0x7E0001 grandparent [grandparent] eq_refl).
    apply (Lineage_root grandparent eq_refl). }
  split; [exact L | ].
  exact (allFieldsFromClassDesc_lineage child [grandparent; parent; child] L).
Defined.

(** ** 64-bit integers (C6) *)

Lemma to_signed_range w u :
  0 < w -> 0 <= u < 2 ^ w ->
  - 2 ^ (w - 1) <= to_signed w u < 2 ^ (w - 1) /\ to_signed w u mod 2 ^ w = u.
Proof.
  intros Hw Hu. unfold to_signed.
  assert (Hpow : 2 ^ w = 2 * 2 ^ (w - 1)).
  { replace w with (Z.succ (w - 1)) at 1 by lia. apply Z.pow_succ_r. lia. }
  destruct (2 ^ (w - 1) <=? u) eqn:E.
  - apply Z.leb_le in E. split; [lia | ].
    symmetry. apply Z.mod_unique with (-1); lia.
  - apply Z.leb_gt in E. split; [lia | ].
    apply Z.mod_small. lia.
Qed.

Lemma on_input_readUTF d name s1 :
  readUTF (input d) = (Some name, s1) ->
  on_input readUTF d = Ok name (with_input d s1).
Proof. intros H. unfold on_input. rewrite H. reflexivity. Qed.

(** The eight bytes read determine the long value and are recovered from
    it. *)
Lemma readLong_exact s :
  available s 8 ->
  let z := to_signed 64 (be_unsigned (bytes_at s 8)) in
  readLong s = (Some z, advance s 8)
  /\ - 2 ^ 63 <= z < 2 ^ 63
  /\ be_bytes 8 (z mod 2 ^ 64) = bytes_at s 8.
Proof.
  intros H z.
  pose proof (bytes_at_length s 8 H) as Hlen.
  pose proof (be_unsigned_range (bytes_at s 8)) as Hrange.
  rewrite Hlen in Hrange. change (256 ^ Z.of_nat 8) with (2 ^ 64) in Hrange.
  destruct (to_signed_range 64 _ ltac:(lia) Hrange) as [Hz Hmod].
  split; [ | split].
  - unfold readLong, getInt. rewrite (getUint_available s 8 H). reflexivity.
  - exact Hz.
  - subst z. rewrite Hmod. rewrite <- Hlen at 1. apply be_bytes_unsigned.
Qed.

Lemma readULong_exact s :
  available s 8 ->
  let u := be_unsigned (bytes_at s 8) in
  readULong s = (Some u, advance s 8)
  /\ 0 <= u < 2 ^ 64
  /\ be_bytes 8 u = bytes_at s 8.
Proof.
  intros H u.
  pose proof (bytes_at_length s 8 H) as Hlen.
  pose proof (be_unsigned_range (bytes_at s 8)) as Hrange.
  rewrite Hlen in Hrange. change (256 ^ Z.of_nat 8) with (2 ^ 64) in Hrange.
  split; [ | split].
  - unfold readULong. rewrite (getUint_available s 8 H). reflexivity.
  - exact Hrange.
  - subst u. rewrite <- Hlen at 1. apply be_bytes_unsigned.
Qed.

(** C6.  The value of a long-typed primitive field is the bigint that the
    eight bytes under the cursor denote in two's complement: it lies in
    the signed 64-bit range and the eight bytes are recovered from it, so
    no bit is lost.  The version identifier of a class descriptor is the
    bigint that the eight bytes after the class name denote as an unsigned
    number, with the same exactness.  Neither passes through a
    floating-point number. *)
Theorem long_and_version_are_exact :
  (forall fuel d name,
      available (input d) 8 ->
      let z := to_signed 64 (be_unsigned (bytes_at (input d) 8)) in
      decodeValues (S fuel) (PrimitiveFieldDesc TYPECODE_LONG name) d
      = Ok (VBigInt z) (with_input d (advance (input d) 8))
      /\ - 2 ^ 63 <= z < 2 ^ 63
      /\ be_bytes 8 (z mod 2 ^ 64) = bytes_at (input d) 8)
  /\ (forall fuel d name s1 info d4,
         readUTF (input d) = (Some name, s1) ->
         available s1 8 ->
         decodeClassDescInfo fuel (allocated (with_input d (advance s1 8)))
         = Ok info d4 ->
         let uid := be_unsigned (bytes_at s1 8) in
         let ref := ClassDescReference (handle d) (mkClassDesc name uid info) in
         decodeClassDesc (S fuel) (Some TC_CLASSDESC) d
         = Ok ref (stored (handle d) ref d4)
         /\ 0 <= uid < 2 ^ 64
         /\ be_bytes 8 uid = bytes_at s1 8).
Proof.
  split.
  - intros fuel d name H z.
    destruct (readLong_exact (input d) H) as (Hread & Hz & Hbytes).
    split; [ | split; [exact Hz | exact Hbytes]].
    rewrite decodeValues_S. unfold decodePrimitiveValue.
    change (TYPECODE_LONG =? TYPECODE_BYTE) with false.
    change (TYPECODE_LONG =? TYPECODE_CHAR) with false.
    change (TYPECODE_LONG =? TYPECODE_DOUBLE) with false.
    change (TYPECODE_LONG =? TYPECODE_FLOAT) with false.
    change (TYPECODE_LONG =? TYPECODE_INTEGER) with false.
    change (TYPECODE_LONG =? TYPECODE_LONG) with true. cbv iota.
    rewrite (bind_Ok _ _ _ _ _ (on_input_readLong d H)). reflexivity.
  - intros fuel d name s1 info d4 Hname H Hinfo uid ref.
    destruct (readULong_exact s1 H) as (Hread & Hu & Hbytes).
    split; [ | split; [exact Hu | exact Hbytes]].
    rewrite decodeClassDesc_S, bind_ret.
    change (TC_CLASSDESC =? TC_CLASSDESC) with true. cbv iota.
    rewrite (bind_Ok _ _ _ _ _ (on_input_readUTF d name s1 Hname)).
    rewrite (bind_Ok _ _ _ _ _ (on_input_readULong (with_input d s1) H)).
    rewrite bind_nextHandle.
    rewrite (bind_Ok _ _ _ _ _ Hinfo). reflexivity.
Qed.

Lemma long_and_version_are_exact_witness :
  let name := [x00; x01; x43] in
  let uid := [xff; xff; xff; xff; xff; xff; xff; xff] in
  let info := [x02; x00; x00; x78; x70] in
  let ref :=
    ClassDescReference 0x7E0000
      (mkClassDesc [67] 18446744073709551615 (mkClassDescInfo 2 [] [] RNull)) in
  decodeValues 1 (PrimitiveFieldDesc TYPECODE_LONG [110])
    (new_Decoder (mkByteStream [x80; x00; x00; x00; x00; x00; x00; x01] 0))
  = Ok (VBigInt (-9223372036854775807))
       (new_Decoder (mkByteStream [x80; x00; x00; x00; x00; x00; x00; x01] 8))
  /\ decodeClassDesc 4 (Some TC_CLASSDESC)
       (new_Decoder (mkByteStream (name ++ uid ++ info) 0))
     = Ok ref
         (stored 0x7E0000 ref
            (allocated (new_Decoder (mkByteStream (name ++ uid ++ info) 16)))).
Proof.
  intros name uid info ref. split.
  - refine (proj1 (proj1 long_and_version_are_exact 0%nat
                     (new_Decoder
                        (mkByteStream [x80; x00; x00; x00; x00; x00; x00; x01] 0))
                     [110] _)).
    unfold available, ByteStream_length. cbn. lia.
  - refine (proj1 (proj2 long_and_version_are_exact 3%nat
                     (new_Decoder (mkByteStream (name ++ uid ++ info) 0))
                     [67] (mkByteStream (name ++ uid ++ info) 3)
                     (mkClassDescInfo 2 [] [] RNull)
                     (allocated
                        (new_Decoder (mkByteStream (name ++ uid ++ info) 16)))
                     _ _ _)).
    + reflexivity.
    + unfold available, ByteStream_length. cbn. lia.
    + vm_compute. reflexivity.
Defined.

(** ** Handles (C3) *)

Section Discipline.

Lemma grows_refl complete d : grows_storing complete None d d.
Proof.
  split; [lia | ]. intros k. left. split; [reflexivity | ].
  intros _. unfold allocated_between. split; [lia | discriminate].
Qed.

(** A step that leaves the counter and the registry alone. *)
Lemma grows_same complete d d' :
  handle d' = handle d -> objectRegistry d' = objectRegistry d ->
  grows_storing complete None d d'.
Proof.
  intros Hh Hr. split; [lia | ]. intros k. left. rewrite Hr.
  split; [reflexivity | ]. intros _. unfold allocated_between.
  split; [lia | discriminate].
Qed.

Lemma grows_weaken complete pending d d' :
  grows_storing complete pending d d' -> grows_storing false pending d d'.
Proof.
  intros [Hh H]. split; [exact Hh | ]. intros k.
  destruct (H k) as [[Heq _] | Hnew]; [left | right; exact Hnew].
  split; [exact Heq | discriminate].
Qed.

(** A call that keeps the discipline, then the rest of the method. *)
Lemma grows_trans c1 c2 pending d1 d2 d3 :
  grows_storing c1 None d1 d2 ->
  grows_storing c2 pending d2 d3 ->
  grows_storing (c1 && c2) pending d1 d3.
Proof.
  intros [Hh1 H1] [Hh2 H2]. split; [lia | ]. intros k.
  destruct (H2 k) as [[Heq2 Hc2] | [Hnew2 Hown2]].
  - destruct (H1 k) as [[Heq1 Hc1] | [Hnew1 (r & Hr & Hrh)]].
    + left. split; [congruence | ].
      intros Hc. apply andb_true_iff in Hc. destruct Hc as [-> ->].
      destruct (Hc1 eq_refl) as [Hc1' _]. destruct (Hc2 eq_refl) as [Hc2' Hp].
      unfold allocated_between in *. split; [lia | exact Hp].
    + right. split.
      * left. unfold allocated_between in *.
        destruct Hnew1 as [Hnew1 | Hnew1]; [lia | discriminate].
      * exists r. split; [congruence | exact Hrh].
  - right. split; [ | exact Hown2].
    destruct Hnew2 as [Hnew2 | Hnew2]; [left | right; exact Hnew2].
    unfold allocated_between in *. lia.
Qed.

Lemma keeps_ret {A} (a : A) : keeps (ret a).
Proof. intros d. apply grows_refl. Qed.

Lemma keeps_throw {A} (e : exn) : keeps (@throw A e).
Proof. intros d. apply grows_refl. Qed.

Lemma keeps_storing_throw {A} h (e : exn) : keeps_storing (Some h) (@throw A e).
Proof.
  intros d. split; [cbn; lia | ]. intros k. left.
  split; [reflexivity | discriminate].
Qed.

Lemma keeps_storing_bind {A B} pending (m : M A) (k : A -> M B) :
  keeps m -> (forall a, keeps_storing pending (k a)) ->
  keeps_storing pending (bind m k).
Proof.
  intros Hm Hk d. unfold bind. specialize (Hm d).
  destruct (m d) as [a d1 | e d1 | ]; [ | | exact I].
  - specialize (Hk a d1).
    destruct (k a d1) as [b d2 | e d2 | ]; [ | | exact I].
    + exact (grows_trans true true pending d d1 d2 Hm Hk).
    + exact (grows_trans true false pending d d1 d2 Hm Hk).
  - destruct pending as [h | ]; [ | exact Hm].
    destruct Hm as [Hh H]. split; [exact Hh | ]. intros k0.
    destruct (H k0) as [[Heq _] | [Hnew Hown]].
    + left. split; [exact Heq | discriminate].
    + right. split; [ | exact Hown].
      destruct Hnew as [Hnew | Hnew]; [left; exact Hnew | discriminate].
Qed.

Lemma keeps_bind {A B} (m : M A) (k : A -> M B) :
  keeps m -> (forall a, keeps (k a)) -> keeps (bind m k).
Proof. apply keeps_storing_bind. Qed.

Lemma keeps_on_input {A} (f : ByteStream -> option A * ByteStream) :
  keeps (on_input f).
Proof.
  intros d. unfold on_input. destruct (f (input d)) as [[a | ] s];
    apply grows_same; reflexivity.
Qed.

Lemma keeps_get_position : keeps get_position.
Proof. intros d. apply grows_refl. Qed.

Lemma keeps_get_eof : keeps get_eof.
Proof. intros d. apply grows_refl. Qed.

Lemma keeps_lookup_registry h : keeps (lookup_registry h).
Proof. intros d. apply grows_refl. Qed.

Lemma keeps_lift_exn {A} (r : exn + A) : keeps (lift_exn r).
Proof. destruct r; [apply keeps_throw | apply keeps_ret]. Qed.

(** The store that ends a method which allocated [h]. *)
Lemma keeps_storing_store h ref :
  ref_handle ref = Some h -> keeps_storing (Some h) (store h ref).
Proof.
  intros Href d. unfold store, stored. split; [cbn; lia | ]. intros k.
  cbn [objectRegistry handle].
  destruct (decide (k = h)) as [-> | Hne].
  - right. split; [right; reflexivity | ].
    exists ref. split; [apply lookup_insert_eq | exact Href].
  - left. split; [apply lookup_insert_ne; congruence | ].
    intros _. unfold allocated_between. cbn [handle].
    split; [lia | congruence].
Qed.

(** [nextHandle], then a rest that stores under the handle allocated. *)
Lemma keeps_nextHandle {A} (k : Z -> M A) :
  (forall h, keeps_storing (Some h) (k h)) -> keeps (bind nextHandle k).
Proof.
  intros Hk d. rewrite bind_nextHandle. unfold allocated.
  specialize (Hk (handle d) (mkDecoder (input d) (handle d + 1) (objectRegistry d))).
  assert (Hconv : forall c d',
             grows_storing c (Some (handle d))
               (mkDecoder (input d) (handle d + 1) (objectRegistry d)) d' ->
             grows_storing c None d d').
  { intros c d' [Hh H]. cbn [handle objectRegistry] in *.
    split; [lia | ]. intros k0.
    destruct (H k0) as [[Heq Hc] | [Hnew Hown]].
    - left. split; [exact Heq | ].
      intros ->. specialize (Hc eq_refl). destruct Hc as [Hc1 Hc2].
      unfold allocated_between in *. cbn [handle] in *.
      split; [ | discriminate].
      assert (k0 <> handle d) by congruence. lia.
    - right. split; [left | exact Hown].
      unfold allocated_between in *. cbn [handle] in *.
      destruct Hnew as [Hnew | [= Hk0]]; lia. }
  destruct (k _ _) as [a d' | e d' | ]; [ | | exact I]; apply Hconv, Hk.
Qed.

Lemma keeps_times {A} n (m : M A) : keeps m -> keeps (times n m).
Proof.
  intros Hm. induction n as [| n IH]; cbn [times].
  - apply keeps_ret.
  - apply keeps_bind; [exact Hm | intros a].
    apply keeps_bind; [exact IH | intros rest]. apply keeps_ret.
Qed.

Lemma keeps_forEach_field decodeValues fs classData :
  (forall field, keeps (decodeValues field)) ->
  keeps (forEach_field decodeValues fs classData).
Proof.
  intros Hv. revert classData.
  induction fs as [| field rest IH]; intros classData; cbn [forEach_field].
  - apply keeps_ret.
  - apply keeps_bind; [apply Hv | intros v]. apply IH.
Qed.

End Discipline.

(** One step of a proof that a method keeps the discipline. *)
Ltac keeps_step :=
  match goal with
  | |- keeps_storing _ (let _ := _ in _) => cbv zeta
  | |- keeps_storing _ (if ?c then _ else _) => destruct c
  | |- keeps_storing _ (match ?x with _ => _ end) => destruct x
  | |- keeps (if ?c then _ else _) => destruct c
  | |- keeps (match ?x with _ => _ end) => destruct x
  | |- keeps (ret _) => apply keeps_ret
  | |- keeps (throw _) => apply keeps_throw
  | |- keeps (on_input _) => apply keeps_on_input
  | |- keeps get_position => apply keeps_get_position
  | |- keeps get_eof => apply keeps_get_eof
  | |- keeps (lookup_registry _) => apply keeps_lookup_registry
  | |- keeps (lift_exn _) => apply keeps_lift_exn
  | |- keeps (bind nextHandle _) => apply keeps_nextHandle; intros ?
  | |- keeps (bind _ _) => apply keeps_bind; [ | intros ?]
  | |- keeps (times _ _) => apply keeps_times
  | |- keeps (forEach_field _ _ _) => apply keeps_forEach_field; intros ?
  | |- keeps_storing (Some _) (throw _) => apply keeps_storing_throw
  | |- keeps_storing (Some _) (store _ _) =>
      apply keeps_storing_store; reflexivity
  | |- keeps_storing (Some _) (bind _ _) =>
      apply keeps_storing_bind; [ | intros ?]
  | H : _ |- _ => solve [apply H]
  end.

Lemma keeps_decodeReference : keeps decodeReference.
Proof. unfold decodeReference. repeat keeps_step. Qed.

Lemma keeps_decodeNewString longString : keeps (decodeNewString longString).
Proof. unfold decodeNewString. repeat keeps_step. Qed.

Lemma keeps_decodePrimitiveValue typecode : keeps (decodePrimitiveValue typecode).
Proof. unfold decodePrimitiveValue. repeat keeps_step. Qed.

Lemma keeps_decodeFieldDesc decodeObject :
  keeps decodeObject -> keeps (decodeFieldDesc decodeObject).
Proof. intros H. unfold decodeFieldDesc. repeat keeps_step. Qed.

Lemma keeps_decodeClassData decodeValues decodeAnnotation flags fs :
  (forall field, keeps (decodeValues field)) -> keeps decodeAnnotation ->
  keeps (decodeClassData decodeValues decodeAnnotation flags fs).
Proof. intros Hv Ha. unfold decodeClassData. repeat keeps_step. Qed.

Lemma keeps_storing_finishNewObject h cd classData objectAnnotation :
  keeps_storing (Some h) (finishNewObject h cd classData objectAnnotation).
Proof. unfold finishNewObject. repeat keeps_step. Qed.

(** Every method of the decoder keeps the discipline, with any fuel. *)
Lemma keeps_methods fuel :
  keeps (decodeContent fuel)
  /\ keeps (decodeObject fuel)
  /\ keeps (decodeNewObject fuel)
  /\ keeps (decodeNewArray fuel)
  /\ (forall field, keeps (decodeValues fuel field))
  /\ (forall tc, keeps (decodeClassDesc fuel tc))
  /\ keeps (decodeClassDescInfo fuel)
  /\ (forall acc, keeps (decodeAnnotation fuel acc)).
Proof.
  induction fuel as [| fuel (IHc & IHo & IHno & IHna & IHv & IHcd & IHi & IHa)].
  - repeat split; intros; intros d; exact I.
  - repeat split; intros.
    + rewrite decodeContent_S. repeat keeps_step.
    + rewrite decodeObject_S.
      pose proof keeps_decodeReference. pose proof keeps_decodeNewString.
      repeat keeps_step.
    + rewrite decodeNewObject_S.
      repeat keeps_step.
      * apply keeps_decodeClassData; [exact IHv | apply IHa].
      * apply keeps_storing_finishNewObject.
    + rewrite decodeNewArray_S. repeat keeps_step.
    + rewrite decodeValues_S.
      pose proof keeps_decodePrimitiveValue. repeat keeps_step.
    + rewrite decodeClassDesc_S.
      pose proof keeps_decodeReference. repeat keeps_step.
    + rewrite decodeClassDescInfo_S. repeat keeps_step.
      apply keeps_decodeFieldDesc, IHo.
    + rewrite decodeAnnotation_S. repeat keeps_step.
Qed.

Lemma keeps_decodeContents fuel contents : keeps (decodeContents fuel contents).
Proof.
  revert contents. induction fuel as [| fuel IH]; intros contents.
  - intros d. exact I.
  - rewrite decodeContents_S.
    pose proof (proj1 (keeps_methods fuel)). repeat keeps_step.
Qed.

Lemma keeps_Decoder_decode fuel : keeps (Decoder_decode fuel).
Proof.
  unfold Decoder_decode. pose proof (keeps_decodeContents fuel).
  repeat keeps_step.
Qed.

(** ** More fuel changes no outcome *)

Section Fuel.

Lemma refines_refl {A} (m : M A) : refines m m.
Proof. intros d. right. reflexivity. Qed.

Lemma refines_trans {A} (m1 m2 m3 : M A) :
  refines m1 m2 -> refines m2 m3 -> refines m1 m3.
Proof.
  intros H12 H23 d. destruct (H12 d) as [H | H]; [left; exact H | ].
  destruct (H23 d) as [H' | H']; [left | right]; congruence.
Qed.

Lemma refines_bind {A B} (m1 m2 : M A) (k1 k2 : A -> M B) :
  refines m1 m2 -> (forall a, refines (k1 a) (k2 a)) ->
  refines (bind m1 k1) (bind m2 k2).
Proof.
  intros Hm Hk d. unfold bind.
  destruct (Hm d) as [H | H]; [left; rewrite H; reflexivity | ].
  rewrite H. destruct (m1 d) as [a d1 | e d1 | ].
  - apply Hk.
  - right. reflexivity.
  - left. reflexivity.
Qed.

Lemma refines_times {A} n (m1 m2 : M A) :
  refines m1 m2 -> refines (times n m1) (times n m2).
Proof.
  intros Hm. induction n as [| n IH]; cbn [times].
  - apply refines_refl.
  - apply refines_bind; [exact Hm | intros a].
    apply refines_bind; [exact IH | intros rest]. apply refines_refl.
Qed.

Lemma refines_forEach_field dv1 dv2 fs classData :
  (forall field, refines (dv1 field) (dv2 field)) ->
  refines (forEach_field dv1 fs classData) (forEach_field dv2 fs classData).
Proof.
  intros Hv. revert classData.
  induction fs as [| field rest IH]; intros classData; cbn [forEach_field].
  - apply refines_refl.
  - apply refines_bind; [apply Hv | intros v]. apply IH.
Qed.

End Fuel.

Ltac refines_step :=
  match goal with
  | |- refines ?m ?m => apply refines_refl
  | |- refines (let _ := _ in _) _ => cbv zeta
  | |- refines (if ?c then _ else _) (if ?c then _ else _) => destruct c
  | |- refines (match ?x with _ => _ end) (match ?x with _ => _ end) =>
      destruct x
  | |- refines (bind _ _) (bind _ _) => apply refines_bind; [ | intros ?]
  | |- refines (times _ _) (times _ _) => apply refines_times
  | |- refines (forEach_field _ _ _) (forEach_field _ _ _) =>
      apply refines_forEach_field; intros ?
  | H : _ |- _ => solve [apply H]
  end.

Lemma refines_decodeFieldDesc o1 o2 :
  refines o1 o2 -> refines (decodeFieldDesc o1) (decodeFieldDesc o2).
Proof. intros H. unfold decodeFieldDesc. repeat refines_step. Qed.

Lemma refines_decodeClassData dv1 dv2 da1 da2 flags fs :
  (forall field, refines (dv1 field) (dv2 field)) -> refines da1 da2 ->
  refines (decodeClassData dv1 da1 flags fs) (decodeClassData dv2 da2 flags fs).
Proof. intros Hv Ha. unfold decodeClassData. repeat refines_step. Qed.

Lemma refines_methods_S fuel :
  refines (decodeContent fuel) (decodeContent (S fuel))
  /\ refines (decodeObject fuel) (decodeObject (S fuel))
  /\ refines (decodeNewObject fuel) (decodeNewObject (S fuel))
  /\ refines (decodeNewArray fuel) (decodeNewArray (S fuel))
  /\ (forall field, refines (decodeValues fuel field) (decodeValues (S fuel) field))
  /\ (forall tc, refines (decodeClassDesc fuel tc) (decodeClassDesc (S fuel) tc))
  /\ refines (decodeClassDescInfo fuel) (decodeClassDescInfo (S fuel))
  /\ (forall acc, refines (decodeAnnotation fuel acc) (decodeAnnotation (S fuel) acc)).
Proof.
  induction fuel as [| fuel (IHc & IHo & IHno & IHna & IHv & IHcd & IHi & IHa)].
  - repeat split; intros; intros d; left; reflexivity.
  - repeat split; intros.
    + rewrite (decodeContent_S fuel), (decodeContent_S (S fuel)).
      repeat refines_step.
    + rewrite (decodeObject_S fuel), (decodeObject_S (S fuel)).
      repeat refines_step.
    + rewrite (decodeNewObject_S fuel), (decodeNewObject_S (S fuel)).
      repeat refines_step.
      apply refines_decodeClassData; [exact IHv | apply IHa].
    + rewrite (decodeNewArray_S fuel), (decodeNewArray_S (S fuel)).
      repeat refines_step.
    + rewrite (decodeValues_S fuel), (decodeValues_S (S fuel)).
      repeat refines_step.
    + rewrite (decodeClassDesc_S fuel), (decodeClassDesc_S (S fuel)).
      repeat refines_step.
    + rewrite (decodeClassDescInfo_S fuel), (decodeClassDescInfo_S (S fuel)).
      repeat refines_step.
      apply refines_decodeFieldDesc, IHo.
    + rewrite (decodeAnnotation_S fuel), (decodeAnnotation_S (S fuel)).
      repeat refines_step.
Qed.

Lemma refines_decodeContents_S fuel contents :
  refines (decodeContents fuel contents) (decodeContents (S fuel) contents).
Proof.
  revert contents. induction fuel as [| fuel IH]; intros contents.
  - intros d. left. reflexivity.
  - rewrite (decodeContents_S fuel), (decodeContents_S (S fuel)).
    pose proof (proj1 (refines_methods_S fuel)). repeat refines_step.
Qed.

Lemma refines_Decoder_decode fuel fuel' :
  (fuel <= fuel')%nat -> refines (Decoder_decode fuel) (Decoder_decode fuel').
Proof.
  induction 1 as [| fuel' _ IH]; [apply refines_refl | ].
  apply (refines_trans _ _ _ IH). unfold Decoder_decode.
  pose proof (refines_decodeContents_S fuel'). repeat refines_step.
Qed.

(** The outcome of [decode] does not depend on the fuel, once there is
    enough of it. *)
Lemma decode_fuel_irrelevant fuel fuel' input :
  decode fuel input <> OutOfFuel -> decode fuel' input <> OutOfFuel ->
  decode fuel input = decode fuel' input.
Proof.
  unfold decode. intros H H'.
  destruct (Nat.le_ge_cases fuel fuel') as [Hle | Hle].
  - destruct (refines_Decoder_decode _ _ Hle (new_Decoder input)); congruence.
  - destruct (refines_Decoder_decode _ _ Hle (new_Decoder input)); congruence.
Qed.

(** ** The handles of a session *)

Lemma times_nextHandle n d :
  times n nextHandle d
  = Ok (List.map (fun i => handle d + Z.of_nat i) (seq 0 n))
       (mkDecoder (input d) (handle d + Z.of_nat n) (objectRegistry d)).
Proof.
  revert d. induction n as [| n IH]; intros d.
  - cbn. destruct d as [i h r]. cbn. rewrite Z.add_0_r. reflexivity.
  - cbn [times]. rewrite bind_nextHandle. unfold bind, allocated. rewrite IH.
    cbn [ret handle input objectRegistry seq List.map].
    rewrite <- seq_shift, List.map_map.
    f_equal.
    + f_equal; [f_equal; lia | ].
      apply List.map_ext. intros i. lia.
    + f_equal. lia.
Qed.

Lemma handles_from_base_nth n N :
  (0 < N <= n)%nat ->
  nth_error (handles_from_base n) (N - 1) = Some (baseWireHandle + Z.of_nat N - 1).
Proof.
  intros H. unfold handles_from_base.
  rewrite nth_error_map, nth_error_seq.
  replace (N - 1 <? n)%nat with true by (symmetry; apply Nat.ltb_lt; lia).
  cbn. f_equal. lia.
Qed.

(** The registry at the end of a decode that returned or threw. *)
Lemma decode_registry fuel input :
  match decode fuel input with
  | Ok _ d' =>
      baseWireHandle <= handle d'
      /\ forall k,
          (baseWireHandle <= k < handle d' <-> is_Some (objectRegistry d' !! k))
          /\ (forall r, objectRegistry d' !! k = Some r -> ref_handle r = Some k)
  | Throw _ d' =>
      baseWireHandle <= handle d'
      /\ forall k r,
          objectRegistry d' !! k = Some r ->
          baseWireHandle <= k < handle d' /\ ref_handle r = Some k
  | OutOfFuel => True
  end.
Proof.
  unfold decode. pose proof (keeps_Decoder_decode fuel (new_Decoder input)) as H.
  destruct (Decoder_decode fuel (new_Decoder input)) as [c d' | e d' | ];
    [ | | exact I]; destruct H as [Hh H]; (split; [exact Hh | ]).
  - intros k.
    destruct (H k) as [[Heq Hc] | [[Hnew | Hp] (r & Hr & Hrh)]];
      try discriminate.
    + destruct (Hc eq_refl) as [Hc' _]. cbn [new_Decoder objectRegistry] in Heq.
      rewrite lookup_empty in Heq. rewrite Heq. split.
      * split; [intros Hk; exfalso; apply Hc'; exact Hk | intros [? [=]]].
      * intros r [=].
    + rewrite Hr. split.
      * split; [eauto | intros _; exact Hnew].
      * intros r' [= <-]. exact Hrh.
  - intros k r Hr.
    destruct (H k) as [[Heq _] | [[Hnew | Hp] (r' & Hr' & Hrh)]];
      try discriminate.
    + cbn [new_Decoder objectRegistry] in Heq. rewrite lookup_empty in Heq.
      congruence.
    + split; [exact Hnew | congruence].
Qed.

(** C3.  Handles are allocated from the base upwards, one by one: the
    [N]th allocation of a decoder, counted from its creation, returns the
    base plus [N - 1].  In a decode session that returns, the registry
    holds a record at every handle from the base up to the counter and at
    no other, and each record carries the handle it is stored under: no
    handle is skipped or given twice.  In a session that throws, the
    records stored so far are under handles below the counter, each under
    its own.  Decoding the same bytes again gives the same contents, the
    same counter and the same registry, however much fuel each run is
    given. *)
Theorem handle_allocation :
  (forall input n,
      times n nextHandle (new_Decoder input)
      = Ok (handles_from_base n)
          (mkDecoder input (baseWireHandle + Z.of_nat n) ∅)
      /\ forall N, (0 < N <= n)%nat ->
           nth_error (handles_from_base n) (N - 1)
           = Some (baseWireHandle + Z.of_nat N - 1))
  /\ (forall fuel input contents d',
         decode fuel input = Ok contents d' ->
         baseWireHandle <= handle d'
         /\ forall k,
             (baseWireHandle <= k < handle d'
              <-> is_Some (objectRegistry d' !! k))
             /\ (forall r, objectRegistry d' !! k = Some r ->
                   ref_handle r = Some k))
  /\ (forall fuel input e d',
         decode fuel input = Throw e d' ->
         baseWireHandle <= handle d'
         /\ forall k r,
             objectRegistry d' !! k = Some r ->
             baseWireHandle <= k < handle d' /\ ref_handle r = Some k)
  /\ (forall fuel fuel' input contents d' contents' d'',
         decode fuel input = Ok contents d' ->
         decode fuel' input = Ok contents' d'' ->
         contents' = contents /\ d'' = d').
Proof.
  split; [ | split; [ | split]].
  - intros input n. split; [apply times_nextHandle | ].
    intros N. apply handles_from_base_nth.
  - intros fuel input contents d' H.
    pose proof (decode_registry fuel input) as Hreg. rewrite H in Hreg.
    exact Hreg.
  - intros fuel input e d' H.
    pose proof (decode_registry fuel input) as Hreg. rewrite H in Hreg.
    exact Hreg.
  - intros fuel fuel' input contents d' contents' d'' H H'.
    assert (Heq : decode fuel input = decode fuel' input)
      by (apply decode_fuel_irrelevant; congruence).
    rewrite H, H' in Heq. injection Heq as <- <-. auto.
Qed.

Lemma handle_allocation_witness :
  let input :=
    new_ByteStream
      (header x00 x05
       ++ [x74; x00; x05; x68; x65; x6c; x6c; x6f; x71; x00; x7e; x00; x00]) in
  let hello := StringReference 0x7E0000 [104; 101; 108; 108; 111] in
  let d' := mkDecoder (advance input 17) 0x7E0001 {[ 0x7E0000 := hello ]} in
  nth_error (handles_from_base 3) (3 - 1) = Some (baseWireHandle + Z.of_nat 3 - 1)
  /\ (baseWireHandle <= 0x7E0000 < handle d'
      <-> is_Some (objectRegistry d' !! 0x7E0000))
  /\ baseWireHandle
     <= handle (new_Decoder (mkByteStream (header x00 x05 ++ [x7e]) 5))
  /\ ([VString [104; 101; 108; 108; 111]; VString [104; 101; 108; 108; 111]]
      = [VString [104; 101; 108; 108; 111]; VString [104; 101; 108; 108; 111]]
      /\ d' = d').
Proof.
  intros input hello d'.
  assert (H : forall fuel,
             decode (4 + fuel) input
             = Ok [VString [104; 101; 108; 108; 111];
                   VString [104; 101; 108; 108; 111]] d')
    by (intros fuel; vm_compute; reflexivity).
  split; [ | split; [ | split]].
  - apply (proj2 (proj1 handle_allocation input 3%nat) 3%nat). lia.
  - exact (proj1 (proj2 (proj1 (proj2 handle_allocation) _ _ _ _ (H 0%nat))
                    0x7E0000)).
  - refine (proj1 (proj1 (proj2 (proj2 handle_allocation)) 3%nat
                     (new_ByteStream (header x00 x05 ++ [x7e]))
                     (UnknownTcAt 5 TC_ENUM) _ _)).
    reflexivity.
  - exact (proj2 (proj2 (proj2 handle_allocation)) _ _ _ _ _ _ _
             (H 0%nat) (H 5%nat)).
Defined.

(** ** A stream on which the decoder does not stop *)

(** A long block whose size is -5 moves the cursor back to the tag of the
    block: the loop of [decode] reads the same block for ever.  No fuel
    gives an outcome. *)
Lemma decode_may_loop fuel :
  decode fuel (new_ByteStream (header x00 x05 ++ [x7a; xff; xff; xff; xfb]))
  = OutOfFuel.
Proof.
  rewrite Decoder_decode_header.
  generalize (@nil value).
  induction fuel as [| [| fuel] IH]; intros contents; try reflexivity.
  rewrite decodeContents_more by reflexivity.
  erewrite bind_Ok; [ | reflexivity].
  cbv iota beta. apply IH.
Qed.

(** * Further properties of the byte stream *)

Lemma getUint_None n buf pos :
  ~ available (mkByteStream buf pos) n -> getUint n buf pos = None.
Proof.
  unfold available, ByteStream_length, getUint. cbn [bytes position].
  intros H. destruct (_ || _) eqn:E; [reflexivity | ].
  apply orb_false_iff in E. destruct E as [E1 E2].
  apply Z.ltb_ge in E1, E2. exfalso. apply H. lia.
Qed.

Lemma ByteStream_eta s : mkByteStream (bytes s) (position s) = s.
Proof. destruct s; reflexivity. Qed.

Lemma getUint_None_stream s n :
  ~ available s n -> getUint n (bytes s) (position s) = None.
Proof. intros H. apply getUint_None. rewrite ByteStream_eta. exact H. Qed.

(** The readers and the end of the buffer.  A reader of [w] bytes returns
    a value and moves the cursor by [w] when [w] bytes are left at the
    cursor; otherwise it throws (the [RangeError] of the view) and leaves
    the cursor where it was.  [readByte] differs: it moves the cursor by
    one even when it throws; [peekByte] never moves it. *)
Theorem readers_at_the_end :
  (forall r w s,
      In (r, w) fixed_width_readers ->
      (available s w -> exists v, r s = (Some v, advance s (Z.of_nat w)))
      /\ (~ available s w -> r s = (None, s)))
  /\ (forall s,
         (available s 1 -> exists v, readByte s = (Some v, advance s 1))
         /\ (~ available s 1 -> readByte s = (None, advance s 1)))
  /\ (forall s, snd (peekByte s) = s
                /\ (fst (peekByte s) = None <-> ~ available s 1)).
Proof.
  split; [ | split].
  - intros r w s Hin. unfold fixed_width_readers in Hin. cbn [In] in Hin.
    assert (Hr : r s = read_then_advance
                         (getUint w (bytes s) (position s)) s (Z.of_nat w)
                 \/ r s = read_then_advance
                            (getInt w (bytes s) (position s)) s (Z.of_nat w)).
    { destruct Hin as
        [[= <- <-] | [[= <- <-] | [[= <- <-] | [[= <- <-] | [[= <- <-]
        | [[= <- <-] | [[= <- <-] | [[= <- <-] | []]]]]]]]];
        first [left; reflexivity | right; reflexivity]. }
    split; intros H.
    + destruct Hr as [-> | ->]; unfold getInt;
        rewrite (getUint_available _ _ H); cbn; eauto.
    + destruct Hr as [-> | ->]; unfold getInt;
        rewrite (getUint_None_stream _ _ H); reflexivity.
  - intros s. unfold readByte. split; intros H.
    + rewrite (getUint_available _ _ H). eauto.
    + rewrite (getUint_None_stream _ _ H). reflexivity.
  - intros s. unfold peekByte. cbn [fst snd]. split; [reflexivity | ].
    split.
    + intros Hnone Hav. rewrite (getUint_available _ _ Hav) in Hnone.
      discriminate.
    + apply getUint_None_stream.
Qed.

Lemma readers_at_the_end_witness :
  (exists v, readInt (mkByteStream [x00; x00; x01; x00] 0)
             = (Some v, mkByteStream [x00; x00; x01; x00] 4))
  /\ readInt (mkByteStream [x00; x00; x01; x00] 1)
     = (None, mkByteStream [x00; x00; x01; x00] 1)
  /\ readByte (mkByteStream [x00] 1) = (None, mkByteStream [x00] 2).
Proof.
  split; [ | split].
  - apply (proj1 (proj1 readers_at_the_end readInt 4%nat
                    (mkByteStream [x00; x00; x01; x00] 0)
                    ltac:(cbn; tauto))).
    unfold available, ByteStream_length. cbn. lia.
  - apply (proj2 (proj1 readers_at_the_end readInt 4%nat
                    (mkByteStream [x00; x00; x01; x00] 1)
                    ltac:(cbn; tauto))).
    unfold available, ByteStream_length. cbn. lia.
  - apply (proj2 (proj1 (proj2 readers_at_the_end) (mkByteStream [x00] 1))).
    unfold available, ByteStream_length. cbn. lia.
Defined.

Lemma be_bytes_length n v : length (be_bytes n v) = n.
Proof.
  revert v. induction n as [| n IH]; intros v; cbn [be_bytes]; [reflexivity | ].
  rewrite length_app, IH. cbn. lia.
Qed.

Lemma byte_val_of_Z z : 0 <= z < 256 -> byte_val (byte_of_Z z) = z.
Proof.
  intros H. unfold byte_of_Z, byte_val.
  destruct (Byte.of_N (Z.to_N z)) as [b | ] eqn:E.
  - cbn. apply Byte.to_of_N in E. rewrite E. apply Z2N.id. lia.
  - apply Byte.of_N_None_iff in E. lia.
Qed.

(** Reading back what was written gives the value written. *)
Lemma be_unsigned_bytes n v :
  0 <= v < 256 ^ Z.of_nat n -> be_unsigned (be_bytes n v) = v.
Proof.
  revert v. induction n as [| n IH]; intros v Hv.
  - cbn in *. lia.
  - cbn [be_bytes]. rewrite be_unsigned_snoc.
    rewrite Nat2Z.inj_succ, Z.pow_succ_r in Hv by lia.
    rewrite IH by (split; [apply Z.div_pos; lia
                          | apply Z.div_lt_upper_bound; lia]).
    rewrite byte_val_of_Z by (apply Z.mod_pos_bound; lia).
    pose proof (Z.div_mod v 256 ltac:(lia)). lia.
Qed.

Lemma remaining_advance s n :
  0 <= position s -> remaining (advance s (Z.of_nat n)) = drop n (remaining s).
Proof.
  intros H. unfold remaining, advance. cbn [bytes position].
  rewrite drop_drop. f_equal. lia.
Qed.

Lemma starts_with_available s l : starts_with s l -> available s (length l).
Proof.
  intros [[H0 H1] H]. split; [exact H0 | ].
  assert (Hlen : length (take (length l) (remaining s)) = length l)
    by (rewrite H; reflexivity).
  rewrite length_take in Hlen. unfold remaining in Hlen.
  rewrite length_drop in Hlen. unfold ByteStream_length in *. lia.
Qed.

Lemma starts_with_bytes_at s l : starts_with s l -> bytes_at s (length l) = l.
Proof. intros [_ H]. exact H. Qed.

Lemma starts_with_app s a b :
  starts_with s (a ++ b) ->
  starts_with s a /\ starts_with (advance s (Z.of_nat (length a))) b.
Proof.
  intros Hs. pose proof (starts_with_available _ _ Hs) as [_ Hav].
  destruct Hs as [[H0 H1] H]. rewrite length_app in H, Hav.
  assert (Ha : take (length a) (remaining s) = a).
  { apply (f_equal (take (length a))) in H.
    rewrite take_take, take_app_length in H.
    rewrite Nat.min_l in H by lia. exact H. }
  split; [split; [split | ]; assumption | ].
  split.
  - unfold in_buffer, ByteStream_length in *. cbn [advance position bytes]. lia.
  - rewrite remaining_advance by exact H0.
    apply (f_equal (drop (length a))) in H.
    rewrite drop_app_length in H.
    rewrite take_drop_commute. exact H.
Qed.

Lemma ArrayBuffer_slice_in_buffer s len :
  in_buffer s -> 0 <= len ->
  ArrayBuffer_slice (bytes s) (position s) (position s + len)
  = take (Z.to_nat len) (remaining s).
Proof.
  intros [H0 H1] Hlen. unfold ArrayBuffer_slice, remaining, ByteStream_length in *.
  replace (position s <? 0) with false by (symmetry; apply Z.ltb_ge; lia).
  replace (position s + len <? 0) with false by (symmetry; apply Z.ltb_ge; lia).
  rewrite (Z.min_l (position s)) by lia.
  destruct (Z.le_gt_cases (position s + len) (Z.of_nat (length (bytes s))))
    as [Hle | Hgt].
  - rewrite Z.min_l by lia. f_equal. lia.
  - rewrite Z.min_r by lia.
    rewrite !take_ge; [reflexivity | rewrite length_drop; lia
                      | rewrite length_drop; lia].
Qed.

(** [readBytes] never throws.  With the cursor in the buffer and a length
    that is not negative it returns the bytes at the cursor, as many as
    asked for or as many as are left, and moves the cursor by the length
    asked for, beyond the end of the buffer when fewer bytes were left.
    With a negative length that does not reach before the start of the
    buffer it returns no byte and moves the cursor backwards. *)
Theorem readBytes_is_clamped s len :
  in_buffer s ->
  (0 <= len ->
   readBytes len s = (Some (take (Z.to_nat len) (remaining s)), advance s len)
   /\ Z.of_nat (length (take (Z.to_nat len) (remaining s)))
      = Z.min len (ByteStream_length s - position s))
  /\ (len < 0 -> 0 <= position s + len ->
      readBytes len s = (Some [], advance s len)).
Proof.
  intros Hin. split.
  - intros Hlen. unfold readBytes.
    rewrite (ArrayBuffer_slice_in_buffer s len Hin Hlen).
    split; [reflexivity | ].
    destruct Hin as [H0 H1]. unfold remaining, ByteStream_length in *.
    rewrite length_take, length_drop. lia.
  - intros Hneg Hpos. unfold readBytes. f_equal.
    destruct Hin as [H0 H1]. unfold ArrayBuffer_slice, ByteStream_length in *.
    replace (position s <? 0) with false by (symmetry; apply Z.ltb_ge; lia).
    replace (position s + len <? 0) with false by (symmetry; apply Z.ltb_ge; lia).
    rewrite !Z.min_l by lia. rewrite Z.max_r by lia. reflexivity.
Qed.

Lemma readBytes_is_clamped_witness :
  readBytes 5 (mkByteStream [x01; x02; x03] 1)
  = (Some [x02; x03], mkByteStream [x01; x02; x03] 6)
  /\ readBytes (-2) (mkByteStream [x01; x02; x03] 3)
     = (Some [], mkByteStream [x01; x02; x03] 1).
Proof.
  assert (Hin : forall p, 0 <= p <= 3 -> in_buffer (mkByteStream [x01; x02; x03] p))
    by (intros p Hp; unfold in_buffer, ByteStream_length; cbn; lia).
  split.
  - exact (proj1 (proj1 (readBytes_is_clamped _ 5 (Hin 1 ltac:(lia)))
                    ltac:(lia))).
  - exact (proj2 (readBytes_is_clamped _ (-2) (Hin 3 ltac:(lia)))
             ltac:(lia) ltac:(cbn; lia)).
Defined.

Lemma utf8_run_ascii text :
  is_ascii text -> utf8_run utf8_init text = List.map byte_val text.
Proof.
  induction 1 as [| b text Hb _ IH]; [reflexivity | ].
  cbn [utf8_run List.map]. unfold utf8_step, utf8_lead.
  cbn [utf8_bytes_needed utf8_init]. cbn [Z.eqb].
  replace (byte_val b <=? 127) with true by (symmetry; apply Z.leb_le; lia).
  rewrite IH. reflexivity.
Qed.

Lemma TextDecoder_decode_ascii text :
  is_ascii text -> TextDecoder_decode text = List.map byte_val text.
Proof.
  intros H. rewrite <- (utf8_run_ascii text H).
  destruct text as [| b0 rest]; [reflexivity | ].
  apply Forall_cons in H. destruct H as [H0 _].
  destruct b0; try reflexivity. vm_compute in H0. discriminate H0.
Qed.

Lemma readUShort_starts_with s n rest :
  0 <= n < 65536 -> starts_with s (be_bytes 2 n ++ rest) ->
  readUShort s = (Some n, advance s 2)
  /\ starts_with (advance s 2) rest.
Proof.
  intros Hn Hs. apply starts_with_app in Hs. destruct Hs as [Ha Hb].
  rewrite be_bytes_length in Hb. split; [ | exact Hb].
  pose proof (starts_with_available _ _ Ha) as Hav.
  pose proof (starts_with_bytes_at _ _ Ha) as Hbytes.
  rewrite be_bytes_length in Hav, Hbytes.
  unfold readUShort. rewrite (getUint_available _ _ Hav), Hbytes.
  rewrite be_unsigned_bytes by (change (256 ^ Z.of_nat 2) with 65536; lia).
  reflexivity.
Qed.



(** * Further properties of the decoder *)

(** ** Blocks of raw bytes *)

Lemma starts_with_tag s b rest :
  starts_with s ([b] ++ rest) ->
  tag_at s (byte_val b) /\ starts_with (advance s 1) rest.
Proof.
  intros Hs. apply starts_with_app in Hs. destruct Hs as [Ha Hb].
  split; [ | exact Hb]. split; [exact (starts_with_available _ _ Ha) | ].
  pose proof (starts_with_bytes_at _ _ Ha) as Hbytes. cbn [length] in Hbytes.
  rewrite Hbytes. apply Z.add_0_l.
Qed.

Lemma on_input_readBytes_starts_with d block :
  starts_with (input d) block ->
  on_input (readBytes (Z.of_nat (length block))) d
  = Ok block (with_input d (advance (input d) (Z.of_nat (length block)))).
Proof.
  intros [Hin Htake]. unfold on_input, readBytes.
  rewrite (ArrayBuffer_slice_in_buffer _ _ Hin) by lia.
  rewrite Nat2Z.id, Htake. reflexivity.
Qed.

Lemma decodeContent_short_block fuel d block :
  (length block <= 255)%nat ->
  starts_with (input d) (short_block block) ->
  decodeContent (S fuel) d
  = Ok (CBlock block)
       (with_input d (advance (input d) (2 + Z.of_nat (length block)))).
Proof.
  intros Hlen Hs. unfold short_block in Hs.
  apply starts_with_tag in Hs. destruct Hs as [[Hav Htag] Hs].
  apply starts_with_app in Hs. destruct Hs as [Hsize Hblock].
  rewrite be_bytes_length in Hblock.
  pose proof (starts_with_available _ _ Hsize) as Hav1.
  pose proof (starts_with_bytes_at _ _ Hsize) as Hbytes1.
  rewrite be_bytes_length in Hav1, Hbytes1.
  rewrite decodeContent_S.
  rewrite (bind_Ok _ _ _ _ _ (on_input_peekByte d Hav)), Htag.
  rewrite with_input_input.
  change (byte_val x77 =? TC_BLOCKDATA) with true. cbv iota.
  rewrite (bind_Ok _ _ _ _ _ (on_input_readByte d Hav)).
  rewrite (bind_Ok _ _ _ _ _ (on_input_readByte (with_input d _) Hav1)).
  cbn [input with_input handle objectRegistry]. rewrite Hbytes1.
  rewrite be_unsigned_bytes by (change (256 ^ Z.of_nat 1) with 256; lia).
  rewrite (bind_Ok _ _ _ _ _
             (on_input_readBytes_starts_with (with_input d _) block Hblock)).
  cbn [ret input with_input handle objectRegistry].
  rewrite !advance_advance. reflexivity.
Qed.

Lemma to_signed_small w u : 0 < w -> 0 <= u < 2 ^ (w - 1) -> to_signed w u = u.
Proof.
  intros Hw Hu. unfold to_signed.
  replace (2 ^ (w - 1) <=? u) with false by (symmetry; apply Z.leb_gt; lia).
  reflexivity.
Qed.

Lemma decodeContent_long_block fuel d block :
  Z.of_nat (length block) < 2 ^ 31 ->
  starts_with (input d) (long_block block) ->
  decodeContent (S fuel) d
  = Ok (CBlock block)
       (with_input d (advance (input d) (5 + Z.of_nat (length block)))).
Proof.
  intros Hlen Hs. unfold long_block in Hs.
  apply starts_with_tag in Hs. destruct Hs as [[Hav Htag] Hs].
  apply starts_with_app in Hs. destruct Hs as [Hsize Hblock].
  rewrite be_bytes_length in Hblock.
  pose proof (starts_with_available _ _ Hsize) as Hav1.
  pose proof (starts_with_bytes_at _ _ Hsize) as Hbytes1.
  rewrite be_bytes_length in Hav1, Hbytes1.
  rewrite decodeContent_S.
  rewrite (bind_Ok _ _ _ _ _ (on_input_peekByte d Hav)), Htag.
  rewrite with_input_input.
  change (byte_val x7a =? TC_BLOCKDATA) with false.
  change (byte_val x7a =? TC_BLOCKDATALONG) with true. cbv iota.
  rewrite (bind_Ok _ _ _ _ _ (on_input_readByte d Hav)).
  rewrite (bind_Ok _ _ _ _ _ (on_input_readInt (with_input d _) Hav1)).
  cbn [input with_input handle objectRegistry]. rewrite Hbytes1.
  rewrite be_unsigned_bytes
    by (change (256 ^ Z.of_nat 4) with (2 ^ 32); lia).
  rewrite to_signed_small by (change (32 - 1) with 31; lia).
  rewrite (bind_Ok _ _ _ _ _
             (on_input_readBytes_starts_with (with_input d _) block Hblock)).
  cbn [ret input with_input handle objectRegistry].
  rewrite !advance_advance. reflexivity.
Qed.

(** One content that ends the buffer. *)
Lemma decodeContents_last fuel contents d content d' :
  eof (input d) = false ->
  decodeContent (S fuel) d = Ok content d' ->
  eof (input d') = true ->
  decodeContents (S (S (S fuel))) contents d
  = Ok (contents
        ++ [match content with
            | CBlock block => VArrayBuffer block
            | CRef ref => simplifyReference ref
            end]) d'.
Proof.
  intros Hmore Hcontent Hend.
  rewrite decodeContents_more by exact Hmore.
  assert (Hc : decodeContent (S (S fuel)) d = Ok content d').
  { destruct (proj1 (refines_methods_S (S fuel)) d) as [H | H]; congruence. }
  rewrite (bind_Ok _ _ _ _ _ Hc).
  destruct content; apply decodeContents_eof; exact Hend.
Qed.

Lemma decodeContents_final fuel contents d content d' :
  eof (input d) = false ->
  decodeContent (S fuel) d = Ok content d' ->
  eof (input d') = true ->
  decodeContents (S (S fuel)) contents d
  = Ok (contents
        ++ [match content with
            | CBlock block => VArrayBuffer block
            | CRef ref => simplifyReference ref
            end]) d'.
Proof.
  intros Hmore Hcontent Hend.
  rewrite decodeContents_more by exact Hmore.
  rewrite (bind_Ok _ _ _ _ _ Hcontent).
  destruct content; apply decodeContents_eof; exact Hend.
Qed.

Lemma starts_with_after_header v0 v1 rest :
  starts_with (mkByteStream (header v0 v1 ++ rest) 4) rest.
Proof.
  split.
  - unfold in_buffer, ByteStream_length. cbn [bytes position].
    rewrite length_app. cbn [header length]. lia.
  - unfold remaining. cbn [bytes position]. change (Z.to_nat 4) with 4%nat.
    cbn [header app drop]. apply take_ge. lia.
Qed.

Lemma eof_advance_to_end (pre rest : list byte) n :
  n = Z.of_nat (length rest) ->
  eof (advance (mkByteStream (pre ++ rest) (Z.of_nat (length pre))) n) = true.
Proof.
  intros ->. unfold eof, ByteStream_length, advance. cbn [bytes position].
  apply Z.leb_le. rewrite length_app. lia.
Qed.

(** A block of raw bytes comes out the same whether its size was written
    on one byte (TC_BLOCKDATA, up to 255 bytes) or on four
    (TC_BLOCKDATALONG): [decodeContent] returns the bytes of the block and
    leaves the cursor after them, and a stream made of the header and the
    block decodes to the one buffer. *)
Theorem block_short_or_long :
  (forall fuel d block,
      (length block <= 255)%nat ->
      starts_with (input d) (short_block block) ->
      decodeContent (S fuel) d
      = Ok (CBlock block)
          (with_input d (advance (input d) (2 + Z.of_nat (length block)))))
  /\ (forall fuel d block,
         Z.of_nat (length block) < 2 ^ 31 ->
         starts_with (input d) (long_block block) ->
         decodeContent (S fuel) d
         = Ok (CBlock block)
             (with_input d (advance (input d) (5 + Z.of_nat (length block)))))
  /\ (forall fuel v0 v1 block,
         (length block <= 255)%nat ->
         result_of (decode (3 + fuel)
                      (new_ByteStream (header v0 v1 ++ short_block block)))
         = Some (inr [VArrayBuffer block])
         /\ result_of (decode (3 + fuel)
                         (new_ByteStream (header v0 v1 ++ long_block block)))
            = Some (inr [VArrayBuffer block])).
Proof.
  split; [exact decodeContent_short_block | ].
  split; [exact decodeContent_long_block | ].
  intros fuel v0 v1 block Hlen.
  assert (Hlen' : Z.of_nat (length block) < 2 ^ 31)
    by (change (2 ^ 31) with 2147483648; lia).
  split; rewrite Decoder_decode_header; change (3 + fuel)%nat with (S (S (S fuel))).
  - erewrite decodeContents_last; cycle 1.
    + unfold eof, ByteStream_length. cbn [input new_Decoder bytes position].
      apply Z.leb_gt. unfold short_block. rewrite !length_app.
      cbn [length header]. lia.
    + apply decodeContent_short_block;
        [exact Hlen | apply starts_with_after_header].
    + cbn [input with_input new_Decoder].
      apply (eof_advance_to_end (header v0 v1)).
      unfold short_block. rewrite !length_app, be_bytes_length. cbn [length]. lia.
    + reflexivity.
  - erewrite decodeContents_last; cycle 1.
    + unfold eof, ByteStream_length. cbn [input new_Decoder bytes position].
      apply Z.leb_gt. unfold long_block. rewrite !length_app.
      cbn [length header]. lia.
    + apply decodeContent_long_block;
        [exact Hlen' | apply starts_with_after_header].
    + cbn [input with_input new_Decoder].
      apply (eof_advance_to_end (header v0 v1)).
      unfold long_block. rewrite !length_app, be_bytes_length. cbn [length]. lia.
    + reflexivity.
Qed.

Lemma block_short_or_long_witness :
  result_of (decode 3 (new_ByteStream
                         (header x00 x05 ++ short_block [xca; xfe])))
  = Some (inr [VArrayBuffer [xca; xfe]])
  /\ result_of (decode 3 (new_ByteStream
                            (header x00 x05 ++ long_block [xca; xfe])))
     = Some (inr [VArrayBuffer [xca; xfe]]).
Proof.
  apply (proj2 (proj2 block_short_or_long) 0%nat x00 x05 [xca; xfe]).
  cbn. lia.
Defined.

Lemma on_input_readBytes d len :
  in_buffer (input d) -> 0 <= len ->
  on_input (readBytes len) d
  = Ok (take (Z.to_nat len) (remaining (input d)))
       (with_input d (advance (input d) len)).
Proof.
  intros Hin Hlen. unfold on_input, readBytes.
  rewrite (ArrayBuffer_slice_in_buffer _ _ Hin Hlen). reflexivity.
Qed.

Lemma starts_with_in_buffer s l : starts_with s l -> in_buffer s.
Proof. intros [H _]. exact H. Qed.

(** A short block, whatever follows its size byte. *)
Lemma decodeContent_block_data fuel d size :
  starts_with (input d) [x77; size] ->
  decodeContent (S fuel) d
  = Ok (CBlock (take (Z.to_nat (byte_val size))
                  (remaining (advance (input d) 2))))
       (with_input d (advance (input d) (2 + byte_val size))).
Proof.
  intros Hs.
  destruct (starts_with_tag _ x77 [size] Hs) as [[Hav Htag] Hs1].
  destruct (starts_with_tag _ size [] Hs1) as [[Hav1 Htag1] Hs2].
  rewrite decodeContent_S.
  rewrite (bind_Ok _ _ _ _ _ (on_input_peekByte d Hav)), Htag.
  rewrite with_input_input.
  change (byte_val x77 =? TC_BLOCKDATA) with true. cbv iota.
  rewrite (bind_Ok _ _ _ _ _ (on_input_readByte d Hav)).
  rewrite (bind_Ok _ _ _ _ _ (on_input_readByte (with_input d _) Hav1)).
  cbn [input with_input handle objectRegistry]. rewrite Htag1.
  pose proof (byte_val_range size).
  rewrite (bind_Ok _ _ _ _ _
             (on_input_readBytes (with_input d _) (byte_val size)
                (starts_with_in_buffer _ _ Hs2) ltac:(lia))).
  cbn [ret input with_input handle objectRegistry].
  rewrite !advance_advance. reflexivity.
Qed.

(** A block cut short by the end of the buffer is no error: when fewer
    bytes are left than the size byte of a TC_BLOCKDATA record announces,
    the decode returns the bytes that are left as the block. *)
Theorem decode_truncated_block fuel v0 v1 size rest :
  Z.of_nat (length rest) <= byte_val size ->
  result_of (decode (3 + fuel)
               (new_ByteStream (header v0 v1 ++ [x77; size] ++ rest)))
  = Some (inr [VArrayBuffer rest]).
Proof.
  intros Hlen. rewrite Decoder_decode_header.
  change (3 + fuel)%nat with (S (S (S fuel))).
  assert (Hs : starts_with
                 (mkByteStream (header v0 v1 ++ [x77; size] ++ rest) 4)
                 [x77; size]).
  { pose proof (starts_with_after_header v0 v1 ([x77; size] ++ rest)) as H.
    apply starts_with_app in H. exact (proj1 H). }
  erewrite decodeContents_last; cycle 1.
  - unfold eof, ByteStream_length. cbn [input new_Decoder bytes position].
    apply Z.leb_gt. rewrite !length_app. cbn [length header]. lia.
  - apply decodeContent_block_data. exact Hs.
  - cbn [input with_input new_Decoder]. unfold eof, ByteStream_length, advance.
    cbn [bytes position]. apply Z.leb_le.
    rewrite !length_app. cbn [length header]. lia.
  - cbn [input new_Decoder]. unfold remaining, advance. cbn [bytes position].
    change (Z.to_nat (4 + 2)) with 6%nat. cbn [header app drop].
    rewrite drop_0, take_ge by lia. reflexivity.
Qed.

Lemma decode_truncated_block_witness :
  result_of (decode 3 (new_ByteStream (header x00 x05 ++ [x77; xff] ++ [x01])))
  = Some (inr [VArrayBuffer [x01]]).
Proof.
  apply (decode_truncated_block 0%nat x00 x05 xff [x01]).
  vm_compute. discriminate.
Defined.

(** ** Streams on which the decoder does not stop *)

Lemma decodeContent_block_of_minus_five fuel d :
  starts_with (input d) [x7a; xff; xff; xff; xfb] ->
  decodeContent (S fuel) d = Ok (CBlock []) d.
Proof.
  intros Hs.
  destruct (starts_with_tag _ x7a [xff; xff; xff; xfb] Hs) as [[Hav Htag] Hs1].
  pose proof (starts_with_available _ _ Hs1) as Hav1.
  pose proof (starts_with_bytes_at _ _ Hs1) as Hbytes1.
  cbn [length] in Hav1, Hbytes1.
  rewrite decodeContent_S.
  rewrite (bind_Ok _ _ _ _ _ (on_input_peekByte d Hav)), Htag.
  rewrite with_input_input.
  change (byte_val x7a =? TC_BLOCKDATA) with false.
  change (byte_val x7a =? TC_BLOCKDATALONG) with true. cbv iota.
  rewrite (bind_Ok _ _ _ _ _ (on_input_readByte d Hav)).
  rewrite (bind_Ok _ _ _ _ _ (on_input_readInt (with_input d _) Hav1)).
  cbn [input with_input handle objectRegistry]. rewrite Hbytes1.
  change (to_signed 32 (be_unsigned [xff; xff; xff; xfb])) with (-5).
  destruct Hav as [H0 H1]. destruct Hav1 as [_ H4].
  unfold bind, on_input, readBytes, ret, with_input, ArrayBuffer_slice,
    ByteStream_length, advance in *.
  cbn [input bytes position handle objectRegistry] in *.
  replace (position (input d) + 1 + 4 <? 0) with false
    by (symmetry; apply Z.ltb_ge; lia).
  replace (position (input d) + 1 + 4 + -5 <? 0) with false
    by (symmetry; apply Z.ltb_ge; lia).
  rewrite !Z.min_l by lia. rewrite Z.max_r by lia. cbn [Z.to_nat take].
  destruct d as [[buf pos] h reg]. cbn. repeat f_equal. lia.
Qed.

(** A TC_BLOCKDATALONG record whose size is -5 gives an empty block and
    puts the cursor back on its own tag, with the decoder as it was: from
    there the loop of [decode] reads the same record for ever and no fuel
    gives an outcome. *)
Theorem block_of_minus_five_loops d :
  starts_with (input d) [x7a; xff; xff; xff; xfb] ->
  (forall fuel, decodeContent (S fuel) d = Ok (CBlock []) d)
  /\ (forall fuel contents, decodeContents fuel contents d = OutOfFuel).
Proof.
  intros Hs. split; [intros fuel; apply decodeContent_block_of_minus_five, Hs | ].
  assert (Heof : eof (input d) = false).
  { destruct (starts_with_tag _ x7a _ Hs) as [Htag _].
    exact (tag_at_eof _ _ Htag). }
  induction fuel as [| [| fuel] IH]; intros contents; try reflexivity.
  - rewrite decodeContents_more by exact Heof. reflexivity.
  - rewrite decodeContents_more by exact Heof.
    rewrite (bind_Ok _ _ _ _ _ (decodeContent_block_of_minus_five fuel d Hs)).
    apply IH.
Qed.

Lemma block_of_minus_five_loops_witness :
  let d := new_Decoder
             (mkByteStream (header x00 x05 ++ [x70; x7a; xff; xff; xff; xfb]) 5) in
  decodeContent 1 d = Ok (CBlock []) d
  /\ decodeContents 100 [VNull] d = OutOfFuel.
Proof.
  intros d.
  assert (Hs : starts_with (input d) [x7a; xff; xff; xff; xfb]).
  { split; [unfold in_buffer, ByteStream_length; cbn; lia | reflexivity]. }
  split.
  - exact (proj1 (block_of_minus_five_loops d Hs) 0%nat).
  - exact (proj2 (block_of_minus_five_loops d Hs) 100%nat [VNull]).
Defined.

(** ** The registry during a session *)

Lemma keeps_final_state {A} (m : M A) d d' :
  keeps m -> final_state (m d) = Some d' ->
  handle d <= handle d'
  /\ (forall k, k < handle d ->
        objectRegistry d' !! k = objectRegistry d !! k)
  /\ (keys_below_counter d -> keys_below_counter d').
Proof.
  intros Hm Hfinal. specialize (Hm d).
  assert (Hg : grows_storing false None d d').
  { destruct (m d) as [a d0 | e d0 | ]; cbn in Hfinal; try discriminate;
      injection Hfinal as <-; [exact (grows_weaken _ _ _ _ Hm) | exact Hm]. }
  destruct Hg as [Hh H]. split; [exact Hh | split].
  - intros k Hk. destruct (H k) as [[Heq _] | [[Hnew | Hp] _]];
      [exact Heq | | discriminate].
    unfold allocated_between in Hnew. lia.
  - intros Hbelow k Hsome.
    destruct (H k) as [[Heq _] | [[Hnew | Hp] _]]; [ | | discriminate].
    + rewrite Heq in Hsome. specialize (Hbelow k Hsome). lia.
    + unfold allocated_between in Hnew. lia.
Qed.

Lemma handle_at_reference_record s h :
  0 <= h < 2 ^ 31 ->
  starts_with s (reference_record h) ->
  tag_at s TC_REFERENCE /\ available s 5 /\ handle_at (advance s 1) = h.
Proof.
  intros Hh Hs. pose proof (starts_with_available _ _ Hs) as Hav.
  unfold reference_record in Hs, Hav.
  rewrite length_app, be_bytes_length in Hav.
  destruct (starts_with_tag _ x71 _ Hs) as [Htag Hs1].
  split; [exact Htag | split; [exact Hav | ]].
  rewrite <- (app_nil_r (be_bytes 4 h)) in Hs1.
  apply starts_with_app in Hs1. destruct Hs1 as [Hs1 _].
  pose proof (starts_with_bytes_at _ _ Hs1) as Hbytes.
  rewrite be_bytes_length in Hbytes.
  unfold handle_at. rewrite Hbytes.
  rewrite be_unsigned_bytes by (change (256 ^ Z.of_nat 4) with (2 ^ 32); lia).
  apply to_signed_small; [lia | exact Hh].
Qed.

Lemma bytes_at_one_tag s tc :
  tag_at s tc -> exists b, bytes_at s 1 = [b] /\ byte_val b = tc.
Proof.
  intros [Hav Htc]. pose proof (bytes_at_length s 1 Hav) as Hlen.
  destruct (bytes_at s 1) as [| b [| b' rest]]; try discriminate.
  exists b. split; [reflexivity | ]. rewrite <- Htc. symmetry. apply Z.add_0_l.
Qed.

Lemma decodeObject_back_reference fuel d h :
  0 <= h < 2 ^ 31 ->
  starts_with (input d) (reference_record h) ->
  decodeObject (S fuel) d
  = Ok (default RUndefined (objectRegistry d !! h))
       (with_input d (advance (input d) 5)).
Proof.
  intros Hh Hs.
  destruct (handle_at_reference_record _ _ Hh Hs) as (Htag & Hav & Hat).
  destruct (bytes_at_one_tag _ _ Htag) as (b & Hb & Hval).
  assert (b = x71) as -> by (apply byte_val_inj; exact Hval).
  rewrite (decodeObject_reference fuel d Hav Hb), Hat. reflexivity.
Qed.

(** Records once stored stay as they are.  Whatever [decodeObject],
    [decodeContent] or [decodeClassDesc] goes on to decode, whether it
    returns or throws, the counter does not go down, every entry of the
    registry below the old counter is unchanged, and when no entry lay at
    or above the old counter none lies at or above the new one (so that
    [nextHandle] always gives a handle without an entry).  A
    back-reference to a record stored before therefore returns that very
    record, whatever was decoded in between. *)
Theorem stored_records_are_kept :
  (forall fuel tc d d',
      final_state (decodeObject fuel d) = Some d'
      \/ final_state (decodeContent fuel d) = Some d'
      \/ final_state (decodeClassDesc fuel tc d) = Some d' ->
      handle d <= handle d'
      /\ (forall k, k < handle d ->
            objectRegistry d' !! k = objectRegistry d !! k)
      /\ (keys_below_counter d ->
          keys_below_counter d' /\ objectRegistry d' !! handle d' = None))
  /\ (forall fuel fuel' d ref d' h r,
         decodeObject fuel d = Ok ref d' ->
         objectRegistry d !! h = Some r ->
         0 <= h < handle d -> h < 2 ^ 31 ->
         starts_with (input d') (reference_record h) ->
         decodeObject (S fuel') d'
         = Ok r (with_input d' (advance (input d') 5))).
Proof.
  split.
  - intros fuel tc d d' H.
    destruct (keeps_methods fuel) as (Hc & Ho & _ & _ & _ & Hcd & _).
    assert (Hk : handle d <= handle d'
                 /\ (forall k, k < handle d ->
                       objectRegistry d' !! k = objectRegistry d !! k)
                 /\ (keys_below_counter d -> keys_below_counter d')).
    { destruct H as [H | [H | H]];
        [exact (keeps_final_state _ d d' Ho H)
        | exact (keeps_final_state _ d d' Hc H)
        | exact (keeps_final_state _ d d' (Hcd tc) H)]. }
    destruct Hk as (Hh & Hold & Hbelow). split; [exact Hh | split; [exact Hold | ]].
    intros Hb. specialize (Hbelow Hb). split; [exact Hbelow | ].
    destruct (objectRegistry d' !! handle d') as [r | ] eqn:E; [ | reflexivity].
    specialize (Hbelow (handle d') ltac:(rewrite E; eauto)). lia.
  - intros fuel fuel' d ref d' h r Hdec Hr Hh Hh31 Hs.
    destruct (keeps_methods fuel) as (_ & Ho & _).
    destruct (keeps_final_state _ d d' Ho ltac:(rewrite Hdec; reflexivity))
      as (_ & Hold & _).
    rewrite (decodeObject_back_reference fuel' d' h ltac:(lia) Hs).
    rewrite (Hold h ltac:(lia)), Hr. reflexivity.
Qed.

Lemma stored_records_are_kept_witness :
  let hello := StringReference 0x7E0000 [104; 105] in
  let s := [x74; x00; x02; x68; x69; x70; x71; x00; x7e; x00; x00] in
  let d0 := new_Decoder (mkByteStream s 0) in
  let d1 := stored 0x7E0000 hello (allocated (new_Decoder (mkByteStream s 5))) in
  let d2 := with_input d1 (mkByteStream s 6) in
  (keys_below_counter d0 ->
   keys_below_counter d1 /\ objectRegistry d1 !! handle d1 = None)
  /\ decodeObject 1 d2 = Ok hello (with_input d2 (advance (input d2) 5)).
Proof.
  intros hello s d0 d1 d2. split.
  - refine (proj2 (proj2 (proj1 stored_records_are_kept 1%nat None d0 d1 _))).
    left. reflexivity.
  - refine (proj2 stored_records_are_kept 1%nat 0%nat d1 RNull d2 0x7E0000 hello
              _ _ _ _ _).
    + reflexivity.
    + reflexivity.
    + split; [vm_compute; discriminate | vm_compute; reflexivity].
    + reflexivity.
    + split; [unfold in_buffer, ByteStream_length; cbn; lia | reflexivity].
Defined.

(** ** Primitive field values *)



Lemma on_input_throws {A} (f : ByteStream -> option A * ByteStream) d s :
  f (input d) = (None, s) -> on_input f d = Throw RangeError (with_input d s).
Proof. intros H. unfold on_input. rewrite H. reflexivity. Qed.



(** ** Tags that are not decoded *)

Lemma not_in_eqb tc l :
  ~ In tc l -> Forall (fun t => (tc =? t) = false) l.
Proof.
  intros H. apply Forall_forall. intros t Ht. apply Z.eqb_neq.
  intros ->. apply H. apply list_elem_of_In. exact Ht.
Qed.

Lemma decodeObject_unknown_tag fuel d tc :
  tag_at (input d) tc -> ~ In tc decodeObject_tc ->
  decodeObject (S fuel) d
  = Throw (UnknownTcAt (position (input d) + 1) tc)
      (with_input d (advance (input d) 1)).
Proof.
  intros [Hav Htc] Hnot. apply not_in_eqb in Hnot.
  unfold decodeObject_tc in Hnot.
  repeat match goal with
         | H : Forall _ (_ :: _) |- _ =>
             apply Forall_cons in H; destruct H as [? H]
         end.
  rewrite decodeObject_S.
  rewrite (bind_Ok _ _ _ _ _ (on_input_readByte d Hav)), Htc.
  repeat match goal with E : (tc =? _) = false |- _ => rewrite E; clear E end.
  reflexivity.
Qed.

(** A byte that is none of the tags that [decodeObject] decodes (the tag
    of a block or the end marker among them) makes it throw the unknown-tag
    error, which carries the position after the byte and the byte; a byte
    that is none of the four tags of a class descriptor makes
    [decodeClassDesc] throw its unknown-tag error, after reading the byte
    or, when the caller passed it, at once. *)
Theorem unknown_tag_throws :
  (forall fuel d tc,
      tag_at (input d) tc -> ~ In tc decodeObject_tc ->
      decodeObject (S fuel) d
      = Throw (UnknownTcAt (position (input d) + 1) tc)
          (with_input d (advance (input d) 1)))
  /\ (forall fuel d tc,
         tag_at (input d) tc -> ~ In tc decodeClassDesc_tc ->
         decodeClassDesc (S fuel) None d
         = Throw (UnknownTc tc) (with_input d (advance (input d) 1)))
  /\ (forall fuel d tc,
         ~ In tc decodeClassDesc_tc ->
         decodeClassDesc (S fuel) (Some tc) d = Throw (UnknownTc tc) d).
Proof.
  split; [ | split].
  - intros fuel d tc Htag Hnot.
    exact (decodeObject_unknown_tag fuel d tc Htag Hnot).
  - intros fuel d tc [Hav Htc] Hnot. apply not_in_eqb in Hnot.
    unfold decodeClassDesc_tc in Hnot.
    repeat match goal with
           | H : Forall _ (_ :: _) |- _ =>
               apply Forall_cons in H; destruct H as [? H]
           end.
    rewrite decodeClassDesc_S.
    rewrite (bind_Ok _ _ _ _ _ (on_input_readByte d Hav)), Htc.
    repeat match goal with E : (tc =? _) = false |- _ => rewrite E; clear E end.
    reflexivity.
  - intros fuel d tc Hnot. apply not_in_eqb in Hnot.
    unfold decodeClassDesc_tc in Hnot.
    repeat match goal with
           | H : Forall _ (_ :: _) |- _ =>
               apply Forall_cons in H; destruct H as [? H]
           end.
    rewrite decodeClassDesc_S, bind_ret.
    repeat match goal with E : (tc =? _) = false |- _ => rewrite E; clear E end.
    reflexivity.
Qed.

Lemma unknown_tag_throws_witness :
  decodeObject 1 (new_Decoder (mkByteStream [x78] 0))
  = Throw (UnknownTcAt 1 TC_ENDBLOCKDATA) (new_Decoder (mkByteStream [x78] 1))
  /\ decodeClassDesc 1 None (new_Decoder (mkByteStream [x74] 0))
     = Throw (UnknownTc TC_STRING) (new_Decoder (mkByteStream [x74] 1))
  /\ decodeClassDesc 1 (Some 0) (new_Decoder (mkByteStream [] 0))
     = Throw (UnknownTc 0) (new_Decoder (mkByteStream [] 0)).
Proof.
  assert (Htag : forall b,
             tag_at (input (new_Decoder (mkByteStream [b] 0))) (byte_val b)).
  { intros b. split; [ | apply Z.add_0_l].
    unfold available, ByteStream_length. cbn. lia. }
  assert (Hne : forall (a : Z) l, Forall (fun t => a <> t) l -> ~ In a l).
  { intros a l H Hin. rewrite Forall_forall in H.
    apply (H a); [apply list_elem_of_In; exact Hin | reflexivity]. }
  split; [ | split].
  - apply (proj1 unknown_tag_throws 0%nat _ _ (Htag x78)).
    apply Hne. repeat constructor; intros H; vm_compute in H; discriminate H.
  - apply (proj1 (proj2 unknown_tag_throws) 0%nat _ _ (Htag x74)).
    apply Hne. repeat constructor; intros H; vm_compute in H; discriminate H.
  - apply (proj2 (proj2 unknown_tag_throws) 0%nat).
    apply Hne. repeat constructor; intros H; vm_compute in H; discriminate H.
Defined.

(** ** Objects and arrays without a class descriptor *)

Lemma decodeClassDesc_null fuel d :
  tag_at (input d) TC_NULL ->
  decodeClassDesc (S fuel) None d
  = Ok RNull (with_input d (advance (input d) 1)).
Proof.
  intros [Hav Htc]. rewrite decodeClassDesc_S.
  rewrite (bind_Ok _ _ _ _ _ (on_input_readByte d Hav)), Htc. reflexivity.
Qed.

(** Where the class descriptor of a new object or of a new array is the
    null tag, or a back-reference to a handle without an entry, reading
    the property [classDesc] of the result throws a [TypeError]: the
    decode stops there, before a handle is allocated. *)
Theorem missing_class_descriptor_throws :
  (forall fuel d,
      tag_at (input d) TC_NULL ->
      decodeNewObject (S (S fuel)) d
      = Throw TypeError (with_input d (advance (input d) 1))
      /\ decodeNewArray (S (S fuel)) d
         = Throw TypeError (with_input d (advance (input d) 1)))
  /\ (forall fuel d h,
         0 <= h < 2 ^ 31 ->
         starts_with (input d) (reference_record h) ->
         objectRegistry d !! h = None ->
         decodeNewObject (S (S fuel)) d
         = Throw TypeError (with_input d (advance (input d) 5))
         /\ decodeNewArray (S (S fuel)) d
            = Throw TypeError (with_input d (advance (input d) 5))).
Proof.
  split.
  - intros fuel d Htag.
    rewrite decodeNewObject_S, decodeNewArray_S.
    rewrite !(bind_Ok _ _ _ _ _ (decodeClassDesc_null fuel d Htag)).
    split; reflexivity.
  - intros fuel d h Hh Hs Hnone.
    destruct (handle_at_reference_record _ _ Hh Hs) as (Htag & Hav & Hat).
    destruct (bytes_at_one_tag _ _ Htag) as (b & Hb & Hval).
    assert (b = x71) as -> by (apply byte_val_inj; exact Hval).
    pose proof (decodeClassDesc_reference fuel d Hav Hb) as Hcd.
    rewrite Hat, Hnone in Hcd. cbn [default] in Hcd.
    rewrite decodeNewObject_S, decodeNewArray_S.
    rewrite !(bind_Ok _ _ _ _ _ Hcd).
    split; reflexivity.
Qed.

Lemma missing_class_descriptor_throws_witness :
  decodeNewObject 2 (new_Decoder (mkByteStream [x70] 0))
  = Throw TypeError (new_Decoder (mkByteStream [x70] 1))
  /\ decodeNewArray 2 (new_Decoder (mkByteStream [x71; x00; x7e; x00; x00] 0))
     = Throw TypeError (new_Decoder (mkByteStream [x71; x00; x7e; x00; x00] 5)).
Proof.
  split.
  - refine (proj1 (proj1 missing_class_descriptor_throws 0%nat
                     (new_Decoder (mkByteStream [x70] 0)) _)).
    split; [unfold available, ByteStream_length; cbn; lia | reflexivity].
  - refine (proj2 (proj2 missing_class_descriptor_throws 0%nat
                     (new_Decoder (mkByteStream [x71; x00; x7e; x00; x00] 0))
                     0x7E0000 _ _ _)).
    + split; [vm_compute; discriminate | vm_compute; reflexivity].
    + split; [unfold in_buffer, ByteStream_length; cbn; lia | reflexivity].
    + reflexivity.
Defined.

(** ** Arrays *)

(** An array whose size field is zero or negative has no element: after
    the class descriptor and the four bytes of the size,
    [decodeNewArray] reads nothing more and registers and returns an empty
    array under the handle it allocated. *)
Theorem array_without_elements fuel d ref d1 classDesc :
  decodeClassDesc fuel None d = Ok ref d1 ->
  get_classDesc ref = inr classDesc ->
  available (input d1) 4 ->
  int32_at (input d1) <= 0 ->
  let arr := ArrayReference (handle d1) classDesc [] in
  decodeNewArray (S fuel) d
  = Ok arr
       (stored (handle d1) arr
          (allocated (with_input d1 (advance (input d1) 4))))
  /\ simplifyReference arr = VArray [].
Proof.
  intros Hcd Hget Hav Hsize arr. split; [ | reflexivity].
  rewrite decodeNewArray_S.
  rewrite (bind_Ok _ _ _ _ _ Hcd), Hget.
  cbn [lift_exn]. rewrite bind_ret, bind_nextHandle.
  rewrite (bind_Ok _ _ _ _ _ (on_input_readInt (allocated d1) Hav)).
  cbn [allocated input]. fold (int32_at (input d1)).
  replace (Z.to_nat (int32_at (input d1))) with 0%nat by lia.
  cbn [times]. rewrite bind_ret. reflexivity.
Qed.

Lemma array_without_elements_witness :
  let s := [x72; x00; x01; x41;
            x00; x00; x00; x00; x00; x00; x00; x00;
            x02; x00; x00; x78; x70;
            xff; xff; xff; xff] in
  let cd := mkClassDesc [65] 0 (mkClassDescInfo 2 [] [] RNull) in
  let d1 := stored 0x7E0000 (ClassDescReference 0x7E0000 cd)
              (allocated (new_Decoder (mkByteStream s 17))) in
  decodeNewArray 4 (new_Decoder (mkByteStream s 0))
  = Ok (ArrayReference 0x7E0001 (Some cd) [])
       (stored 0x7E0001 (ArrayReference 0x7E0001 (Some cd) [])
          (allocated (with_input d1 (mkByteStream s 21)))).
Proof.
  intros s cd d1.
  refine (proj1 (array_without_elements 3%nat (new_Decoder (mkByteStream s 0))
                   (ClassDescReference 0x7E0000 cd) d1 (Some cd) _ _ _ _)).
  - vm_compute. reflexivity.
  - reflexivity.
  - unfold available, ByteStream_length. cbn. lia.
  - vm_compute. discriminate.
Defined.

(** ** Strings and back-references to them *)

Lemma starts_with_at pre l post p :
  p = Z.of_nat (length pre) ->
  starts_with (mkByteStream (pre ++ l ++ post) p) l.
Proof.
  intros ->. split.
  - unfold in_buffer, ByteStream_length. cbn [bytes position].
    rewrite length_app. lia.
  - unfold remaining. cbn [bytes position].
    rewrite Nat2Z.id, drop_app_length, take_app_length. reflexivity.
Qed.

Lemma decodeContent_object fuel d tc :
  tag_at (input d) tc -> tc <> TC_BLOCKDATA -> tc <> TC_BLOCKDATALONG ->
  decodeContent (S fuel) d
  = (let* ref := decodeObject fuel in ret (CRef ref)) d.
Proof.
  intros [Hav Htc] H1 H2. rewrite decodeContent_S.
  rewrite (bind_Ok _ _ _ _ _ (on_input_peekByte d Hav)), Htc.
  rewrite with_input_input.
  apply Z.eqb_neq in H1, H2. rewrite H1, H2. reflexivity.
Qed.

Lemma decodeObject_string fuel d text :
  Z.of_nat (length text) < 65536 ->
  starts_with (input d) (string_record text) ->
  let ref := StringReference (handle d) (TextDecoder_decode text) in
  decodeObject (S fuel) d
  = Ok ref
       (stored (handle d) ref
          (allocated
             (with_input d (advance (input d) (3 + Z.of_nat (length text)))))).
Proof.
  intros Hlen Hs ref. unfold string_record in Hs.
  destruct (starts_with_tag _ x74 _ Hs) as [[Hav Htag] Hs1].
  rewrite decodeObject_S.
  rewrite (bind_Ok _ _ _ _ _ (on_input_readByte d Hav)), Htag.
  change (byte_val x74 =? TC_NULL) with false.
  change (byte_val x74 =? TC_REFERENCE) with false.
  change (byte_val x74 =? TC_CLASSDESC) with false.
  change (byte_val x74 =? TC_OBJECT) with false.
  change (byte_val x74 =? TC_STRING) with true. cbv iota.
  unfold decodeNewString. rewrite bind_nextHandle.
  assert (Hutf : readUTF (advance (input d) 1)
                 = (Some (TextDecoder_decode text),
                    advance (advance (input d) 1) (2 + Z.of_nat (length text)))).
  { destruct (readUShort_starts_with _ _ text
                (conj (Nat2Z.is_nonneg _) Hlen) Hs1) as [Hread [Hin Htake]].
    unfold readUTF. rewrite Hread.
    rewrite (ArrayBuffer_slice_in_buffer _ _ Hin) by lia.
    rewrite Nat2Z.id, Htake, advance_advance. reflexivity. }
  rewrite (bind_Ok _ _ _ _ _ (on_input_readUTF (allocated (with_input d _)) _ _ Hutf)).
  unfold store, stored, allocated, with_input.
  cbn [input handle objectRegistry]. rewrite advance_advance.
  replace (1 + (2 + Z.of_nat (length text))) with (3 + Z.of_nat (length text))
    by lia.
  reflexivity.
Qed.

(** A short string record decodes to a string record that holds the text
    and the handle allocated for it, registered under that handle, with
    the cursor after the text.  In a stream where a back-reference to the
    first handle follows such a string, the string comes out twice: the
    back-reference gives the text again without reading it again.  ASCII
    text comes out character by character. *)
Theorem string_and_back_reference :
  (forall fuel d text,
      Z.of_nat (length text) < 65536 ->
      starts_with (input d) (string_record text) ->
      let ref := StringReference (handle d) (TextDecoder_decode text) in
      decodeObject (S fuel) d
      = Ok ref
          (stored (handle d) ref
             (allocated
                (with_input d
                   (advance (input d) (3 + Z.of_nat (length text)))))))
  /\ (forall fuel v0 v1 text,
         Z.of_nat (length text) < 65536 ->
         result_of
           (decode (4 + fuel)
              (new_ByteStream
                 (header v0 v1 ++ string_record text
                  ++ reference_record baseWireHandle)))
         = Some (inr [VString (TextDecoder_decode text);
                      VString (TextDecoder_decode text)])
         /\ (is_ascii text ->
             TextDecoder_decode text = List.map byte_val text)).
Proof.
  split; [exact decodeObject_string | ].
  intros fuel v0 v1 text Hlen. split; [ | apply TextDecoder_decode_ascii].
  rewrite Decoder_decode_header.
  change (4 + fuel)%nat with (S (S (S (S fuel)))).
  set (buf := header v0 v1 ++ string_record text ++ reference_record baseWireHandle).
  set (d0 := new_Decoder (mkByteStream buf 4)).
  assert (Hlen_sr : length (string_record text) = (3 + length text)%nat).
  { unfold string_record. rewrite !length_app, be_bytes_length. reflexivity. }
  assert (Hs0 : starts_with (input d0) (string_record text)).
  { apply (starts_with_at (header v0 v1)). reflexivity. }
  assert (Htag0 : tag_at (input d0) TC_STRING)
    by exact (proj1 (starts_with_tag _ x74 _ Hs0)).
  (* the string *)
  rewrite decodeContents_more by exact (tag_at_eof _ _ Htag0).
  rewrite (bind_Ok _ _ _ _ _
             (eq_trans (decodeContent_object (S (S fuel)) d0 TC_STRING Htag0
                          ltac:(discriminate) ltac:(discriminate))
                (bind_Ok _ _ _ _ _ (decodeObject_string (S fuel) d0 text Hlen Hs0)))).
  cbn [ret app simplifyReference]. cbv beta iota.
  (* the back-reference *)
  set (ref := StringReference (handle d0) (TextDecoder_decode text)).
  set (d1 := stored (handle d0) ref (allocated (with_input d0 _))).
  assert (Hs1 : starts_with (input d1) (reference_record baseWireHandle)).
  { assert (Hbuf : buf = (header v0 v1 ++ string_record text)
                         ++ reference_record baseWireHandle ++ [])
      by (subst buf; rewrite app_nil_r, app_assoc; reflexivity).
    subst d1 d0. cbn [input stored allocated with_input new_Decoder advance
                        bytes position].
    rewrite Hbuf.
    apply starts_with_at. rewrite length_app, Hlen_sr.
    cbn [header length position]. lia. }
  assert (Htag1 : tag_at (input d1) TC_REFERENCE)
    by exact (proj1 (starts_with_tag _ x71 _ Hs1)).
  assert (Hobj1 : decodeObject (S fuel) d1
                  = Ok ref (with_input d1 (advance (input d1) 5))).
  { rewrite (decodeObject_back_reference fuel d1 baseWireHandle
               ltac:(split; [vm_compute; discriminate | vm_compute; reflexivity])
               Hs1).
    subst d1. cbn [objectRegistry stored]. change (handle d0) with baseWireHandle.
    rewrite lookup_insert_eq. reflexivity. }
  erewrite decodeContents_final; cycle 1.
  - exact (tag_at_eof _ _ Htag1).
  - exact (eq_trans (decodeContent_object (S fuel) d1 TC_REFERENCE Htag1
                       ltac:(discriminate) ltac:(discriminate))
             (bind_Ok _ _ _ _ _ Hobj1)).
  - subst d1 d0 buf. cbn [input stored allocated with_input new_Decoder advance
                            bytes position ret].
    unfold eof, ByteStream_length. cbn [bytes position].
    apply Z.leb_le. unfold advance. cbn [bytes position].
    rewrite !length_app, Hlen_sr.
    unfold reference_record. rewrite length_app, be_bytes_length.
    cbn [header length]. lia.
  - reflexivity.
Qed.

Lemma string_and_back_reference_witness :
  result_of
    (decode 4
       (new_ByteStream
          (header x00 x05 ++ string_record [x68; x69]
           ++ reference_record baseWireHandle)))
  = Some (inr [VString (TextDecoder_decode [x68; x69]);
               VString (TextDecoder_decode [x68; x69])])
  /\ TextDecoder_decode [x68; x69] = [104; 105].
Proof.
  split.
  - refine (proj1 (proj2 string_and_back_reference 0%nat x00 x05 [x68; x69] _)).
    cbn. lia.
  - refine (proj2 (proj2 string_and_back_reference 0%nat x00 x05 [x68; x69] _) _).
    + cbn. lia.
    + repeat constructor.
Defined.

(** ** Buffers too short for a header, and the header alone *)

(** A buffer of fewer than two bytes makes [decode] throw the
    [RangeError] of the reader with nothing read, and so does, with the
    cursor after the magic number, a buffer that ends before the two bytes
    of the version; the header alone decodes to the empty sequence. *)
Theorem decode_short_buffer :
  (forall fuel buf,
      (length buf < 2)%nat ->
      decode fuel (new_ByteStream buf)
      = Throw RangeError (new_Decoder (new_ByteStream buf)))
  /\ (forall fuel rest,
         (length rest < 2)%nat ->
         decode fuel (new_ByteStream ([xac; xed] ++ rest))
         = Throw RangeError
             (new_Decoder (mkByteStream ([xac; xed] ++ rest) 2)))
  /\ (forall fuel v0 v1,
         decode (S fuel) (new_ByteStream (header v0 v1))
         = Ok [] (new_Decoder (mkByteStream (header v0 v1) 4))).
Proof.
  split; [ | split].
  - intros fuel buf Hlen. unfold decode, Decoder_decode.
    apply bind_Throw.
    rewrite (on_input_throws readUShort _ (new_ByteStream buf));
      [reflexivity | ].
    unfold readUShort. rewrite getUint_None_stream; [reflexivity | ].
    unfold available, ByteStream_length. cbn [input new_Decoder new_ByteStream
                                               bytes position]. lia.
  - intros fuel rest Hlen. unfold decode, Decoder_decode.
    read_ok on_input_readUShort.
    change (negb (_ =? STREAM_MAGIC)) with false. cbv iota.
    apply bind_Throw.
    rewrite (on_input_throws readUShort _ (mkByteStream ([xac; xed] ++ rest) 2));
      [reflexivity | ].
    unfold readUShort. rewrite getUint_None_stream; [reflexivity | ].
    unfold available, ByteStream_length.
    cbn [input with_input new_Decoder new_ByteStream advance bytes position
         app length]. lia.
  - intros fuel v0 v1. reflexivity.
Qed.

Lemma decode_short_buffer_witness :
  decode 3 (new_ByteStream []) = Throw RangeError (new_Decoder (new_ByteStream []))
  /\ decode 3 (new_ByteStream [xac; xed; x00])
     = Throw RangeError (new_Decoder (mkByteStream [xac; xed; x00] 2)).
Proof.
  split.
  - apply (proj1 decode_short_buffer 3%nat []). cbn. lia.
  - apply (proj1 (proj2 decode_short_buffer) 3%nat [x00]). cbn. lia.
Defined.

(** ** Field maps *)


Lemma jsstring_eqb_neq a b : jsstring_eqb a b = false <-> a <> b.
Proof. unfold jsstring_eqb. apply bool_decide_eq_false. Qed.










(** ** An object that refers to itself *)

Lemma keys_below_counter_fresh d :
  keys_below_counter d -> objectRegistry d !! handle d = None.
Proof.
  intros H. destruct (objectRegistry d !! handle d) as [r | ] eqn:E;
    [ | reflexivity].
  specialize (H (handle d) ltac:(rewrite E; eauto)). lia.
Qed.

(** The record of an object is stored once its fields are decoded.  When
    the only field of a new object (of a serializable class without a
    write method, other than the date class) is object-typed and its value
    is a back-reference to the handle of the object itself, that handle
    has no entry yet: the field gets [undefined], and the object is
    registered and returned with it; nothing is thrown. *)
Theorem self_reference_is_undefined fuel d ref d1 cd name className1 :
  decodeClassDesc (S (S fuel)) None d = Ok ref d1 ->
  get_classDesc ref = inr (Some cd) ->
  allFieldsFromClassDesc cd = inr [ObjectFieldDesc name className1] ->
  Z.land (classDescFlags (classDescInfo cd)) SC_SERIALIZABLE <> 0 ->
  Z.land (classDescFlags (classDescInfo cd)) SC_WRITE_METHOD = 0 ->
  className cd <> java_util_Date ->
  name <> proto_key ->
  keys_below_counter d1 ->
  0 <= handle d1 < 2 ^ 31 ->
  starts_with (input d1) (reference_record (handle d1)) ->
  let obj := ObjectReference (handle d1) cd [(name, VUndefined)] [] in
  decodeNewObject (S (S (S fuel))) d
  = Ok obj
       (stored (handle d1) obj
          (allocated (with_input d1 (advance (input d1) 5)))).
Proof.
  intros Hcd Hget Hall Hser Hwr Hname Hproto Hbelow Hh Hs obj.
  rewrite (decodeNewObject_classDesc _ d ref d1 cd _ Hcd Hget Hall).
  assert (Hobj : decodeObject (S fuel) (allocated d1)
                 = Ok RUndefined
                     (with_input (allocated d1) (advance (input d1) 5))).
  { rewrite (decodeObject_back_reference fuel (allocated d1) (handle d1) Hh Hs).
    cbn [allocated objectRegistry].
    rewrite (keys_below_counter_fresh d1 Hbelow). reflexivity. }
  assert (Hval : decodeValues (S (S fuel)) (ObjectFieldDesc name className1)
                   (allocated d1)
                 = Ok VUndefined
                     (with_input (allocated d1) (advance (input d1) 5))).
  { rewrite decodeValues_S, (bind_Ok _ _ _ _ _ Hobj). reflexivity. }
  assert (Hset : set_prop name VUndefined [] = [(name, VUndefined)]).
  { unfold set_prop, proto_key in *.
    rewrite (proj2 (jsstring_eqb_neq _ _) Hproto). reflexivity. }
  assert (Hdata : decodeClassData (decodeValues (S (S fuel)))
                    (decodeAnnotation (S (S fuel)) [])
                    (classDescFlags (classDescInfo cd))
                    [ObjectFieldDesc name className1] (allocated d1)
                  = Ok ([(name, VUndefined)], [])
                      (with_input (allocated d1) (advance (input d1) 5))).
  { assert (Hfor : forEach_field (decodeValues (S (S fuel)))
                     [ObjectFieldDesc name className1] [] (allocated d1)
                   = Ok [(name, VUndefined)]
                       (with_input (allocated d1) (advance (input d1) 5))).
    { cbn [forEach_field fieldName].
      rewrite (bind_Ok _ _ _ _ _ Hval), Hset. reflexivity. }
    unfold decodeClassData.
    apply Z.eqb_neq in Hser. rewrite Hser, Hwr. cbn [negb Z.eqb]. cbv iota.
    rewrite (bind_Ok _ _ _ _ _ Hfor). reflexivity. }
  rewrite (bind_Ok _ _ _ _ _ Hdata). cbn [fst snd].
  unfold finishNewObject, jsstring_eqb.
  rewrite bool_decide_eq_false_2 by exact Hname. reflexivity.
Qed.

Lemma self_reference_is_undefined_witness :
  let s := [x72; x00; x01; x43;
            x00; x00; x00; x00; x00; x00; x00; x00;
            x02; x00; x01;
            x4c; x00; x01; x66; x74; x00; x03; x4c; x43; x3b;
            x78; x70;
            x71; x00; x7e; x00; x02] in
  let cn := StringReference 0x7E0001 [76; 67; 59] in
  let cd := mkClassDesc [67] 0
              (mkClassDescInfo 2 [ObjectFieldDesc [102] cn] [] RNull) in
  result_of (decodeNewObject 5 (new_Decoder (mkByteStream s 0)))
  = Some (inr (ObjectReference 0x7E0002 cd [([102], VUndefined)] [])).
Proof.
  intros s cn cd.
  set (d := new_Decoder (mkByteStream s 0)).
  set (d1 := mkDecoder (mkByteStream s 27) 0x7E0002
               (<[0x7E0000 := ClassDescReference 0x7E0000 cd]>
                  (<[0x7E0001 := cn]> ∅))).
  assert (Hcd : decodeClassDesc 4 None d = Ok (ClassDescReference 0x7E0000 cd) d1)
    by (vm_compute; reflexivity).
  assert (Hbelow : keys_below_counter d1).
  { refine (proj2 (proj2 (keeps_final_state _ d d1
                            (proj1 (proj2 (proj2 (proj2 (proj2 (proj2
                               (keeps_methods 4)))))) None) _)) _).
    - rewrite Hcd. reflexivity.
    - intros k [r Hr]. cbn in Hr. rewrite lookup_empty in Hr. discriminate. }
  rewrite (self_reference_is_undefined 2%nat d (ClassDescReference 0x7E0000 cd)
             d1 cd [102] cn Hcd eq_refl eq_refl).
  - reflexivity.
  - discriminate.
  - reflexivity.
  - discriminate.
  - discriminate.
  - exact Hbelow.
  - split; [vm_compute; discriminate | vm_compute; reflexivity].
  - split; [unfold in_buffer, ByteStream_length; cbn; lia | reflexivity].
Defined.

(** ** The record of an entity (jsonize.ts) *)

Lemma Uint8Array_of_signed stream :
  Uint8Array_of (List.map signed_byte stream) = stream.
Proof.
  unfold Uint8Array_of. rewrite List.map_map.
  rewrite <- (List.map_id stream) at 2. apply List.map_ext. intros b.
  unfold signed_byte.
  pose proof (byte_val_range b) as Hb.
  change 256 with (2 ^ 8) at 1.
  rewrite (proj2 (to_signed_range 8 (byte_val b) ltac:(lia)
                    ltac:(change (2 ^ 8) with 256; lia))).
  apply byte_of_val.
Qed.

(** A stream written into a blob as signed 8-bit integers comes back byte
    for byte in the [Uint8Array], so that the record of the entity is the
    first content of the stream (any other content is dropped), and
    [undefined], not an error, for a stream that is a header alone; a
    failure of the decode is the failure of the record. *)
Theorem record_of_entity_is_first_content :
  (forall stream, Uint8Array_of (List.map signed_byte stream) = stream)
  /\ (forall fuel stream contents d,
         decode fuel (new_ByteStream stream) = Ok contents d ->
         record_of_entity fuel (List.map signed_byte stream)
         = Ok (first_content contents) d)
  /\ (forall fuel stream e d,
         decode fuel (new_ByteStream stream) = Throw e d ->
         record_of_entity fuel (List.map signed_byte stream) = Throw e d)
  /\ (forall fuel v0 v1,
         result_of (record_of_entity (S fuel) (List.map signed_byte (header v0 v1)))
         = Some (inr VUndefined)).
Proof.
  split; [exact Uint8Array_of_signed | ].
  split; [ | split].
  - intros fuel stream contents d H. unfold record_of_entity.
    rewrite Uint8Array_of_signed, H. reflexivity.
  - intros fuel stream e d H. unfold record_of_entity.
    rewrite Uint8Array_of_signed, H. reflexivity.
  - intros fuel v0 v1. unfold record_of_entity.
    rewrite Uint8Array_of_signed. reflexivity.
Qed.

Lemma record_of_entity_is_first_content_witness :
  record_of_entity 4 [-84; -19; 0; 5; 116; 0; 1; 97; 112]
  = Ok (VString [97])
       (stored 0x7E0000 (StringReference 0x7E0000 [97])
          (allocated
             (new_Decoder
                (mkByteStream [xac; xed; x00; x05; x74; x00; x01; x61; x70] 9))))
  /\ record_of_entity 4 [-84; -18; 0; 5]
     = Throw MagicMismatch (new_Decoder (mkByteStream [xac; xee; x00; x05] 2)).
Proof.
  split.
  - refine (proj1 (proj2 record_of_entity_is_first_content) 4%nat
              [xac; xed; x00; x05; x74; x00; x01; x61; x70]
              [VString [97]; VNull] _ _).
    vm_compute. reflexivity.
  - refine (proj1 (proj2 (proj2 record_of_entity_is_first_content)) 4%nat
              [xac; xee; x00; x05] MagicMismatch _ _).
    vm_compute. reflexivity.
Defined.

(** ** Class descriptors *)

Lemma on_input_Some {A} (f : ByteStream -> option A * ByteStream) d a s :
  f (input d) = (Some a, s) -> on_input f d = Ok a (with_input d s).
Proof. intros H. unfold on_input. rewrite H. reflexivity. Qed.

Lemma readByte_starts_with s b rest :
  starts_with s ([b] ++ rest) ->
  readByte s = (Some (byte_val b), advance s 1)
  /\ starts_with (advance s 1) rest.
Proof.
  intros Hs. destruct (starts_with_tag _ _ _ Hs) as [[Hav Htc] Hrest].
  split; [ | exact Hrest].
  unfold readByte. rewrite (getUint_available _ _ Hav), Htc. reflexivity.
Qed.

Lemma peekByte_starts_with s b rest :
  starts_with s ([b] ++ rest) -> peekByte s = (Some (byte_val b), s).
Proof.
  intros Hs. destruct (starts_with_tag _ _ _ Hs) as [[Hav Htc] _].
  unfold peekByte. rewrite (getUint_available _ _ Hav), Htc. reflexivity.
Qed.

Lemma utf_record_length text :
  Z.of_nat (length (utf_record text)) = 2 + Z.of_nat (length text).
Proof. unfold utf_record. rewrite length_app, be_bytes_length. lia. Qed.

Lemma readUTF_starts_with s text rest :
  Z.of_nat (length text) < 65536 ->
  starts_with s (utf_record text ++ rest) ->
  readUTF s
  = (Some (TextDecoder_decode text), advance s (2 + Z.of_nat (length text)))
  /\ starts_with (advance s (2 + Z.of_nat (length text))) rest.
Proof.
  intros Hlen Hs. apply starts_with_app in Hs. destruct Hs as [Hs Hrest].
  rewrite utf_record_length in Hrest. split; [ | exact Hrest].
  destruct (readUShort_starts_with s _ text
              (conj (Nat2Z.is_nonneg _) Hlen) Hs) as [Hread [Hin Htake]].
  unfold readUTF. rewrite Hread.
  rewrite (ArrayBuffer_slice_in_buffer _ _ Hin) by lia.
  rewrite Nat2Z.id, Htake, advance_advance. reflexivity.
Qed.

Lemma readULong_starts_with s u rest :
  0 <= u < 2 ^ 64 ->
  starts_with s (be_bytes 8 u ++ rest) ->
  readULong s = (Some u, advance s 8) /\ starts_with (advance s 8) rest.
Proof.
  intros Hu Hs. apply starts_with_app in Hs. destruct Hs as [Hs Hrest].
  rewrite be_bytes_length in Hrest. split; [ | exact Hrest].
  pose proof (starts_with_available _ _ Hs) as Hav.
  pose proof (starts_with_bytes_at _ _ Hs) as Hbytes.
  rewrite be_bytes_length in Hav, Hbytes.
  unfold readULong. rewrite (getUint_available _ _ Hav), Hbytes.
  rewrite be_unsigned_bytes by (change (256 ^ Z.of_nat 8) with (2 ^ 64); lia).
  reflexivity.
Qed.

Lemma decodeFieldDesc_primitive o d field rest :
  primitive_field field ->
  starts_with (input d) (primitive_field_record field ++ rest) ->
  let n := Z.of_nat (length (primitive_field_record field)) in
  decodeFieldDesc o d
  = Ok (described_field field) (with_input d (advance (input d) n))
  /\ starts_with (advance (input d) n) rest.
Proof.
  intros [Hprim Hlen] Hs n. subst n. unfold primitive_field_record in *.
  rewrite <- app_assoc in Hs.
  destruct (readByte_starts_with _ _ _ Hs) as [Hbyte Hs1].
  destruct (readUTF_starts_with _ _ _ Hlen Hs1) as [Hutf Hs2].
  rewrite advance_advance in Hutf, Hs2.
  rewrite length_app, Nat2Z.inj_add, utf_record_length. cbn [length].
  change (Z.of_nat 1) with 1.
  split; [ | exact Hs2].
  unfold decodeFieldDesc.
  rewrite (bind_Ok _ _ _ _ _ (on_input_Some readByte d _ _ Hbyte)), Hprim.
  rewrite (bind_Ok _ _ _ _ _
             (on_input_Some readUTF (with_input d _) _ _ Hutf)).
  reflexivity.
Qed.

Lemma times_decodeFieldDesc o fields :
  forall d rest,
    Forall primitive_field fields ->
    starts_with (input d)
      (concat (List.map primitive_field_record fields) ++ rest) ->
    let n := Z.of_nat (length (concat (List.map primitive_field_record fields))) in
    times (length fields) (decodeFieldDesc o) d
    = Ok (List.map described_field fields)
         (with_input d (advance (input d) n))
    /\ starts_with (advance (input d) n) rest.
Proof.
  induction fields as [| field fields IH]; intros d rest Hall Hs n; subst n.
  - cbn [List.map concat length times ret] in *. change (Z.of_nat 0) with 0.
    assert (Hadv : advance (input d) 0 = input d).
    { unfold advance. rewrite Z.add_0_r. apply ByteStream_eta. }
    rewrite Hadv, with_input_input. split; [reflexivity | exact Hs].
  - apply Forall_cons in Hall. destruct Hall as [Hfield Hall].
    cbn [List.map concat] in *. rewrite <- app_assoc in Hs.
    destruct (decodeFieldDesc_primitive o d field _ Hfield Hs) as [Hdec Hs1].
    destruct (IH (with_input d _) rest Hall Hs1) as [Htimes Hs2].
    cbn [input with_input] in Htimes, Hs2.
    rewrite advance_advance in Htimes, Hs2.
    rewrite length_app, Nat2Z.inj_add. split; [ | exact Hs2].
    cbn [length times].
    rewrite (bind_Ok _ _ _ _ _ Hdec), (bind_Ok _ _ _ _ _ Htimes).
    reflexivity.
Qed.

Lemma decodeClassDesc_class_descriptor_record fuel d name uid flags fields :
  Z.of_nat (length name) < 65536 ->
  0 <= uid < 2 ^ 64 ->
  Z.of_nat (length fields) < 65536 ->
  Forall primitive_field fields ->
  starts_with (input d) (class_descriptor_record name uid flags fields) ->
  decodeClassDesc (S (S (S fuel))) None d
  = Ok (ClassDescReference (handle d)
          (mkClassDesc (TextDecoder_decode name) uid
             (mkClassDescInfo (byte_val flags)
                (List.map described_field fields) [] RNull)))
       (stored (handle d)
          (ClassDescReference (handle d)
             (mkClassDesc (TextDecoder_decode name) uid
                (mkClassDescInfo (byte_val flags)
                   (List.map described_field fields) [] RNull)))
          (allocated
             (with_input d
                (advance (input d)
                   (Z.of_nat
                      (length (class_descriptor_record name uid flags fields))))))).
Proof.
  intros Hname Huid Hcount Hfields Hs.
  unfold class_descriptor_record in *.
  set (fs := concat (List.map primitive_field_record fields)) in *.
  destruct (readByte_starts_with _ _ _ Hs) as [Htag Hs1].
  set (s1 := advance (input d) 1) in *.
  destruct (readUTF_starts_with _ _ _ Hname Hs1) as [Hutf Hs2].
  set (s2 := advance s1 _) in *.
  destruct (readULong_starts_with _ _ _ Huid Hs2) as [Hlong Hs3].
  set (s3 := advance s2 8) in *.
  destruct (readByte_starts_with _ _ _ Hs3) as [Hflags Hs4].
  set (s4 := advance s3 1) in *.
  destruct (readUShort_starts_with _ _ _ (conj (Nat2Z.is_nonneg _) Hcount) Hs4)
    as [Hshort Hs5].
  set (s5 := advance s4 2) in *.
  set (da := allocated d).
  destruct (times_decodeFieldDesc (decodeObject (S fuel)) fields
              (with_input da s5) [x78; x70] Hfields Hs5) as [Htimes Hs6].
  fold fs in Htimes, Hs6. cbn [input with_input] in Htimes, Hs6.
  set (s6 := advance s5 _) in *.
  pose proof (peekByte_starts_with s6 x78 [x70] Hs6) as Hpeek.
  destruct (readByte_starts_with s6 x78 [x70] Hs6) as [Hend Hs7].
  set (s7 := advance s6 1) in *.
  destruct (readByte_starts_with s7 x70 [] Hs7) as [Hnull _].
  set (s8 := advance s7 1) in *.
  (* the class descriptor information *)
  assert (Hann : decodeAnnotation (S fuel) [] (with_input da s6)
                 = Ok [] (with_input da s7)).
  { rewrite decodeAnnotation_S.
    rewrite (bind_Ok _ _ _ _ _
               (on_input_Some peekByte (with_input da s6) _ _ Hpeek)).
    change (negb (byte_val x78 =? TC_ENDBLOCKDATA)) with false. cbv iota.
    rewrite (bind_Ok _ _ _ _ _
               (on_input_Some readByte (with_input da s6) _ _ Hend)).
    reflexivity. }
  assert (Hsuper : decodeClassDesc (S fuel) None (with_input da s7)
                   = Ok RNull (with_input da s8)).
  { rewrite decodeClassDesc_S.
    rewrite (bind_Ok _ _ _ _ _
               (on_input_Some readByte (with_input da s7) _ _ Hnull)).
    reflexivity. }
  assert (Hinfo : decodeClassDescInfo (S (S fuel)) (with_input da s3)
                  = Ok (mkClassDescInfo (byte_val flags)
                          (List.map described_field fields) [] RNull)
                       (with_input da s8)).
  { rewrite decodeClassDescInfo_S.
    rewrite (bind_Ok _ _ _ _ _
               (on_input_Some readByte (with_input da s3) _ _ Hflags)).
    rewrite (bind_Ok _ _ _ _ _
               (on_input_Some readUShort (with_input da s4) _ _ Hshort)).
    rewrite Nat2Z.id.
    rewrite (bind_Ok _ _ _ _ _ Htimes).
    rewrite (bind_Ok _ _ _ _ _ Hann).
    rewrite (bind_Ok _ _ _ _ _ Hsuper). reflexivity. }
  (* the descriptor *)
  rewrite decodeClassDesc_S.
  rewrite (bind_Ok _ _ _ _ _ (on_input_Some readByte d _ _ Htag)).
  change (byte_val x72 =? TC_CLASSDESC) with true. cbv iota.
  rewrite (bind_Ok _ _ _ _ _
             (on_input_Some readUTF (with_input d s1) _ _ Hutf)).
  rewrite (bind_Ok _ _ _ _ _
             (on_input_Some readULong (with_input d s2) _ _ Hlong)).
  rewrite bind_nextHandle.
  change (allocated (with_input (with_input d s2) s3)) with (with_input da s3).
  rewrite (bind_Ok _ _ _ _ _ Hinfo).
  unfold store, stored, da, allocated, with_input.
  cbn [input handle objectRegistry].
  subst s8 s7 s6 s5 s4 s3 s2 s1.
  rewrite !advance_advance.
  do 2 f_equal. unfold advance. f_equal.
  rewrite !length_app, !Nat2Z.inj_add, utf_record_length, !be_bytes_length.
  cbn [length]. lia.
Qed.

(** The descriptor of a class with primitive fields only.  From the wire
    form of such a descriptor (the tag, the class name, the version
    identifier on eight bytes, the flags, the number of fields, for each
    field its type code and its name, the end marker of an empty
    annotation and the null tag for the superclass) [decodeClassDesc]
    gives the descriptor with the name, the identifier, the flags and the
    fields in the order of the wire, registers it under the handle it
    allocated, and leaves the cursor after the record.  The flattened
    field list of the descriptor is the list of its fields. *)
Theorem class_descriptor_round_trip fuel d name uid flags fields :
  Z.of_nat (length name) < 65536 ->
  0 <= uid < 2 ^ 64 ->
  Z.of_nat (length fields) < 65536 ->
  Forall primitive_field fields ->
  starts_with (input d) (class_descriptor_record name uid flags fields) ->
  let cd :=
    mkClassDesc (TextDecoder_decode name) uid
      (mkClassDescInfo (byte_val flags) (List.map described_field fields)
         [] RNull) in
  let ref := ClassDescReference (handle d) cd in
  decodeClassDesc (S (S (S fuel))) None d
  = Ok ref
       (stored (handle d) ref
          (allocated
             (with_input d
                (advance (input d)
                   (Z.of_nat
                      (length (class_descriptor_record name uid flags fields)))))))
  /\ allFieldsFromClassDesc cd = inr (List.map described_field fields).
Proof.
  intros Hname Huid Hcount Hfields Hs cd ref. split; [ | reflexivity].
  exact (decodeClassDesc_class_descriptor_record fuel d name uid flags fields
           Hname Huid Hcount Hfields Hs).
Qed.

Lemma class_descriptor_round_trip_witness :
  let fields := [(x49, [x78]); (x4a, [x69; x64])] in
  let record := class_descriptor_record [x50] 7 x02 fields in
  let cd :=
    mkClassDesc [80] 7
      (mkClassDescInfo 2
         [PrimitiveFieldDesc TYPECODE_INTEGER [120];
          PrimitiveFieldDesc TYPECODE_LONG [105; 100]] [] RNull) in
  result_of (decodeClassDesc 3 None (new_Decoder (mkByteStream record 0)))
  = Some (inr (ClassDescReference 0x7E0000 cd))
  /\ allFieldsFromClassDesc cd
     = inr [PrimitiveFieldDesc TYPECODE_INTEGER [120];
            PrimitiveFieldDesc TYPECODE_LONG [105; 100]].
Proof.
  intros fields record cd.
  destruct (class_descriptor_round_trip 0%nat
              (new_Decoder (mkByteStream record 0)) [x50] 7 x02 fields)
    as [Hdec Hall].
  - cbn. lia.
  - split; [vm_compute; discriminate | vm_compute; reflexivity].
  - cbn. lia.
  - repeat constructor.
  - split; [unfold in_buffer, ByteStream_length; cbn; lia | reflexivity].
  - split; [rewrite Hdec; reflexivity | exact Hall].
Defined.

(** ** The loop of [decode] *)

Lemma decodeContents_prefix fuel :
  forall contents d,
    match decodeContents fuel [] d with
    | Ok new d' => decodeContents fuel contents d = Ok (contents ++ new) d'
    | Throw e d' => decodeContents fuel contents d = Throw e d'
    | OutOfFuel => decodeContents fuel contents d = OutOfFuel
    end.
Proof.
  induction fuel as [| fuel IH]; intros contents d; [reflexivity | ].
  rewrite !decodeContents_S. unfold bind, get_eof.
  destruct (eof (input d)); cbn [negb].
  - cbn [ret]. rewrite app_nil_r. reflexivity.
  - destruct (decodeContent fuel d) as [content d1 | e d1 | ]; try reflexivity.
    assert (Hstep : forall v,
               match decodeContents fuel ([] ++ [v]) d1 with
               | Ok new d' =>
                   decodeContents fuel (contents ++ [v]) d1
                   = Ok (contents ++ new) d'
               | Throw e d' =>
                   decodeContents fuel (contents ++ [v]) d1 = Throw e d'
               | OutOfFuel => decodeContents fuel (contents ++ [v]) d1 = OutOfFuel
               end).
    { intros v. pose proof (IH ([] ++ [v]) d1) as H1.
      pose proof (IH (contents ++ [v]) d1) as H2.
      destruct (decodeContents fuel [] d1) as [new d' | e d' | ];
        rewrite H1, H2; [ | reflexivity | reflexivity].
      rewrite <- app_assoc. reflexivity. }
    destruct content; apply Hstep.
Qed.

Lemma decodeContents_returns_at_end fuel :
  forall contents d result d',
    decodeContents fuel contents d = Ok result d' -> eof (input d') = true.
Proof.
  induction fuel as [| fuel IH]; intros contents d result d' H;
    [discriminate | ].
  rewrite decodeContents_S in H. unfold bind, get_eof in H.
  destruct (eof (input d)) eqn:E; cbn [negb] in H.
  - injection H as _ <-. exact E.
  - destruct (decodeContent fuel d) as [content d1 | e d1 | ]; try discriminate.
    destruct content; exact (IH _ _ _ _ H).
Qed.

(** [decode] returns only when the cursor has reached the end of the
    buffer (or has gone beyond it): no byte is left undecoded behind a
    result.  The loop appends: what it returns is what was decoded before
    followed by what it decodes, in the order of the stream, and what was
    decoded before changes neither the outcome nor the final state. *)
Theorem decode_reads_to_the_end :
  (forall fuel stream contents d',
      decode fuel stream = Ok contents d' ->
      ByteStream_length (input d') <= position (input d'))
  /\ (forall fuel before d new d',
         decodeContents fuel [] d = Ok new d' ->
         decodeContents fuel before d = Ok (before ++ new) d')
  /\ (forall fuel before d e d',
         decodeContents fuel [] d = Throw e d' ->
         decodeContents fuel before d = Throw e d').
Proof.
  split; [ | split].
  - intros fuel stream contents d' H. unfold decode, Decoder_decode, bind in H.
    destruct (on_input readUShort (new_Decoder stream)) as [magic d1 | |];
      try discriminate.
    destruct (negb (magic =? STREAM_MAGIC)); [discriminate | ].
    destruct (on_input readUShort d1) as [version d2 | |]; try discriminate.
    apply decodeContents_returns_at_end in H. apply Z.leb_le. exact H.
  - intros fuel before d new d' H.
    pose proof (decodeContents_prefix fuel before d) as Hp.
    rewrite H in Hp. exact Hp.
  - intros fuel before d e d' H.
    pose proof (decodeContents_prefix fuel before d) as Hp.
    rewrite H in Hp. exact Hp.
Qed.

Lemma decode_reads_to_the_end_witness :
  let buf := header x00 x05 ++ [x77; x05; x01] in
  ByteStream_length (mkByteStream buf 11) <= position (mkByteStream buf 11)
  /\ decodeContents 3 [VNull] (new_Decoder (mkByteStream buf 4))
     = Ok ([VNull] ++ [VArrayBuffer [x01]]) (new_Decoder (mkByteStream buf 11))
  /\ decodeContents 3 [VNull] (new_Decoder (mkByteStream [x7e] 0))
     = Throw (UnknownTcAt 1 TC_ENUM) (new_Decoder (mkByteStream [x7e] 1)).
Proof.
  intros buf. split; [ | split].
  - refine (proj1 decode_reads_to_the_end 3%nat (new_ByteStream buf)
              [VArrayBuffer [x01]] (new_Decoder (mkByteStream buf 11)) _).
    reflexivity.
  - refine (proj1 (proj2 decode_reads_to_the_end) 3%nat [VNull] _ _ _ _).
    reflexivity.
  - refine (proj2 (proj2 decode_reads_to_the_end) 3%nat [VNull] _ _ _ _).
    reflexivity.
Defined.

(** ** Annotations *)

(** The annotation loop of [decodeNewObject] and [decodeClassDescInfo]:
    over blocks followed by the end marker it returns the blocks in the
    order of the stream, after what was pushed before, and leaves the
    cursor behind the end marker.  At the end of the buffer, where no end
    marker is left to peek at, it throws the [RangeError] of the view. *)
Theorem annotation_blocks_in_order :
  (forall fuel blocks acc d,
      Forall (fun block => (length block <= 255)%nat) blocks ->
      starts_with (input d) (annotation_record blocks) ->
      decodeAnnotation (S (length blocks + fuel)) acc d
      = Ok (acc ++ map CBlock blocks)
           (with_input d
              (advance (input d)
                 (Z.of_nat (length (annotation_record blocks))))))
  /\ (forall fuel acc d,
         ~ available (input d) 1 ->
         decodeAnnotation (S fuel) acc d = Throw RangeError d).
Proof.
  split.
  - intros fuel blocks. induction blocks as [| block blocks IH];
      intros acc d Hlen Hs.
    + change (annotation_record []) with ([x78] ++ []) in *.
      cbn [length Nat.add app]. rewrite decodeAnnotation_S.
      rewrite (bind_Ok _ _ _ _ _
                 (on_input_Some peekByte d _ _ (peekByte_starts_with _ _ _ Hs))).
      rewrite with_input_input.
      change (negb (byte_val x78 =? TC_ENDBLOCKDATA)) with false. cbv iota.
      rewrite (bind_Ok _ _ _ _ _
                 (on_input_Some readByte d _ _
                    (proj1 (readByte_starts_with _ _ _ Hs)))).
      rewrite app_nil_r. reflexivity.
    + assert (Hrec : annotation_record (block :: blocks)
                     = short_block block ++ annotation_record blocks).
      { unfold annotation_record. cbn [map concat]. apply eq_sym, app_assoc. }
      rewrite Hrec in *. clear Hrec.
      apply Forall_cons in Hlen. destruct Hlen as [Hblock Hlen].
      destruct (starts_with_app _ _ _ Hs) as [Hs1 Hs2].
      cbn [length Nat.add]. rewrite decodeAnnotation_S.
      assert (Hpeek : peekByte (input d) = (Some (byte_val x77), input d)).
      { unfold short_block in Hs1. exact (peekByte_starts_with _ _ _ Hs1). }
      rewrite (bind_Ok _ _ _ _ _ (on_input_Some peekByte d _ _ Hpeek)).
      rewrite with_input_input.
      change (negb (byte_val x77 =? TC_ENDBLOCKDATA)) with true. cbv iota.
      rewrite (bind_Ok _ _ _ _ _
                 (decodeContent_short_block _ d block Hblock Hs1)).
      assert (Hsize : Z.of_nat (length (short_block block))
                      = 2 + Z.of_nat (length block)).
      { unfold short_block. rewrite !length_app, be_bytes_length.
        cbn [length]. lia. }
      rewrite Hsize in Hs2.
      rewrite (IH (acc ++ [CBlock block])
                 (with_input d (advance (input d) (2 + Z.of_nat (length block))))
                 Hlen Hs2).
      rewrite <- app_assoc. cbn [app map]. f_equal.
      unfold with_input. cbn [input handle objectRegistry].
      rewrite advance_advance. do 2 f_equal.
      rewrite length_app, Nat2Z.inj_add, Hsize. reflexivity.
  - intros fuel acc d Hav. rewrite decodeAnnotation_S.
    assert (Hpeek : peekByte (input d) = (None, input d)).
    { unfold peekByte. rewrite (getUint_None_stream _ _ Hav). reflexivity. }
    rewrite (bind_Throw _ _ _ _ _ (on_input_throws peekByte d _ Hpeek)).
    rewrite with_input_input. reflexivity.
Qed.

Lemma annotation_blocks_in_order_witness :
  decodeAnnotation 3 [CBlock []]
    (new_Decoder
       (mkByteStream (annotation_record [[x01; x02]; [x03]]) 0))
  = Ok [CBlock []; CBlock [x01; x02]; CBlock [x03]]
       (new_Decoder
          (mkByteStream (annotation_record [[x01; x02]; [x03]]) 8))
  /\ decodeAnnotation 1 []
       (new_Decoder (mkByteStream (short_block [x01]) 3))
     = Throw RangeError (new_Decoder (mkByteStream (short_block [x01]) 3)).
Proof.
  split.
  - refine (proj1 annotation_blocks_in_order 0%nat [[x01; x02]; [x03]]
              [CBlock []]
              (new_Decoder
                 (mkByteStream (annotation_record [[x01; x02]; [x03]]) 0))
              _ _).
    + repeat constructor.
    + split; [vm_compute; split; discriminate | reflexivity].
  - refine (proj2 annotation_blocks_in_order 0%nat []
              (new_Decoder (mkByteStream (short_block [x01]) 3)) _).
    unfold available, ByteStream_length. cbn. lia.
Defined.

(** ** Objects with fields *)

Lemma to_signed_mod v :
  - 2 ^ 31 <= v < 2 ^ 31 -> to_signed 32 (v mod 2 ^ 32) = v.
Proof.
  intros Hv. unfold to_signed. change (32 - 1) with 31.
  destruct (Z.neg_nonneg_cases v) as [Hneg | Hpos].
  - assert (Hmod : v mod 2 ^ 32 = v + 2 ^ 32).
    { symmetry. apply Z.mod_unique with (-1); lia. }
    rewrite Hmod.
    replace (2 ^ 31 <=? v + 2 ^ 32) with true by (symmetry; apply Z.leb_le; lia).
    lia.
  - rewrite Z.mod_small by lia.
    replace (2 ^ 31 <=? v) with false by (symmetry; apply Z.leb_gt; lia).
    reflexivity.
Qed.

Lemma readInt_starts_with s v rest :
  - 2 ^ 31 <= v < 2 ^ 31 ->
  starts_with s (be_bytes 4 (v mod 2 ^ 32) ++ rest) ->
  readInt s = (Some v, advance s 4) /\ starts_with (advance s 4) rest.
Proof.
  intros Hv Hs. apply starts_with_app in Hs. destruct Hs as [Hs Hrest].
  rewrite be_bytes_length in Hrest. split; [ | exact Hrest].
  pose proof (starts_with_available _ _ Hs) as Hav.
  pose proof (starts_with_bytes_at _ _ Hs) as Hbytes.
  rewrite be_bytes_length in Hav, Hbytes.
  unfold readInt, getInt. rewrite (getUint_available _ _ Hav), Hbytes.
  rewrite be_unsigned_bytes
    by (change (256 ^ Z.of_nat 4) with (2 ^ 32); apply Z.mod_pos_bound; lia).
  cbn [fmap option_fmap option_map]. change (8 * Z.of_nat 4) with 32.
  rewrite (to_signed_mod v Hv). reflexivity.
Qed.

Lemma advance_0 s : advance s 0 = s.
Proof. unfold advance. rewrite Z.add_0_r. apply ByteStream_eta. Qed.









(** ** Arrays with elements *)

Lemma times_decodeObject_null fuel n :
  forall d rest,
    starts_with (input d) (replicate n x70 ++ rest) ->
    times n (decodeObject (S fuel)) d
    = Ok (replicate n RNull) (with_input d (advance (input d) (Z.of_nat n))).
Proof.
  induction n as [| n IH]; intros d rest Hs.
  - cbn [times replicate]. change (Z.of_nat 0) with 0.
    rewrite advance_0, with_input_input. reflexivity.
  - cbn [replicate] in Hs. change (x70 :: replicate n x70 ++ rest)
      with ([x70] ++ replicate n x70 ++ rest) in Hs.
    destruct (readByte_starts_with _ _ _ Hs) as [Hread Hs1].
    assert (Hnull : decodeObject (S fuel) d
                    = Ok RNull (with_input d (advance (input d) 1))).
    { rewrite decodeObject_S.
      rewrite (bind_Ok _ _ _ _ _ (on_input_Some readByte d _ _ Hread)).
      reflexivity. }
    cbn [times replicate]. rewrite (bind_Ok _ _ _ _ _ Hnull).
    rewrite (bind_Ok _ _ _ _ _
               (IH (with_input d (advance (input d) 1)) rest Hs1)).
    cbn [ret input with_input]. rewrite advance_advance.
    unfold with_input. cbn [handle objectRegistry].
    do 3 f_equal. lia.
Qed.

(** The elements of an array are read as object records, whatever the
    class descriptor of the array says of their type.  After the class
    descriptor and a size [n], [n] null tags give an array of [n] nulls,
    registered under the handle allocated, the cursor behind the last tag.
    When the size is positive and the byte after it is no tag that
    [decodeObject] decodes (as the first byte of the values of an array of
    a primitive type may be), the call throws after the handle was
    allocated, and registers nothing. *)
Theorem array_elements_are_object_records fuel d ref d1 classDesc :
  decodeClassDesc (S fuel) None d = Ok ref d1 ->
  get_classDesc ref = inr classDesc ->
  (forall n,
      Z.of_nat n < 2 ^ 31 ->
      starts_with (input d1) (be_bytes 4 (Z.of_nat n) ++ replicate n x70) ->
      let arr := ArrayReference (handle d1) classDesc (replicate n RNull) in
      decodeNewArray (S (S fuel)) d
      = Ok arr
           (stored (handle d1) arr
              (allocated
                 (with_input d1 (advance (input d1) (4 + Z.of_nat n)))))
      /\ simplifyReference arr = VArray (replicate n VNull))
  /\ (forall tc,
         available (input d1) 4 ->
         0 < int32_at (input d1) ->
         tag_at (advance (input d1) 4) tc ->
         ~ In tc decodeObject_tc ->
         decodeNewArray (S (S fuel)) d
         = Throw (UnknownTcAt (position (input d1) + 5) tc)
             (allocated (with_input d1 (advance (input d1) 5)))).
Proof.
  intros Hcd Hget. split.
  - intros n Hn Hs arr. split.
    + assert (Hsize : - 2 ^ 31 <= Z.of_nat n < 2 ^ 31) by lia.
      rewrite <- (Z.mod_small (Z.of_nat n) (2 ^ 32)) in Hs by lia.
      destruct (readInt_starts_with _ _ _ Hsize Hs) as [Hread Hs1].
      rewrite decodeNewArray_S.
      rewrite (bind_Ok _ _ _ _ _ Hcd), Hget.
      cbn [lift_exn]. rewrite bind_ret, bind_nextHandle.
      rewrite (bind_Ok _ _ _ _ _
                 (on_input_Some readInt (allocated d1) _ _ Hread)).
      rewrite Nat2Z.id.
      rewrite <- (app_nil_r (replicate n x70)) in Hs1.
      rewrite (bind_Ok _ _ _ _ _
                 (times_decodeObject_null fuel n
                    (with_input (allocated d1) (advance (input d1) 4)) []
                    Hs1)).
      unfold store, stored, allocated, with_input.
      cbn [input handle objectRegistry]. rewrite advance_advance. reflexivity.
    + unfold arr. cbn [simplifyReference]. f_equal.
      clear. induction n as [| n IH]; [reflexivity | ].
      cbn [replicate List.map simplifyReference]. rewrite IH. reflexivity.
  - intros tc Hav Hsize Htag Hnot.
    rewrite decodeNewArray_S.
    rewrite (bind_Ok _ _ _ _ _ Hcd), Hget.
    cbn [lift_exn]. rewrite bind_ret, bind_nextHandle.
    rewrite (bind_Ok _ _ _ _ _ (on_input_readInt (allocated d1) Hav)).
    cbn [allocated input]. fold (int32_at (input d1)).
    destruct (Z.to_nat (int32_at (input d1))) as [| n] eqn:E; [lia | ].
    cbn [times].
    pose proof (decodeObject_unknown_tag fuel
                  (with_input (mkDecoder (input d1) (handle d1 + 1)
                                 (objectRegistry d1))
                     (advance (input d1) 4)) tc Htag Hnot) as Hthrow.
    rewrite (bind_Throw _ _ _ _ _ (bind_Throw _ _ _ _ _ Hthrow)).
    unfold with_input. cbn [input handle objectRegistry].
    rewrite advance_advance. unfold advance at 1. cbn [position].
    f_equal. f_equal. lia.
Qed.

Lemma array_elements_are_object_records_witness :
  let cdr := [x72; x00; x02; x5b; x49;
              x00; x00; x00; x00; x00; x00; x00; x00;
              x02; x00; x00; x78; x70] in
  let cd := mkClassDesc [91; 73] 0 (mkClassDescInfo 2 [] [] RNull) in
  let nulls := cdr ++ [x00; x00; x00; x02; x70; x70] in
  let ints := cdr ++ [x00; x00; x00; x01; x00; x00; x00; x07] in
  decodeNewArray 4 (new_Decoder (mkByteStream nulls 0))
  = Ok (ArrayReference 0x7E0001 (Some cd) [RNull; RNull])
       (stored 0x7E0001 (ArrayReference 0x7E0001 (Some cd) [RNull; RNull])
          (allocated
             (stored 0x7E0000 (ClassDescReference 0x7E0000 cd)
                (allocated (new_Decoder (mkByteStream nulls 24))))))
  /\ decodeNewArray 4 (new_Decoder (mkByteStream ints 0))
     = Throw (UnknownTcAt 23 0)
         (allocated
            (stored 0x7E0000 (ClassDescReference 0x7E0000 cd)
               (allocated (new_Decoder (mkByteStream ints 23))))).
Proof.
  intros cdr cd nulls ints. split.
  - refine (proj1 (proj1 (array_elements_are_object_records 2%nat
                            (new_Decoder (mkByteStream nulls 0))
                            (ClassDescReference 0x7E0000 cd)
                            (stored 0x7E0000 (ClassDescReference 0x7E0000 cd)
                               (allocated
                                  (new_Decoder (mkByteStream nulls 18))))
                            (Some cd) _ _) 2%nat _ _)).
    + vm_compute. reflexivity.
    + reflexivity.
    + vm_compute. reflexivity.
    + split; [unfold in_buffer, ByteStream_length; cbn; lia | reflexivity].
  - refine (proj2 (array_elements_are_object_records 2%nat
                     (new_Decoder (mkByteStream ints 0))
                     (ClassDescReference 0x7E0000 cd)
                     (stored 0x7E0000 (ClassDescReference 0x7E0000 cd)
                        (allocated (new_Decoder (mkByteStream ints 18))))
                     (Some cd) _ _) 0 _ _ _ _).
    + vm_compute. reflexivity.
    + reflexivity.
    + unfold available, ByteStream_length. cbn. lia.
    + vm_compute. reflexivity.
    + split; [unfold available, ByteStream_length; cbn; lia | reflexivity].
    + vm_compute. intuition discriminate.
Defined.
